(** * The iris trainer driver ([trainer/task.py]): a shallow embedding

    The driver parses the command line, configures logging, derives a
    device-filter policy from the [TF_CONFIG] environment variable, and hands
    a run configuration, a training specification and an evaluation
    specification to the estimator framework.  The Python values, the
    exceptions and the process state the driver manipulates are modelled
    directly; the Python standard library ([json], [argparse], [logging]) and
    the estimator framework are modelled only as far as the driver uses
    them. *)

From Stdlib Require Import ZArith String Ascii List Bool.
From Stdlib Require Import DecimalString Decimal DecimalZ.
From Stdlib Require Import SpecFloat.
From stdpp Require Import base option list gmap strings fin_maps.

Set Warnings "-register-all".

Open Scope string_scope.
Open Scope list_scope.
Open Scope Z_scope.

(** ** Python values *)

(** The values [json.loads] and [argparse] produce.  A JSON object becomes a
    [dict] keyed by strings; a float is an IEEE binary64 number. *)
Inductive PyValue : Type :=
| PyNone
| PyBool (b : bool)
| PyInt (n : Z)
| PyFloat (f : spec_float)
| PyStr (s : string)
| PyList (l : list PyValue)
| PyDict (d : gmap string PyValue).

(** ** Exceptions *)

Inductive PyExn : Type :=
| TypeError
| ValueError
| OverflowError
| KeyError (key : string)
| JSONDecodeError
| SystemExit (code : Z).

(** A computation either returns or raises. *)
Inductive result (A : Type) : Type :=
| Return (a : A)
| Raise (e : PyExn).
Arguments Return {A} a.
Arguments Raise {A} e.

(** [result] is a monad; stdpp's [x ← m; k] sequences two computations and
    stops at the first exception, as Python does. *)
#[global] Instance result_ret : MRet result := fun _ a => Return a.
#[global] Instance result_bind : MBind result := fun _ _ k m =>
  match m with
  | Return a => k a
  | Raise e => Raise e
  end.

(** ** Built-in operations on values *)

(** [bool(v)]: the truth value Python gives [v] in a condition. *)
Definition truthy (v : PyValue) : bool :=
  match v with
  | PyNone => false
  | PyBool b => b
  | PyInt n => negb (n =? 0)
  | PyFloat (S754_zero _) => false
  | PyFloat _ => true
  | PyStr s => negb (String.eqb s "")
  | PyList l => negb (Nat.eqb (length l) 0)
  | PyDict d => negb (Nat.eqb (size d) 0)
  end.

(** [v == s] for a string literal [s]: only an equal string compares equal. *)
Definition py_eq_str (v : PyValue) (s : string) : bool :=
  match v with
  | PyStr s' => String.eqb s' s
  | _ => false
  end.

(** [needle in hay] on two strings: the substring test. *)
Fixpoint str_contains (needle hay : string) : bool :=
  String.prefix needle hay ||
  match hay with
  | EmptyString => false
  | String _ hay' => str_contains needle hay'
  end.

(** [k in c] for a string literal [k]: key membership in a dict, element
    membership in a list, substring test in a string; every other value is
    not iterable. *)
Definition py_in (k : string) (c : PyValue) : result bool :=
  match c with
  | PyDict d => Return (bool_decide (is_Some (d !! k)))
  | PyList l => Return (existsb (fun v => py_eq_str v k) l)
  | PyStr s => Return (str_contains k s)
  | _ => Raise TypeError
  end.

(** [c[k]] for a string literal [k]: only a dict can be subscripted by a
    string. *)
Definition py_getitem (c : PyValue) (k : string) : result PyValue :=
  match c with
  | PyDict d =>
      match d !! k with
      | Some v => Return v
      | None => Raise (KeyError k)
      end
  | _ => Raise TypeError
  end.

(** Decimal text of an integer, with a leading [-] when negative. *)
Definition str_of_int (n : Z) : string := NilZero.string_of_int (Z.to_int n).

(** [int(f)] for a finite float: truncation towards zero. *)
Definition float_trunc (s : bool) (m : positive) (e : Z) : Z :=
  let a := if 0 <=? e then Z.shiftl (Z.pos m) e else Z.shiftr (Z.pos m) (- e) in
  if s then - a else a.

(** ['%d' % v]: an integer is printed in decimal, a boolean as the integer
    it is, a float is truncated first (NaN and the infinities have no
    integer value), and nothing else is a number. *)
Definition format_d (v : PyValue) : result string :=
  match v with
  | PyInt n => Return (str_of_int n)
  | PyBool b => Return (if b then "1" else "0")
  | PyFloat (S754_zero _) => Return "0"
  | PyFloat (S754_finite s m e) => Return (str_of_int (float_trunc s m e))
  | PyFloat S754_nan => Raise ValueError
  | PyFloat (S754_infinity _) => Raise OverflowError
  | _ => Raise TypeError
  end.

(** [a and b] where both operands may raise: [b] is evaluated only when [a]
    is true. *)
Definition and_then (a b : result bool) : result bool :=
  a ≫= λ x : bool, if x then b else Return false.

(** ** The device-filter derivation *)

(** [tf.ConfigProto(device_filters=...)]. *)
Record ConfigProto : Type := { device_filters : list string }.

Section SessionConfig.

(** [json.loads] from the standard library. *)
Variable json_loads : string -> result PyValue.

(** [os.environ] maps variable names to their text. *)
Definition _get_session_config_from_env_var (environ : gmap string string)
  : result (option ConfigProto) :=
  tf_config ← json_loads (default "{}" (environ !! "TF_CONFIG"));
  c ← and_then (Return (truthy tf_config))
        (and_then (py_in "task" tf_config)
           (and_then (task ← py_getitem tf_config "task"; py_in "type" task)
                     (task ← py_getitem tf_config "task"; py_in "index" task)));
  if c : bool then
    task ← py_getitem tf_config "task";
    ty ← py_getitem task "type";
    if py_eq_str ty "master" then
      Return (Some {| device_filters := ["/job:ps"; "/job:master"] |})
    else
      task ← py_getitem tf_config "task";
      ty ← py_getitem task "type";
      if py_eq_str ty "worker" then
        task ← py_getitem tf_config "task";
        index ← py_getitem task "index";
        s ← format_d index;
        Return (Some {| device_filters :=
                          ["/job:ps"; "/job:worker/task:" +:+ s] |})
      else Return None
  else Return None.

End SessionConfig.

(** ** A JSON decoder

    [Json.loads] decodes JSON text the way Python's [json.loads] does with its
    default settings: objects become dicts (a repeated key keeps its last
    value), arrays lists, numbers without fraction or exponent integers, all
    other numbers binary64 floats (correctly rounded), and [NaN], [Infinity]
    and [-Infinity] are accepted.  Strings are byte strings; a [\u] escape is
    stored in UTF-8.  The theorems below hold for any decoder; this one is
    used to run the driver on concrete text. *)
Module Json.

Definition chr (n : nat) : ascii := ascii_of_nat n.
Definition ord (c : ascii) : Z := Z.of_nat (nat_of_ascii c).

Definition is_ws (c : ascii) : bool :=
  let n := ord c in (n =? 32) || (n =? 9) || (n =? 10) || (n =? 13).

Fixpoint skip_ws (s : list ascii) : list ascii :=
  match s with
  | c :: r => if is_ws c then skip_ws r else s
  | [] => []
  end.

Definition digit_of (c : ascii) : option Z :=
  let n := ord c in
  if (48 <=? n) && (n <=? 57) then Some (n - 48) else None.

Definition hex_of (c : ascii) : option Z :=
  let n := ord c in
  if (48 <=? n) && (n <=? 57) then Some (n - 48)
  else if (65 <=? n) && (n <=? 70) then Some (n - 55)
  else if (97 <=? n) && (n <=? 102) then Some (n - 87)
  else None.

(** The longest run of digits at the head of [s]: its value on top of
    [acc], the number of digits read, and the rest. *)
Fixpoint read_digits (acc cnt : Z) (s : list ascii) : Z * Z * list ascii :=
  match s with
  | c :: r =>
      match digit_of c with
      | Some d => read_digits (10 * acc + d) (cnt + 1) r
      | None => (acc, cnt, s)
      end
  | [] => (acc, cnt, s)
  end.

(** The binary64 number nearest to [digits * 10 ^ e10] (ties to even). *)
Definition float_of_decimal (neg : bool) (digits e10 : Z) : spec_float :=
  match digits with
  | Z.pos d =>
      let p := Z.to_pos (Z.pos d * 10 ^ Z.max e10 0) in
      let q := Z.to_pos (10 ^ Z.max (- e10) 0) in
      SFdiv 53 1024 (S754_finite neg p 0) (S754_finite false q 0)
  | _ => S754_zero neg
  end.

Definition starts_with (p : string) (s : list ascii) : option (list ascii) :=
  let lp := list_ascii_of_string p in
  if bool_decide (take (length lp) s = lp)
  then Some (drop (length lp) s) else None.

(** A number at the head of [s]: an optional minus sign, then [0] or a run
    of digits that does not start with [0], then optionally a point with
    at least one digit, then optionally an exponent ([e] or [E], an
    optional sign, at least one digit).  A point or an exponent mark that
    is not followed by a digit is left unread. *)
Definition parse_number (s : list ascii) : option (PyValue * list ascii) :=
  let '(neg, s1) :=
    match s with
    | c :: r => if ord c =? 45 then (true, r) else (false, s)
    | [] => (false, s)
    end in
  let int_part :=
    match s1 with
    | c :: r =>
        if ord c =? 48 then Some (0, r)
        else match digit_of c with
             | Some _ => let '(v, _, r') := read_digits 0 0 s1 in Some (v, r')
             | None => None
             end
    | [] => None
    end in
  '(ip, s2) ← int_part;
  let '(fv, fc, s3) :=
    match s2 with
    | c :: r =>
        if ord c =? 46 then
          let '(v, n, r') := read_digits 0 0 r in
          if n =? 0 then (0, 0, s2) else (v, n, r')
        else (0, 0, s2)
    | [] => (0, 0, s2)
    end in
  let '(has_exp, ev, s4) :=
    match s3 with
    | c :: r =>
        if (ord c =? 101) || (ord c =? 69) then
          let '(eneg, r1) :=
            match r with
            | c' :: r' =>
                if ord c' =? 45 then (true, r')
                else if ord c' =? 43 then (false, r') else (false, r)
            | [] => (false, r)
            end in
          let '(v, n, r2) := read_digits 0 0 r1 in
          if n =? 0 then (false, 0, s3)
          else (true, if eneg then - v else v, r2)
        else (false, 0, s3)
    | [] => (false, 0, s3)
    end in
  if (fc =? 0) && negb has_exp
  then Some (PyInt (if neg then - ip else ip), s4)
  else Some (PyFloat (float_of_decimal neg (ip * 10 ^ fc + fv) (ev - fc)), s4).

(** UTF-8 bytes of a code point. *)
Definition utf8 (n : Z) : list ascii :=
  let b (x : Z) := chr (Z.to_nat x) in
  if n <? 128 then [b n]
  else if n <? 2048 then [b (192 + n / 64); b (128 + n mod 64)]
  else if n <? 65536 then
    [b (224 + n / 4096); b (128 + (n / 64) mod 64); b (128 + n mod 64)]
  else [b (240 + n / 262144); b (128 + (n / 4096) mod 64);
        b (128 + (n / 64) mod 64); b (128 + n mod 64)].

Definition hex4 (a b c d : ascii) : option Z :=
  x ← hex_of a; y ← hex_of b; z ← hex_of c; w ← hex_of d;
  Some (((x * 16 + y) * 16 + z) * 16 + w).

(** The body of a string literal, after its opening quote; [acc] holds the
    bytes read so far, last first. *)
Fixpoint parse_string (acc : list ascii) (s : list ascii)
  : option (string * list ascii) :=
  match s with
  | [] => None
  | c :: r =>
      if ord c =? 34 then Some (string_of_list_ascii (rev acc), r)
      else if ord c <? 32 then None
      else if ord c =? 92 then
        match r with
        | e :: r1 =>
            let simple (x : nat) := parse_string (chr x :: acc) r1 in
            if ord e =? 34 then simple 34%nat
            else if ord e =? 92 then simple 92%nat
            else if ord e =? 47 then simple 47%nat
            else if ord e =? 98 then simple 8%nat
            else if ord e =? 102 then simple 12%nat
            else if ord e =? 110 then simple 10%nat
            else if ord e =? 114 then simple 13%nat
            else if ord e =? 116 then simple 9%nat
            else if ord e =? 117 then
              match r1 with
              | h1 :: h2 :: h3 :: h4 :: r2 =>
                  match hex4 h1 h2 h3 h4 with
                  | None => None
                  | Some hi =>
                      let single := parse_string (rev (utf8 hi) ++ acc) r2 in
                      if (55296 <=? hi) && (hi <=? 56319) then
                        match r2 with
                        | b :: u :: l1 :: l2 :: l3 :: l4 :: r3 =>
                            match hex4 l1 l2 l3 l4 with
                            | Some lo =>
                                if (ord b =? 92) && (ord u =? 117)
                                   && (56320 <=? lo) && (lo <=? 57343)
                                then
                                  let cp := 65536 + (hi - 55296) * 1024
                                            + (lo - 56320) in
                                  parse_string (rev (utf8 cp) ++ acc) r3
                                else single
                            | None => single
                            end
                        | _ => single
                        end
                      else single
                  end
              | _ => None
              end
            else None
        | [] => None
        end
      else parse_string (c :: acc) r
  end.

(** A value at the head of [s] (white space already skipped), the items of
    an array after its first, and the members of an object after its
    first.  [fuel] bounds the nesting and the number of items. *)
Fixpoint parse_value (fuel : nat) (s : list ascii) {struct fuel}
  : option (PyValue * list ascii) :=
  match fuel with
  | O => None
  | S fuel' =>
      match s with
      | [] => None
      | c :: r =>
          if ord c =? 34 then
            '(str, r') ← parse_string [] r; Some (PyStr str, r')
          else if ord c =? 91 then
            match skip_ws r with
            | c' :: r' =>
                if ord c' =? 93 then Some (PyList [], r')
                else
                  '(v, r1) ← parse_value fuel' (skip_ws r);
                  parse_items fuel' [v] (skip_ws r1)
            | [] => None
            end
          else if ord c =? 123 then
            match skip_ws r with
            | c' :: r' =>
                if ord c' =? 125 then Some (PyDict ∅, r')
                else parse_members fuel' ∅ (skip_ws r)
            | [] => None
            end
          else
            match starts_with "true" s, starts_with "false" s,
                  starts_with "null" s, starts_with "NaN" s,
                  starts_with "Infinity" s, starts_with "-Infinity" s with
            | Some r', _, _, _, _, _ => Some (PyBool true, r')
            | _, Some r', _, _, _, _ => Some (PyBool false, r')
            | _, _, Some r', _, _, _ => Some (PyNone, r')
            | _, _, _, Some r', _, _ => Some (PyFloat S754_nan, r')
            | _, _, _, _, Some r', _ => Some (PyFloat (S754_infinity false), r')
            | _, _, _, _, _, Some r' => Some (PyFloat (S754_infinity true), r')
            | _, _, _, _, _, _ => parse_number s
            end
      end
  end
with parse_items (fuel : nat) (acc : list PyValue) (s : list ascii)
  {struct fuel} : option (PyValue * list ascii) :=
  match fuel with
  | O => None
  | S fuel' =>
      match s with
      | c :: r =>
          if ord c =? 93 then Some (PyList acc, r)
          else if ord c =? 44 then
            '(v, r1) ← parse_value fuel' (skip_ws r);
            parse_items fuel' (acc ++ [v]) (skip_ws r1)
          else None
      | [] => None
      end
  end
with parse_members (fuel : nat) (acc : gmap string PyValue) (s : list ascii)
  {struct fuel} : option (PyValue * list ascii) :=
  match fuel with
  | O => None
  | S fuel' =>
      match s with
      | q :: r =>
          if ord q =? 34 then
            '(key, r1) ← parse_string [] r;
            match skip_ws r1 with
            | colon :: r2 =>
                if ord colon =? 58 then
                  '(v, r3) ← parse_value fuel' (skip_ws r2);
                  let acc' := <[key := v]> acc in
                  match skip_ws r3 with
                  | c :: r4 =>
                      if ord c =? 125 then Some (PyDict acc', r4)
                      else if ord c =? 44
                      then parse_members fuel' acc' (skip_ws r4)
                      else None
                  | [] => None
                  end
                else None
            | [] => None
            end
          else None
      | [] => None
      end
  end.

(** [json.loads(text)]: one value, white space around it, nothing else. *)
Definition loads (text : string) : result PyValue :=
  let s := list_ascii_of_string text in
  match parse_value (2 * length s + 2) (skip_ws s) with
  | Some (v, r) =>
      match skip_ws r with
      | [] => Return v
      | _ => Raise JSONDecodeError
      end
  | None => Raise JSONDecodeError
  end.

End Json.

(** JSON text is written below with ['] in place of the double quote. *)
Definition dq (s : string) : string :=
  string_of_list_ascii
    (map (fun c => if Json.ord c =? 39 then Json.chr 34 else c)
       (list_ascii_of_string s)).


(** ** The command line

    [Argparse] models [argparse.ArgumentParser] as the driver uses it: a help
    action ([-h], [--help]) that the parser adds itself, and store actions
    for long options taking one argument or one or more.  Option strings may
    be abbreviated to an unambiguous prefix and may carry their argument
    after [=]; the token [--] ends option recognition, and since the
    parser has no positional argument, it and what follows it are left
    over.  A usage error ends the process with exit status 2, a request for
    help with status 0. *)
Module Argparse.

Inductive Nargs : Type :=
| NargsOne    (* nargs=None: exactly one argument, stored as such *)
| NargsPlus   (* nargs='+': one or more, stored as a list *)
| NargsZero.  (* the help action takes none *)

Inductive ArgType : Type := TypeStr | TypeInt | TypeFloat.

Inductive ActionKind : Type := Store | Help.

(** [dest] and [default] are [None] where argparse has [SUPPRESS]. *)
Record Action : Type := {
  option_strings : list string;
  dest : option string;
  nargs : Nargs;
  required : bool;
  type : ArgType;
  default : option PyValue;
  kind : ActionKind
}.

Definition help_action : Action :=
  {| option_strings := ["-h"; "--help"]; dest := None; nargs := NargsZero;
     required := false; type := TypeStr; default := None; kind := Help |}.

(** [ArgumentParser()]: a parser that knows only the help action. *)
Definition ArgumentParser : list Action := [help_action].

Fixpoint lstrip_dash (s : string) : string :=
  match s with
  | String c r => if Json.ord c =? 45 then lstrip_dash r else s
  | EmptyString => s
  end.

Fixpoint dash_to_underscore (s : string) : string :=
  match s with
  | String c r =>
      String (if Json.ord c =? 45 then Json.chr 95 else c) (dash_to_underscore r)
  | EmptyString => EmptyString
  end.

(** [parser.add_argument(flag, nargs=.., required=.., type=.., default=..)]
    for a long option: the destination is the flag without its leading
    dashes, inner dashes replaced by underscores. *)
Definition add_argument (parser : list Action) (flag : string) (n : Nargs)
    (req : bool) (ty : ArgType) (dflt : PyValue) : list Action :=
  parser ++
  [{| option_strings := [flag];
      dest := Some (dash_to_underscore (lstrip_dash flag));
      nargs := n; required := req; type := ty; default := Some dflt;
      kind := Store |}].

(** The name under which an action is recorded as seen. *)
Definition action_name (a : Action) : string := hd "" (option_strings a).

Definition lookup_option (parser : list Action) (s : string) : option Action :=
  find (fun a => bool_decide (s ∈ option_strings a)) parser.

(** [s.split('=', 1)] when [s] contains [=]. *)
Fixpoint split_eq (s : string) : option (string * string) :=
  match s with
  | EmptyString => None
  | String c r =>
      if Json.ord c =? 61 then Some (EmptyString, r)
      else '(a, b) ← split_eq r; Some (String c a, b)
  end.

Definition all_digits (s : string) : bool :=
  forallb (fun c => bool_decide (is_Some (Json.digit_of c)))
          (list_ascii_of_string s).

Fixpoint split_dot (s : string) : option (string * string) :=
  match s with
  | EmptyString => None
  | String c r =>
      if Json.ord c =? 46 then Some (EmptyString, r)
      else '(a, b) ← split_dot r; Some (String c a, b)
  end.

Fixpoint drop_final_newline (s : string) : string :=
  match s with
  | EmptyString => EmptyString
  | String c EmptyString => if Json.ord c =? 10 then EmptyString else s
  | String c r => String c (drop_final_newline r)
  end.

(** A minus sign followed by digits, or by digits, a point and at least
    one digit; the end may be followed by one newline. *)
Definition negative_number (s : string) : bool :=
  match drop_final_newline s with
  | String c r =>
      (Json.ord c =? 45) &&
      ((negb (String.eqb r "") && all_digits r) ||
       match split_dot r with
       | Some (a, b) => all_digits a && negb (String.eqb b "") && all_digits b
       | None => false
       end)
  | EmptyString => false
  end.

Definition has_space (s : string) : bool :=
  existsb (fun c => Json.ord c =? 32) (list_ascii_of_string s).

(** The option strings [tok] can stand for, each with the argument the
    token carries.  A token that begins with two dashes stands for every
    option string that its part before [=] is a prefix of; one that begins
    with a single dash stands for the option string that is its first two
    characters, the rest being the argument, and for every option string
    the whole token is a prefix of. *)
Definition option_tuples (parser : list Action) (tok : string)
  : list (Action * option string) :=
  if String.prefix "--" tok then
    let '(pre, expl) :=
      match split_eq tok with
      | Some (o, e) => (o, Some e)
      | None => (tok, None)
      end in
    flat_map (fun a =>
      flat_map (fun os => if String.prefix pre os then [(a, expl)] else [])
               (option_strings a)) parser
  else
    let short := substring 0 2 tok in
    let rest := substring 2 (String.length tok - 2) tok in
    flat_map (fun a =>
      flat_map (fun os =>
                  if String.eqb os short then [(a, Some rest)]
                  else if String.prefix tok os then [(a, None)] else [])
               (option_strings a)) parser.

(** How the parser reads one token: as an argument, as the [--] that ends
    option recognition, or as an option (with the action it selects, if
    any, and the argument attached to it, if any). *)
Inductive Tok : Type :=
| TokA
| TokDash
| TokO (a : option Action) (explicit : option string).

Definition parse_optional (parser : list Action) (tok : string) : result Tok :=
  match tok with
  | EmptyString => Return TokA
  | String c r =>
      if negb (Json.ord c =? 45) then Return TokA
      else
        match lookup_option parser tok with
        | Some a => Return (TokO (Some a) None)
        | None =>
            if String.eqb r "" then Return TokA
            else
              let exact_with_arg :=
                '(o, e) ← split_eq tok;
                a ← lookup_option parser o; Some (a, e) in
              match exact_with_arg with
              | Some (a, e) => Return (TokO (Some a) (Some e))
              | None =>
                  match option_tuples parser tok with
                  | [(a, e)] => Return (TokO (Some a) e)
                  | _ :: _ :: _ => Raise (SystemExit 2)
                  | [] =>
                      if negative_number tok then Return TokA
                      else if has_space tok then Return TokA
                      else Return (TokO None None)
                  end
              end
        end
  end.

(** The first pass over the command line: every token after [--] is an
    argument. *)
Fixpoint classify (parser : list Action) (after_dash : bool)
    (argv : list string) : result (list (string * Tok)) :=
  match argv with
  | [] => Return []
  | t :: r =>
      if after_dash then
        rest ← classify parser true r; Return ((t, TokA) :: rest)
      else if String.eqb t "--" then
        rest ← classify parser true r; Return ((t, TokDash) :: rest)
      else
        c ← parse_optional parser t;
        rest ← classify parser false r; Return ((t, c) :: rest)
  end.

Definition is_arg (t : string * Tok) : bool :=
  match t.2 with TokA => true | _ => false end.

Fixpoint span {A} (f : A -> bool) (l : list A) : list A * list A :=
  match l with
  | x :: r => if f x then let '(a, b) := span f r in (x :: a, b) else ([], l)
  | [] => ([], [])
  end.

(** The tokens an action takes from those that follow its option string,
    and the tokens left; [None] when the action needs an argument and the
    next token is not one.  An action that has option strings takes
    arguments only, never the [--]: the library removes the dashes from the
    pattern of its arguments. *)
Definition match_argument (n : Nargs) (toks : list (string * Tok))
  : option (list string * list (string * Tok)) :=
  match n with
  | NargsZero => Some ([], toks)
  | NargsOne =>
      match toks with
      | (s, TokA) :: r => Some ([s], r)
      | _ => None
      end
  | NargsPlus =>
      match toks with
      | (s, TokA) :: r =>
          let '(m, r') := span is_arg r in
          Some (s :: m.*1, r')
      | _ => None
      end
  end.

(** [arg_strings.remove('--')], when there is one. *)
Fixpoint remove_first_dash (l : list string) : list string :=
  match l with
  | [] => []
  | x :: r => if String.eqb x "--" then r else x :: remove_first_dash r
  end.

Record ParseState : Type := {
  namespace : gmap string PyValue;
  seen : list string;
  extras : list string
}.

Section Conversions.

(** The built-in conversions [int(s)] and [float(s)] of a command-line
    string; [None] when they raise [ValueError]. *)
Variable py_int : string -> option Z.
Variable py_float : string -> option spec_float.

Definition get_value (ty : ArgType) (s : string) : result PyValue :=
  match ty with
  | TypeStr => Return (PyStr s)
  | TypeInt =>
      match py_int s with
      | Some n => Return (PyInt n)
      | None => Raise (SystemExit 2)
      end
  | TypeFloat =>
      match py_float s with
      | Some f => Return (PyFloat f)
      | None => Raise (SystemExit 2)
      end
  end.

Fixpoint get_value_list (ty : ArgType) (l : list string)
  : result (list PyValue) :=
  match l with
  | [] => Return []
  | s :: r =>
      v ← get_value ty s; vs ← get_value_list ty r; Return (v :: vs)
  end.

(** The value an action stores for its argument strings: the converted
    string when the action takes one argument and has exactly one, the
    list of the converted strings otherwise. *)
Definition get_values (a : Action) (args : list string) : result PyValue :=
  let args := remove_first_dash args in
  match nargs a, args with
  | NargsOne, [s] => get_value (type a) s
  | _, _ => vs ← get_value_list (type a) args; Return (PyList vs)
  end.

(** Running an action: help prints the usage and exits; a store action
    converts its arguments and sets its destination. *)
Definition take_action (a : Action) (args : list string) (st : ParseState)
  : result ParseState :=
  match kind a with
  | Help => Raise (SystemExit 0)
  | Store =>
      v ← get_values a args;
      Return {| namespace :=
                  match dest a with
                  | Some d => <[d := v]> (namespace st)
                  | None => namespace st
                  end;
                seen := action_name a :: seen st;
                extras := extras st |}
  end.

(** A single-dash option without arguments whose token goes on: the rest
    is read as further single-dash options without arguments, one character
    each.  (The parser's only single-dash option is [-h], so an option that
    takes arguments cannot follow here.) *)
Fixpoint bundled (parser : list Action) (first : Action) (e : string)
  : result Action :=
  match e with
  | EmptyString => Return first
  | String c r =>
      match lookup_option parser (String (Json.chr 45) (String c EmptyString)) with
      | Some a =>
          match nargs a with
          | NargsZero => bundled parser first r
          | _ => Raise (SystemExit 2)
          end
      | None => Raise (SystemExit 2)
      end
  end.

(** The second pass: options are consumed with their arguments from left
    to right; a token that belongs to no option is left over. *)
Fixpoint consume (parser : list Action) (fuel : nat)
    (toks : list (string * Tok)) (st : ParseState) : result ParseState :=
  match fuel with
  | O => Return st
  | S fuel' =>
      match toks with
      | [] => Return st
      | (s, TokO None _) :: rest
      | (s, TokA) :: rest
      | (s, TokDash) :: rest =>
          consume parser fuel' rest
            {| namespace := namespace st; seen := seen st;
               extras := extras st ++ [s] |}
      | (s, TokO (Some a) (Some e)) :: rest =>
          match nargs a with
          | NargsZero =>
              if String.prefix "--" s then Raise (SystemExit 2)
              else if String.eqb e "" then Raise (SystemExit 2)
              else
                first ← bundled parser a e;
                st' ← take_action first [] st;
                consume parser fuel' rest st'
          | _ =>
              st' ← take_action a [e] st;
              consume parser fuel' rest st'
          end
      | (s, TokO (Some a) None) :: rest =>
          match match_argument (nargs a) rest with
          | None => Raise (SystemExit 2)
          | Some (args, rest') =>
              st' ← take_action a args st;
              consume parser fuel' rest' st'
          end
      end
  end.

(** The namespace before parsing: every destination at its default. *)
Definition initial_namespace (parser : list Action) : gmap string PyValue :=
  foldl (fun ns a =>
           match dest a, default a with
           | Some d, Some v => <[d := v]> ns
           | _, _ => ns
           end) ∅ parser.

Definition missing_required (parser : list Action) (seen : list string)
  : bool :=
  existsb (fun a => required a && negb (bool_decide (action_name a ∈ seen)))
          parser.

(** [parser.parse_args(argv)]. *)
Definition parse_args (parser : list Action) (argv : list string)
  : result (gmap string PyValue) :=
  toks ← classify parser false argv;
  st ← consume parser (length toks) toks
         {| namespace := initial_namespace parser; seen := []; extras := [] |};
  if missing_required parser (seen st) then Raise (SystemExit 2)
  else match extras st with
       | [] => Return (namespace st)
       | _ => Raise (SystemExit 2)
       end.

End Conversions.

End Argparse.

(** ** [get_args] *)

(** The float literal [0.01]: the binary64 number nearest to 1/100. *)
Definition float_0_01 : spec_float := S754_finite false 5764607523034235 (-59).

Section GetArgs.

Variable py_int : string -> option Z.
Variable py_float : string -> option spec_float.

Import Argparse.

(** The parser [get_args] builds.  The [help=] texts only appear in the
    usage message and are left out. *)
Definition parser : list Action :=
  let parser := ArgumentParser in
  (* Input Arguments. *)
  let parser := add_argument parser "--train-files" NargsPlus true TypeStr PyNone in
  let parser := add_argument parser "--eval-files" NargsPlus true TypeStr PyNone in
  let parser := add_argument parser "--job-dir" NargsOne true TypeStr PyNone in
  (* Train arguments. *)
  let parser := add_argument parser "--train-steps" NargsOne false TypeInt (PyInt 400) in
  let parser := add_argument parser "--eval-steps" NargsOne false TypeInt (PyInt 100) in
  let parser := add_argument parser "--num-epochs" NargsOne false TypeInt (PyInt 200) in
  let parser := add_argument parser "--learning-rate" NargsOne false TypeFloat (PyFloat float_0_01) in
  let parser := add_argument parser "--train-batch-size" NargsOne false TypeInt (PyInt 32) in
  let parser := add_argument parser "--eval-batch-size" NargsOne false TypeInt (PyInt 32) in
  parser.

(** [argv] is [sys.argv[1:]], which [parser.parse_args()] reads. *)
Definition get_args (argv : list string) : result (gmap string PyValue) :=
  parse_args py_int py_float parser argv.

End GetArgs.

(** ** Hyperparameters *)

Record HParams : Type := {
  train_files : list string;
  eval_files : list string;
  job_dir : string;
  train_steps : Z;
  eval_steps : Z;
  num_epochs : Z;
  learning_rate : spec_float;
  train_batch_size : Z;
  eval_batch_size : Z
}.

Definition as_str (v : PyValue) : option string :=
  match v with PyStr s => Some s | _ => None end.
Definition as_int (v : PyValue) : option Z :=
  match v with PyInt n => Some n | _ => None end.
Definition as_float (v : PyValue) : option spec_float :=
  match v with PyFloat f => Some f | _ => None end.
Definition as_str_list (v : PyValue) : option (list string) :=
  match v with PyList l => mapM as_str l | _ => None end.

(** The attributes of [hparam.HParams] built from the keyword arguments
    [args.__dict__], for a namespace of the shape [get_args] returns. *)
Definition hparams_of_args (args : gmap string PyValue) : option HParams :=
  tf ← args !! "train_files" ≫= as_str_list;
  ef ← args !! "eval_files" ≫= as_str_list;
  jd ← args !! "job_dir" ≫= as_str;
  ts ← args !! "train_steps" ≫= as_int;
  es ← args !! "eval_steps" ≫= as_int;
  ne ← args !! "num_epochs" ≫= as_int;
  lr ← args !! "learning_rate" ≫= as_float;
  tb ← args !! "train_batch_size" ≫= as_int;
  eb ← args !! "eval_batch_size" ≫= as_int;
  Some {| train_files := tf; eval_files := ef; job_dir := jd;
          train_steps := ts; eval_steps := es; num_epochs := ne;
          learning_rate := lr; train_batch_size := tb;
          eval_batch_size := eb |}.

(** ** Logging *)

Inductive Stream : Type := Stdout | Stderr.

(** The levels of the [logging] module. *)
Definition NOTSET : Z := 0.
Definition INFO : Z := 20.
Definition WARNING : Z := 30.

(** A handler is an object: two handlers are the same when they are the same
    object, whatever their stream and level. *)
Record Handler : Type := {
  handler_id : nat;
  handler_stream : Stream;
  handler_level : Z
}.

Record Logger : Type := {
  level : Z;
  handlers : list Handler;
  propagate : bool
}.

(** The process state the driver touches: the environment, the root logger,
    the logger named [tensorflow] (a child of the root logger), and the
    identity the next object will get. *)
Record Process : Type := {
  environ : gmap string string;
  root_logger : Logger;
  tf_logger : Logger;
  next_id : nat
}.

Definition same_handler (h h' : Handler) : bool :=
  Nat.eqb (handler_id h) (handler_id h').

(** [list.remove(h)]: the first occurrence goes. *)
Fixpoint remove_first (h : Handler) (l : list Handler) : list Handler :=
  match l with
  | [] => []
  | x :: r => if same_handler x h then r else x :: remove_first h r
  end.

(** [logger.removeHandler(h)]. *)
Definition removeHandler (h : Handler) (l : Logger) : Logger :=
  if existsb (same_handler h) (handlers l)
  then {| level := level l; handlers := remove_first h (handlers l);
          propagate := propagate l |}
  else l.

(** [logger.addHandler(h)]: a handler already attached is not attached
    again. *)
Definition addHandler (h : Handler) (l : Logger) : Logger :=
  if existsb (same_handler h) (handlers l)
  then l
  else {| level := level l; handlers := handlers l ++ [h];
          propagate := propagate l |}.

(** [logger.setLevel(lvl)]. *)
Definition setLevel (lvl : Z) (l : Logger) : Logger :=
  {| level := lvl; handlers := handlers l; propagate := propagate l |}.

(** [while tf_logger.handlers: tf_logger.removeHandler(tf_logger.handlers[0])];
    [fuel] bounds the number of iterations. *)
Fixpoint remove_handlers_loop (fuel : nat) (l : Logger) : Logger :=
  match fuel with
  | O => l
  | S fuel' =>
      match handlers l with
      | [] => l
      | h :: _ => remove_handlers_loop fuel' (removeHandler h l)
      end
  end.

(** The loop needs one iteration for each handler attached at its start. *)
Definition _setup_logging (p : Process) : Process :=
  let logger := setLevel INFO (root_logger p) in
  let tf_logger' :=
    remove_handlers_loop (length (handlers (tf_logger p))) (tf_logger p) in
  (* Redirect INFO logs to stdout *)
  let stdout_handler :=
    {| handler_id := next_id p; handler_stream := Stdout;
       handler_level := INFO |} in
  let logger := addHandler stdout_handler logger in
  (* Suppress C++ level warnings. *)
  {| environ := <["TF_CPP_MIN_LOG_LEVEL" := "3"]> (environ p);
     root_logger := logger;
     tf_logger := tf_logger';
     next_id := S (next_id p) |}.

Inductive LoggerName : Type := Root | Tensorflow.

(** The level a logger applies: its own, or its parent's when its own is
    not set. *)
Definition getEffectiveLevel (p : Process) (who : LoggerName) : Z :=
  match who with
  | Root => level (root_logger p)
  | Tensorflow =>
      if level (tf_logger p) =? NOTSET then level (root_logger p)
      else level (tf_logger p)
  end.

(** The handlers a record logged through [who] is offered to: the logger's
    own, then, if it propagates, its parent's. *)
Definition reachable_handlers (p : Process) (who : LoggerName) : list Handler :=
  match who with
  | Root => handlers (root_logger p)
  | Tensorflow =>
      handlers (tf_logger p) ++
      (if propagate (tf_logger p) then handlers (root_logger p) else [])
  end.

(** The handlers that emit a record of level [levelno] logged through
    [who]: those it is offered to whose own level lets it pass, when the
    logger lets it pass. *)
Definition emitting_handlers (p : Process) (who : LoggerName) (levelno : Z)
  : list Handler :=
  if getEffectiveLevel p who <=? levelno then
    filter (fun h => handler_level h ≤ levelno) (reachable_handlers p who)
  else [].

Definition terminator : string := String (Json.chr 10) EmptyString.

(** [logger.log(levelno, msg)]: the lines written, in order, each on the
    stream of the handler that wrote it.  A record that is offered to no
    handler at all goes to the library's handler of last resort, which
    writes it on standard error when its level is WARNING or above. *)
Definition log (p : Process) (who : LoggerName) (levelno : Z) (msg : string)
  : list (Stream * string) :=
  if getEffectiveLevel p who <=? levelno then
    match reachable_handlers p who with
    | [] =>
        if WARNING <=? levelno then [(Stderr, msg +:+ terminator)] else []
    | _ :: _ =>
        map (fun h => (handler_stream h, msg +:+ terminator))
            (emitting_handlers p who levelno)
    end
  else [].

(** ** [train_and_evaluate] *)

(** The keyword arguments of the framework's constructors, as records; the
    collaborators of the [model] module are recorded as the calls made to
    them.  The objects among the arguments (the exporters of an evaluation
    specification, the run configuration of an estimator) are the
    framework's own. *)
Record RunConfig : Type := {
  session_config : option ConfigProto;
  save_checkpoints_steps : Z;
  save_summary_steps : Z;
  model_dir : string
}.

(** [model.input_fn(filename=.., batch_size=.., shuffle=..)]. *)
Record InputFnCall : Type := {
  filename : list string;
  batch_size : Z;
  shuffle : bool
}.

Inductive Collaborator : Type := model_serving_input_receiver_fn.

(** [tf.estimator.FinalExporter(name, serving_input_receiver_fn)]. *)
Record FinalExporter : Type := {
  exporter_name : string;
  serving_input_receiver_fn : Collaborator
}.

(** [tf.estimator.TrainSpec(input_fn, max_steps=..)]. *)
Record TrainSpec : Type := {
  train_input_fn : unit -> InputFnCall;
  max_steps : Z
}.

(** [tf.estimator.EvalSpec(input_fn, steps=.., exporters=.., name=..)]. *)
Record EvalSpec (Exporter : Type) : Type := {
  eval_input_fn : unit -> InputFnCall;
  steps : Z;
  exporters : list Exporter;
  eval_name : string
}.

Arguments eval_input_fn {Exporter}.
Arguments steps {Exporter}.
Arguments exporters {Exporter}.
Arguments eval_name {Exporter}.

(** [model.build_estimator(config=.., learning_rate=.., hidden_units=..,
    num_classes=..)]. *)
Record Estimator (Config : Type) : Type := {
  config : Config;
  estimator_learning_rate : spec_float;
  hidden_units : list Z;
  num_classes : Z
}.

Arguments config {Config}.
Arguments estimator_learning_rate {Config}.
Arguments hidden_units {Config}.
Arguments num_classes {Config}.

(** The framework and the [model] module as the driver uses them.  Every
    call may raise: a constructor checks its arguments, and training may
    fail.  What a constructor returns is an object of the framework's; the
    driver passes it on and reads nothing of it but the [model_dir]
    attribute of the run configuration.  [tf.estimator.RunConfig] reads
    [TF_CONFIG] from the environment by itself, so it is given the
    variable's text, when set, besides its arguments. *)
Record Framework : Type := {
  RunConfigObject : Type;
  TrainSpecObject : Type;
  ExporterObject : Type;
  EvalSpecObject : Type;
  EstimatorObject : Type;
  tf_estimator_RunConfig : option string -> RunConfig -> result RunConfigObject;
  RunConfig_model_dir : RunConfigObject -> string;
  tf_estimator_TrainSpec : TrainSpec -> result TrainSpecObject;
  tf_estimator_FinalExporter : FinalExporter -> result ExporterObject;
  tf_estimator_EvalSpec : EvalSpec ExporterObject -> result EvalSpecObject;
  model_build_estimator : Estimator RunConfigObject -> result EstimatorObject;
  tf_estimator_train_and_evaluate :
    EstimatorObject -> TrainSpecObject -> EvalSpecObject -> result unit
}.

(** What a run of the driver leaves: the lines its own [print] wrote, and
    how it ended. *)
Record Outcome : Type := {
  printed : list string;
  ended : result unit
}.

Section TrainAndEvaluate.

Variable json_loads : string -> result PyValue.
Variable F : Framework.

Definition train_and_evaluate (env : gmap string string) (hparams : HParams)
  : Outcome :=
  let specs :=
    (* Running configuration. *)
    sc ← _get_session_config_from_env_var json_loads env;
    run_config ← tf_estimator_RunConfig F (env !! "TF_CONFIG")
      {| session_config := sc;
         save_checkpoints_steps := 100;
         save_summary_steps := 100;
         model_dir := job_dir hparams |};
    (* Create TrainSpec. *)
    let train_input_fn := fun _ : unit =>
      {| filename := train_files hparams;
         batch_size := train_batch_size hparams;
         shuffle := true |} in
    train_spec ← tf_estimator_TrainSpec F
      {| train_input_fn := train_input_fn; max_steps := train_steps hparams |};
    (* Define evaluating spec. Don't shuffle evaluation data. *)
    exporter ← tf_estimator_FinalExporter F
      {| exporter_name := "exporter";
         serving_input_receiver_fn := model_serving_input_receiver_fn |};
    (* Create EvalSpec. *)
    let eval_input_fn := fun _ : unit =>
      {| filename := eval_files hparams;
         batch_size := eval_batch_size hparams;
         shuffle := false |} in
    eval_spec ← tf_estimator_EvalSpec F
      {| eval_input_fn := eval_input_fn;
         steps := eval_steps hparams;
         exporters := [exporter];
         eval_name := "iris-eval" |};
    Return (run_config, train_spec, eval_spec) in
  match specs with
  | Raise e => {| printed := []; ended := Raise e |}
  | Return (run_config, train_spec, eval_spec) =>
      {| printed := ["Model dir: " +:+ RunConfig_model_dir F run_config];
         ended :=
           (* Create the Estimator. *)
           estimator ← model_build_estimator F
             {| config := run_config;
                estimator_learning_rate := learning_rate hparams;
                hidden_units := [10; 20; 10];
                num_classes := 3 |};
           (* Train and evaluate the model. *)
           tf_estimator_train_and_evaluate F estimator train_spec eval_spec |}
  end.

End TrainAndEvaluate.

(** ** Reference conversions

    [Builtins.int] and [Builtins.float] read the plain decimal forms that
    Python's [int(s)] and [float(s)] accept (white space around the number
    is ignored).  The theorems below hold for any conversions; these are
    used to run the parser on concrete command lines. *)
Module Builtins.

Fixpoint rstrip_ws (s : list ascii) : list ascii :=
  match s with
  | [] => []
  | c :: r =>
      match rstrip_ws r with
      | [] => if Json.is_ws c then [] else [c]
      | r' => c :: r'
      end
  end.

Definition strip (s : string) : list ascii :=
  rstrip_ws (Json.skip_ws (list_ascii_of_string s)).

Definition sign_of (s : list ascii) : bool * list ascii :=
  match s with
  | c :: r =>
      if Json.ord c =? 45 then (true, r)
      else if Json.ord c =? 43 then (false, r) else (false, s)
  | [] => (false, s)
  end.

Definition int (s : string) : option Z :=
  let '(neg, body) := sign_of (strip s) in
  match Json.read_digits 0 0 body with
  | (v, n, []) => if 0 <? n then Some (if neg then - v else v) else None
  | _ => None
  end.

Definition float (s : string) : option spec_float :=
  let '(neg, body) := sign_of (strip s) in
  let '(ip, ic, s1) := Json.read_digits 0 0 body in
  let '(fv, fc, s2) :=
    match s1 with
    | c :: r => if Json.ord c =? 46 then Json.read_digits 0 0 r else (0, 0, s1)
    | [] => (0, 0, s1)
    end in
  if (ic + fc =? 0) then None
  else
    let value (e : Z) :=
      Some (Json.float_of_decimal neg (ip * 10 ^ fc + fv) (e - fc)) in
    match s2 with
    | [] => value 0
    | c :: r =>
        if (Json.ord c =? 101) || (Json.ord c =? 69) then
          let '(eneg, r1) := sign_of r in
          match Json.read_digits 0 0 r1 with
          | (ev, n, []) =>
              if 0 <? n then value (if eneg then - ev else ev) else None
          | _ => None
          end
        else None
    end.

End Builtins.

(** ** A framework for the examples

    [Tf.framework] stands for the library where a theorem is run on a
    concrete input; the theorems hold for any framework.  Its objects are
    the arguments they were built with.  It applies these checks of the
    library: a run configuration needs a model directory that is not empty
    and a [TF_CONFIG] that agrees with a run on one machine (no cluster, and
    the task, if any, is worker 0) or names a task of its cluster (one
    master; the task a master, parameter server or worker of the cluster);
    a training or evaluation specification needs a positive number of steps.
    What the library refuses it refuses with [ValueError].  Any other
    [TF_CONFIG] it refuses as well, which the library need not do: the
    examples keep to the configurations above.  Training itself succeeds. *)
Module Tf.

Definition local_task (t : gmap string PyValue) : bool :=
  match t !! "type" with
  | None => true
  | Some ty => py_eq_str ty "worker"
  end
  && match t !! "index" with
     | None | Some (PyInt 0) => true
     | Some _ => false
     end.

Definition cluster_task (c t : gmap string PyValue) : bool :=
  match c !! "master", t !! "type", t !! "index" with
  | Some (PyList [_]), Some (PyStr ty), Some (PyInt i) =>
      (String.eqb ty "master" || String.eqb ty "ps" || String.eqb ty "worker")
      && match c !! ty with
         | Some (PyList l) => (0 <=? i) && (i <? Z.of_nat (length l))
         | _ => false
         end
  | _, _, _ => false
  end.

Definition task_accepted (tf_config : PyValue) : bool :=
  match tf_config with
  | PyDict d =>
      match d !! "model_dir", d !! "task", d !! "cluster" with
      | None, None, None => true
      | None, Some (PyDict t), None => local_task t
      | None, Some (PyDict t), Some (PyDict c) => cluster_task c t
      | _, _, _ => false
      end
  | _ => false
  end.

Definition new_RunConfig (tf_config : option string) (args : RunConfig)
  : result RunConfig :=
  spec ← Json.loads (default "{}" tf_config);
  if String.eqb (model_dir args) "" then Raise ValueError
  else if (save_checkpoints_steps args <? 0) || (save_summary_steps args <? 0)
  then Raise ValueError
  else if task_accepted spec then Return args
  else Raise ValueError.

Definition new_TrainSpec (args : TrainSpec) : result TrainSpec :=
  if 0 <? max_steps args then Return args else Raise ValueError.

Definition new_EvalSpec (args : EvalSpec FinalExporter)
  : result (EvalSpec FinalExporter) :=
  if 0 <? steps args then Return args else Raise ValueError.

Definition framework : Framework :=
  {| RunConfigObject := RunConfig;
     TrainSpecObject := TrainSpec;
     ExporterObject := FinalExporter;
     EvalSpecObject := EvalSpec FinalExporter;
     EstimatorObject := Estimator RunConfig;
     tf_estimator_RunConfig := new_RunConfig;
     RunConfig_model_dir := model_dir;
     tf_estimator_TrainSpec := new_TrainSpec;
     tf_estimator_FinalExporter := Return;
     tf_estimator_EvalSpec := new_EvalSpec;
     model_build_estimator := Return;
     tf_estimator_train_and_evaluate := λ _ _ _, Return tt |}.

End Tf.


(** ** The program *)

Section Main.

Variable py_int : string -> option Z.
Variable py_float : string -> option spec_float.
Variable json_loads : string -> result PyValue.

(** The framework's constructor [hparam.HParams], applied to the keyword
    arguments [args.__dict__]. *)
Variable new_HParams : gmap string PyValue -> result HParams.

Variable F : Framework.

(** The block run when the module is the program: the outcome and the
    process state it leaves, for the command line [argv] ([sys.argv[1:]])
    and the process state [p] at start. *)
Definition main (argv : list string) (p : Process) : Process * Outcome :=
  match get_args py_int py_float argv with
  | Raise e => (p, {| printed := []; ended := Raise e |})
  | Return args =>
      let p := _setup_logging p in
      match new_HParams args with
      | Raise e => (p, {| printed := []; ended := Raise e |})
      | Return hparams =>
          (p, train_and_evaluate json_loads F (environ p) hparams)
      end
  end.

End Main.

(** ** Vocabulary of the statements *)

(** A decoded cluster specification that is empty, has no [task] field, or
    whose [task] object has no [type] or no [index] field. *)
Inductive lacks_task_info : PyValue -> Prop :=
| lacks_all : lacks_task_info (PyDict ∅)
| lacks_task (d : gmap string PyValue) :
    d !! "task" = None -> lacks_task_info (PyDict d)
| lacks_type (d t : gmap string PyValue) :
    d !! "task" = Some (PyDict t) -> t !! "type" = None ->
    lacks_task_info (PyDict d)
| lacks_index (d t : gmap string PyValue) :
    d !! "task" = Some (PyDict t) -> t !! "index" = None ->
    lacks_task_info (PyDict d).

(** A decoded cluster specification whose [task] object has the fields
    [type] and [index], with these values. *)
Definition has_task (spec : PyValue) (ty index : PyValue) : Prop :=
  ∃ d t : gmap string PyValue,
    spec = PyDict d ∧ d !! "task" = Some (PyDict t) ∧
    t !! "type" = Some ty ∧ t !! "index" = Some index.

(** The derivation [r] returned a policy whose filters, as a set, are the
    strings of [fs]. *)
Definition derives_filter_set (r : result (option ConfigProto))
    (fs : list string) : Prop :=
  ∃ cfg, r = Return (Some cfg) ∧ ∀ f, f ∈ device_filters cfg ↔ f ∈ fs.

(** The environment in which [TF_CONFIG] holds [text] (written with ['] for
    the double quote) and nothing else is set. *)
Definition tf_config_env (text : string) : gmap string string :=
  {[ "TF_CONFIG" := dq text ]}.

(** A process at start-up, before the driver runs: the root logger has its
    default level and no handler, and the framework has attached a handler
    writing to standard error to its own logger. *)
Definition startup_process : Process :=
  {| environ := ∅;
     root_logger := {| level := WARNING; handlers := []; propagate := true |};
     tf_logger :=
       {| level := NOTSET;
          handlers := [{| handler_id := 0; handler_stream := Stderr;
                          handler_level := NOTSET |}];
          propagate := true |};
     next_id := 1 |}.

(** Every handler of the root logger was created before the next object. *)
Definition handlers_allocated (p : Process) : Prop :=
  Forall (λ h, (handler_id h < next_id p)%nat) (handlers (root_logger p)).

(** The hyperparameters of the command line
    [--train-files a.csv --eval-files b.csv --job-dir /tmp/out]. *)
Definition sample_hparams : HParams :=
  {| train_files := ["a.csv"]; eval_files := ["b.csv"]; job_dir := "/tmp/out";
     train_steps := 400; eval_steps := 100; num_epochs := 200;
     learning_rate := float_0_01; train_batch_size := 32;
     eval_batch_size := 32 |}.

(** A command-line value that cannot be taken for an option: it does not
    begin with a dash. *)
Definition plain (s : string) : Prop := String.prefix "-" s = false.

(** The command line that supplies each option string of [groups] followed
    by its values, in this order. *)
Definition command_line (groups : list (string * list string)) : list string :=
  flat_map (λ g, g.1 :: g.2) groups.

(** The namespace in which the three required destinations hold the given
    values and every other destination its default. *)
Definition default_namespace (tf ef : list string) (jd : string)
  : gmap string PyValue :=
  {[ "train_files" := PyList (map PyStr tf);
     "eval_files" := PyList (map PyStr ef);
     "job_dir" := PyStr jd;
     "train_steps" := PyInt 400;
     "eval_steps" := PyInt 100;
     "num_epochs" := PyInt 200;
     "learning_rate" := PyFloat float_0_01;
     "train_batch_size" := PyInt 32;
     "eval_batch_size" := PyInt 32 ]}.

(** The parser of [get_args] reads the token [tok] as the option whose first
    option string is [name]: [tok] is one of the option's strings or an
    unambiguous abbreviation of one, possibly followed by [=] and a value. *)
Definition reads_as (tok name : string) : bool :=
  match Argparse.parse_optional parser tok with
  | Return (Argparse.TokO (Some a) _) => String.eqb (Argparse.action_name a) name
  | _ => false
  end.

(** The tokens of an option and its values as the first pass reads them. *)
Definition group_tokens (g : Argparse.Action * list string)
  : list (string * Argparse.Tok) :=
  (Argparse.action_name g.1, Argparse.TokO (Some g.1) None)
  :: map (λ v, (v, Argparse.TokA)) g.2.

(** The state after a store action of a string option took [g.2]. *)
Definition store_group (st : Argparse.ParseState)
    (g : Argparse.Action * list string) : Argparse.ParseState :=
  {| Argparse.namespace :=
       match Argparse.dest g.1 with
       | Some d =>
           <[d := match Argparse.nargs g.1, g.2 with
                  | Argparse.NargsOne, [v] => PyStr v
                  | _, _ => PyList (map PyStr g.2)
                  end]> (Argparse.namespace st)
       | None => Argparse.namespace st
       end;
     Argparse.seen := Argparse.action_name g.1 :: Argparse.seen st;
     Argparse.extras := Argparse.extras st |}.

(** A command-line group the store action of a string option accepts: one
    plain value for an option taking one argument, one or more for an option
    taking several. *)
Definition group_ok (g : Argparse.Action * list string) : Prop :=
  Argparse.kind g.1 = Argparse.Store
  ∧ Argparse.type g.1 = Argparse.TypeStr
  ∧ Forall plain g.2
  ∧ ((Argparse.nargs g.1 = Argparse.NargsOne ∧ ∃ v, g.2 = [v])
     ∨ (Argparse.nargs g.1 = Argparse.NargsPlus ∧ g.2 ≠ [])).

(** The store action of a required string option, as [add_argument] builds
    it. *)
Definition required_option (flag dest : string) (n : Argparse.Nargs)
  : Argparse.Action :=
  {| Argparse.option_strings := [flag]; Argparse.dest := Some dest;
     Argparse.nargs := n; Argparse.required := true;
     Argparse.type := Argparse.TypeStr; Argparse.default := Some PyNone;
     Argparse.kind := Argparse.Store |}.

(** What the first pass guarantees of a token it read as an option. *)
Definition read_by (p : list Argparse.Action) (t : string * Argparse.Tok)
  : Prop :=
  match t.2 with
  | Argparse.TokO (Some a) e =>
      Argparse.parse_optional p t.1 = Return (Argparse.TokO (Some a) e)
  | _ => True
  end.

(** The token was not read as the option [name]. *)
Definition not_option (name : string) (t : string * Argparse.Tok) : Prop :=
  match t.2 with
  | Argparse.TokO (Some a) _ => Argparse.action_name a ≠ name
  | _ => True
  end.

(** The token, if read as an option, selects a store action that takes
    arguments. *)
Definition stores (t : string * Argparse.Tok) : Prop :=
  match t.2 with
  | Argparse.TokO (Some a) _ =>
      Argparse.kind a = Argparse.Store
      ∧ Argparse.nargs a ≠ Argparse.NargsZero
  | _ => True
  end.

(** The hyperparameters of a namespace of the shape [get_args] returns, as
    a constructor that fails on any other namespace. *)
Definition hparams_or_error (args : gmap string PyValue) : result HParams :=
  match hparams_of_args args with
  | Some hparams => Return hparams
  | None => Raise ValueError
  end.

(** The destinations of the parser of [get_args]. *)
Definition destinations : list string :=
  ["train_files"; "eval_files"; "job_dir"; "train_steps"; "eval_steps";
   "num_epochs"; "learning_rate"; "train_batch_size"; "eval_batch_size"].

(** The optional flags of [get_args], each with its destination and the
    type of its value. *)
Definition optional_flags : list (string * string * Argparse.ArgType) :=
  [("--train-steps", "train_steps", Argparse.TypeInt);
   ("--eval-steps", "eval_steps", Argparse.TypeInt);
   ("--num-epochs", "num_epochs", Argparse.TypeInt);
   ("--learning-rate", "learning_rate", Argparse.TypeFloat);
   ("--train-batch-size", "train_batch_size", Argparse.TypeInt);
   ("--eval-batch-size", "eval_batch_size", Argparse.TypeInt)].

(** The store action of an optional flag taking one value. *)
Definition optional_option (flag dest : string) (ty : Argparse.ArgType)
    (dflt : PyValue) : Argparse.Action :=
  {| Argparse.option_strings := [flag]; Argparse.dest := Some dest;
     Argparse.nargs := Argparse.NargsOne; Argparse.required := false;
     Argparse.type := ty; Argparse.default := Some dflt;
     Argparse.kind := Argparse.Store |}.

(** The parser of [get_args] reads the token [v] as a value. *)
Definition value_token (v : string) : Prop :=
  v ≠ "--" ∧ Argparse.parse_optional parser v = Return Argparse.TokA.

(** The parser of [get_args] cannot tell which option the token [tok]
    abbreviates. *)
Definition ambiguous (tok : string) : bool :=
  match Argparse.parse_optional parser tok with
  | Raise _ => true
  | Return _ => false
  end.

(** The parser of [get_args] reads the token [tok] as an option it does not
    know. *)
Definition unknown_option (tok : string) : bool :=
  match Argparse.parse_optional parser tok with
  | Return (Argparse.TokO None _) => true
  | _ => false
  end.

(** A group made of a store action of the parser and of values in the
    number the action takes, each read as a value. *)
Definition exact_group (g : Argparse.Action * list string) : Prop :=
  In g.1 parser
  ∧ Argparse.kind g.1 = Argparse.Store
  ∧ Forall value_token g.2
  ∧ ((Argparse.nargs g.1 = Argparse.NargsOne ∧ ∃ v, g.2 = [v])
     ∨ (Argparse.nargs g.1 = Argparse.NargsPlus ∧ g.2 ≠ [])).

(** The tokens of an option and its values. *)
Definition group_strings (g : Argparse.Action * list string) : list string :=
  Argparse.action_name g.1 :: g.2.

(** The actions of the groups [G] taken one after the other, from the state
    [st], up to the first that fails. *)
Fixpoint take_groups (py_int : string -> option Z)
    (py_float : string -> option spec_float)
    (G : list (Argparse.Action * list string)) (st : Argparse.ParseState)
  : result Argparse.ParseState :=
  match G with
  | [] => Return st
  | g :: G' =>
      st' ← Argparse.take_action py_int py_float g.1 g.2 st;
      take_groups py_int py_float G' st'
  end.

(** The state in which the second pass starts. *)
Definition initial_state : Argparse.ParseState :=
  {| Argparse.namespace := Argparse.initial_namespace parser;
     Argparse.seen := []; Argparse.extras := [] |}.

(** [n] invocations of the logging setup in succession. *)
Definition setup_logging_times (n : nat) (p : Process) : Process :=
  Nat.iter n _setup_logging p.

(** The policy for a [task] that has the fields [type] and [index], by
    role: the value the derivation returns once its condition holds. *)
Definition role_policy (ty index : PyValue) : result (option ConfigProto) :=
  if py_eq_str ty "master" then
    Return (Some {| device_filters := ["/job:ps"; "/job:master"] |})
  else if py_eq_str ty "worker" then
    s ← format_d index;
    Return (Some {| device_filters := ["/job:ps"; "/job:worker/task:" +:+ s] |})
  else Return None.

(** The orchestration is stopped by the error [e] before its [print]: the
    device-filter derivation raises it, or the framework does when asked for
    the run configuration, the training specification, the exporter or the
    evaluation specification, what comes before having returned. *)
Inductive stopped_early (json_loads : string -> result PyValue)
    (F : Framework) (env : gmap string string) (hparams : HParams)
    (e : PyExn) : Prop :=
| stopped_by_derivation :
    _get_session_config_from_env_var json_loads env = Raise e ->
    stopped_early json_loads F env hparams e
| stopped_by_RunConfig (sc : option ConfigProto) :
    _get_session_config_from_env_var json_loads env = Return sc ->
    tf_estimator_RunConfig F (env !! "TF_CONFIG")
      {| session_config := sc; save_checkpoints_steps := 100;
         save_summary_steps := 100; model_dir := job_dir hparams |} =
      Raise e ->
    stopped_early json_loads F env hparams e
| stopped_by_TrainSpec (sc : option ConfigProto)
    (run_config : RunConfigObject F) :
    _get_session_config_from_env_var json_loads env = Return sc ->
    tf_estimator_RunConfig F (env !! "TF_CONFIG")
      {| session_config := sc; save_checkpoints_steps := 100;
         save_summary_steps := 100; model_dir := job_dir hparams |} =
      Return run_config ->
    tf_estimator_TrainSpec F
      {| train_input_fn := λ _,
           {| filename := train_files hparams;
              batch_size := train_batch_size hparams; shuffle := true |};
         max_steps := train_steps hparams |} = Raise e ->
    stopped_early json_loads F env hparams e
| stopped_by_FinalExporter (sc : option ConfigProto)
    (run_config : RunConfigObject F) (train_spec : TrainSpecObject F) :
    _get_session_config_from_env_var json_loads env = Return sc ->
    tf_estimator_RunConfig F (env !! "TF_CONFIG")
      {| session_config := sc; save_checkpoints_steps := 100;
         save_summary_steps := 100; model_dir := job_dir hparams |} =
      Return run_config ->
    tf_estimator_TrainSpec F
      {| train_input_fn := λ _,
           {| filename := train_files hparams;
              batch_size := train_batch_size hparams; shuffle := true |};
         max_steps := train_steps hparams |} = Return train_spec ->
    tf_estimator_FinalExporter F
      {| exporter_name := "exporter";
         serving_input_receiver_fn := model_serving_input_receiver_fn |} =
      Raise e ->
    stopped_early json_loads F env hparams e
| stopped_by_EvalSpec (sc : option ConfigProto)
    (run_config : RunConfigObject F) (train_spec : TrainSpecObject F)
    (exporter : ExporterObject F) :
    _get_session_config_from_env_var json_loads env = Return sc ->
    tf_estimator_RunConfig F (env !! "TF_CONFIG")
      {| session_config := sc; save_checkpoints_steps := 100;
         save_summary_steps := 100; model_dir := job_dir hparams |} =
      Return run_config ->
    tf_estimator_TrainSpec F
      {| train_input_fn := λ _,
           {| filename := train_files hparams;
              batch_size := train_batch_size hparams; shuffle := true |};
         max_steps := train_steps hparams |} = Return train_spec ->
    tf_estimator_FinalExporter F
      {| exporter_name := "exporter";
         serving_input_receiver_fn := model_serving_input_receiver_fn |} =
      Return exporter ->
    tf_estimator_EvalSpec F
      {| eval_input_fn := λ _,
           {| filename := eval_files hparams;
              batch_size := eval_batch_size hparams; shuffle := false |};
         steps := eval_steps hparams;
         exporters := [exporter];
         eval_name := "iris-eval" |} = Raise e ->
    stopped_early json_loads F env hparams e.

(** * Theorems *)

(** ** The device-filter derivation *)

Section SessionConfigFacts.

Variable json_loads : string -> result PyValue.

Lemma size_lookup_Some (d : gmap string PyValue) k v :
  d !! k = Some v -> Nat.eqb (size d) 0 = false.
Proof.
  intros H. apply Nat.eqb_neq. intros Hs.
  apply map_size_empty_iff in Hs. subst d. by rewrite lookup_empty in H.
Qed.

Lemma py_eq_str_false v s : v ≠ PyStr s -> py_eq_str v s = false.
Proof.
  intros H. destruct v; simpl; try reflexivity.
  apply String.eqb_neq. congruence.
Qed.

(** What the derivation does once the specification is decoded and has a
    [task] object with a [type] and an [index]. *)
Lemma session_config_of_task env spec ty index :
  json_loads (default "{}" (env !! "TF_CONFIG")) = Return spec ->
  has_task spec ty index ->
  _get_session_config_from_env_var json_loads env =
    if py_eq_str ty "master" then
      Return (Some {| device_filters := ["/job:ps"; "/job:master"] |})
    else if py_eq_str ty "worker" then
      s ← format_d index;
      Return (Some {| device_filters :=
                        ["/job:ps"; "/job:worker/task:" +:+ s] |})
    else Return None.
Proof.
  intros Hload (d & t & -> & Htask & Hty & Hix).
  unfold _get_session_config_from_env_var. rewrite Hload.
  cbn. rewrite (size_lookup_Some _ _ _ Htask). cbn.
  rewrite Htask. cbn. rewrite Hty, Hix. cbn.
  reflexivity.
Qed.

End SessionConfigFacts.

Lemma to_int_not_nil (n : Z) :
  Z.to_int n ≠ Decimal.Pos Decimal.Nil ∧ Z.to_int n ≠ Decimal.Neg Decimal.Nil.
Proof.
  destruct n as [|p|p]; simpl; split; try discriminate;
    intros [= H]; by apply DecimalPos.Unsigned.to_uint_nonnil in H.
Qed.

(** Two integers with the same decimal text are equal. *)
Lemma str_of_int_inj (i j : Z) : str_of_int i = str_of_int j -> i = j.
Proof.
  unfold str_of_int. intros H.
  apply DecimalZ.to_int_inj.
  destruct (to_int_not_nil i) as [Hi1 Hi2], (to_int_not_nil j) as [Hj1 Hj2].
  pose proof (NilZero.isi _ Hi1 Hi2) as Ei.
  pose proof (NilZero.isi _ Hj1 Hj2) as Ej.
  rewrite H in Ei. congruence.
Qed.

Example str_of_int_3 : str_of_int 3 = "3".
Proof. reflexivity. Qed.

Example str_of_int_neg : str_of_int (-12) = "-12".
Proof. reflexivity. Qed.

(** C1 (as amended): for every cluster specification whose [task] has type
    ["master"], whatever its index, the derivation returns a policy with
    exactly the two filter strings ["/job:ps"] and ["/job:master"], each
    with its leading slash. *)
Theorem master_device_filters
    (json_loads : string -> result PyValue) (env : gmap string string)
    (spec index : PyValue) :
  json_loads (default "{}" (env !! "TF_CONFIG")) = Return spec ->
  has_task spec (PyStr "master") index ->
  _get_session_config_from_env_var json_loads env =
    Return (Some {| device_filters := ["/job:ps"; "/job:master"] |}).
Proof.
  intros Hload Htask.
  by rewrite (session_config_of_task _ _ _ _ _ Hload Htask).
Qed.

Lemma master_device_filters_witness :
  _get_session_config_from_env_var Json.loads
    (tf_config_env "{'task': {'type': 'master', 'index': 7}}") =
  Return (Some {| device_filters := ["/job:ps"; "/job:master"] |}).
Proof.
  apply (master_device_filters Json.loads _
           (PyDict {[ "task" :=
              PyDict {[ "type" := PyStr "master"; "index" := PyInt 7 ]} ]})
           (PyInt 7)).
  - vm_compute. reflexivity.
  - eexists _, _. repeat split; reflexivity.
Defined.

(** Refutes the membership [H] of a string in a list of other strings. *)
Ltac not_among H :=
  apply list_elem_of_In in H; simpl in H;
  repeat (destruct H as [H | H]; [discriminate H |]); exact H.

(** C1 as stated fails: for the specification
    [{"task": {"type": "master", "index": 0}}] the derived filter set is not
    the set of the two strings ["job:ps"] and ["job:master"]. *)
Lemma master_device_filters_unslashed :
  ¬ derives_filter_set
      (_get_session_config_from_env_var Json.loads
         (tf_config_env "{'task': {'type': 'master', 'index': 0}}"))
      ["job:ps"; "job:master"].
Proof.
  intros (cfg & Hcfg & Hset).
  assert (Hrun : _get_session_config_from_env_var Json.loads
            (tf_config_env "{'task': {'type': 'master', 'index': 0}}") =
          Return (Some {| device_filters := ["/job:ps"; "/job:master"] |}))
    by (vm_compute; reflexivity).
  rewrite Hrun in Hcfg. injection Hcfg as <-.
  assert (Hin : "job:ps" ∈ ["/job:ps"; "/job:master"])
    by (apply (Hset "job:ps"); left).
  not_among Hin.
Qed.

(** C2 (as amended): for every cluster specification whose [task] has type
    ["worker"] and an integer index [i], the derivation returns a policy with
    exactly the two filter strings ["/job:ps"] and ["/job:worker/task:<i>"],
    each with its leading slash, where [<i>] is the decimal text of [i];
    another index changes that text and nothing else. *)
Theorem worker_device_filters
    (json_loads : string -> result PyValue) (env : gmap string string)
    (spec : PyValue) (i : Z) :
  json_loads (default "{}" (env !! "TF_CONFIG")) = Return spec ->
  has_task spec (PyStr "worker") (PyInt i) ->
  _get_session_config_from_env_var json_loads env =
    Return (Some {| device_filters :=
                      ["/job:ps"; "/job:worker/task:" +:+ str_of_int i] |})
  ∧ ∀ j, str_of_int j = str_of_int i -> j = i.
Proof.
  intros Hload Htask. split.
  - by rewrite (session_config_of_task _ _ _ _ _ Hload Htask).
  - intros j. apply str_of_int_inj.
Qed.

Lemma worker_device_filters_witness :
  _get_session_config_from_env_var Json.loads
    (tf_config_env "{'task': {'type': 'worker', 'index': 3}}") =
    Return (Some {| device_filters := ["/job:ps"; "/job:worker/task:3"] |})
  ∧ ∀ j, str_of_int j = "3" -> j = 3.
Proof.
  apply (worker_device_filters Json.loads
           (tf_config_env "{'task': {'type': 'worker', 'index': 3}}")
           (PyDict {[ "task" :=
              PyDict {[ "type" := PyStr "worker"; "index" := PyInt 3 ]} ]})
           3).
  - vm_compute. reflexivity.
  - eexists _, _. repeat split; reflexivity.
Defined.

Example worker_index_7 :
  _get_session_config_from_env_var Json.loads
    (tf_config_env "{'task': {'type': 'worker', 'index': 7}}") =
    Return (Some {| device_filters := ["/job:ps"; "/job:worker/task:7"] |}).
Proof. vm_compute. reflexivity. Qed.

(** C2 as stated fails: for the specification
    [{"task": {"type": "worker", "index": 3}}] the derived filter set is not
    the set of the two strings ["job:ps"] and ["job:worker/task:3"]. *)
Lemma worker_device_filters_unslashed :
  ¬ derives_filter_set
      (_get_session_config_from_env_var Json.loads
         (tf_config_env "{'task': {'type': 'worker', 'index': 3}}"))
      ["job:ps"; "job:worker/task:3"].
Proof.
  intros (cfg & Hcfg & Hset).
  assert (Hrun : _get_session_config_from_env_var Json.loads
            (tf_config_env "{'task': {'type': 'worker', 'index': 3}}") =
          Return (Some {| device_filters :=
                            ["/job:ps"; "/job:worker/task:3"] |}))
    by (vm_compute; reflexivity).
  rewrite Hrun in Hcfg. injection Hcfg as <-.
  assert (Hin : "job:ps" ∈ ["/job:ps"; "/job:worker/task:3"])
    by (apply (Hset "job:ps"); left).
  not_among Hin.
Qed.

(** X1: a value Python takes for false yields no restriction: the rest of
    the condition is not evaluated. *)
Lemma falsy_config_unrestricted
    (json_loads : string -> result PyValue) (env : gmap string string)
    (spec : PyValue) :
  json_loads (default "{}" (env !! "TF_CONFIG")) = Return spec ->
  truthy spec = false ->
  _get_session_config_from_env_var json_loads env = Return None.
Proof.
  intros Hload Hf. unfold _get_session_config_from_env_var.
  rewrite Hload. cbn. rewrite Hf. reflexivity.
Qed.

(** A [task] that is null, a boolean or a number is no container: the test
    ['type' in task] raises [TypeError]. *)
Lemma scalar_task_raises
    (json_loads : string -> result PyValue) (env : gmap string string)
    (d : gmap string PyValue) (task : PyValue) :
  json_loads (default "{}" (env !! "TF_CONFIG")) = Return (PyDict d) ->
  d !! "task" = Some task ->
  match task with
  | PyNone | PyBool _ | PyInt _ | PyFloat _ => True
  | _ => False
  end ->
  _get_session_config_from_env_var json_loads env = Raise TypeError.
Proof.
  intros Hload Hd Htask. unfold _get_session_config_from_env_var.
  rewrite Hload. cbn. rewrite (size_lookup_Some _ _ _ Hd). cbn.
  rewrite Hd. cbn. by destruct task.
Qed.

Section SessionConfigCases.

Variable json_loads : string -> result PyValue.

(** The derivation, case by case on the decoded specification. *)
Lemma session_config_cases env spec :
  json_loads (default "{}" (env !! "TF_CONFIG")) = Return spec ->
  _get_session_config_from_env_var json_loads env =
    if negb (truthy spec) then Return None else
    match spec with
    | PyDict d =>
        match d !! "task" with
        | None => Return None
        | Some (PyDict t) =>
            match t !! "type", t !! "index" with
            | Some ty, Some index => role_policy ty index
            | _, _ => Return None
            end
        | Some (PyList l) =>
            if existsb (λ v, py_eq_str v "type") l
               && existsb (λ v, py_eq_str v "index") l
            then Raise TypeError else Return None
        | Some (PyStr s) =>
            if str_contains "type" s && str_contains "index" s
            then Raise TypeError else Return None
        | Some _ => Raise TypeError
        end
    | PyList l =>
        if existsb (λ v, py_eq_str v "task") l
        then Raise TypeError else Return None
    | PyStr s =>
        if str_contains "task" s then Raise TypeError else Return None
    | _ => Raise TypeError
    end.
Proof.
  intros Hload. unfold _get_session_config_from_env_var. rewrite Hload. cbn.
  destruct (truthy spec) eqn:Htruthy; [| reflexivity]. cbn.
  destruct spec as [| b | n | f | s | l | d]; cbn; try reflexivity.
  - by destruct (str_contains "task" s).
  - by destruct (existsb _ l).
  - destruct (d !! "task") as [task|] eqn:Hd; cbn; [| reflexivity].
    destruct task as [| b | n | f | s | l | t]; cbn; try reflexivity.
    + by destruct (str_contains "type" s), (str_contains "index" s).
    + by destruct (existsb _ l), (existsb _ l).
    + destruct (t !! "type") as [ty|] eqn:Hty; cbn;
        [| by destruct (t !! "index")].
      destruct (t !! "index") as [index|] eqn:Hix; cbn; [| reflexivity].
      reflexivity.
Qed.

End SessionConfigCases.

(** C4 (as amended): for every cluster specification that is empty, has no
    [task] field, or whose [task] is an object that has no [type] or no
    [index] field, the derivation returns no restriction; so it does when
    [TF_CONFIG] is absent, the text [{}] being decoded in its place.  A
    [task] that is not an object is another matter: null, a boolean or a
    number makes the derivation raise [TypeError]; so does a string or an
    array that contains both ["type"] and ["index"]; any other string or
    array gives no restriction. *)
Theorem incomplete_config_unrestricted
    (json_loads : string -> result PyValue) (env : gmap string string) :
  (∀ spec,
     json_loads (default "{}" (env !! "TF_CONFIG")) = Return spec ->
     lacks_task_info spec ->
     _get_session_config_from_env_var json_loads env = Return None)
  ∧ (env !! "TF_CONFIG" = None ->
     json_loads "{}" = Return (PyDict ∅) ->
     _get_session_config_from_env_var json_loads env = Return None)
  ∧ (∀ d task,
       json_loads (default "{}" (env !! "TF_CONFIG")) = Return (PyDict d) ->
       d !! "task" = Some task ->
       (∀ t, task ≠ PyDict t) ->
       _get_session_config_from_env_var json_loads env =
         match task with
         | PyList l =>
             if existsb (λ v, py_eq_str v "type") l
                && existsb (λ v, py_eq_str v "index") l
             then Raise TypeError else Return None
         | PyStr s =>
             if str_contains "type" s && str_contains "index" s
             then Raise TypeError else Return None
         | _ => Raise TypeError
         end).
Proof.
  assert (Hgen : ∀ spec,
     json_loads (default "{}" (env !! "TF_CONFIG")) = Return spec ->
     lacks_task_info spec ->
     _get_session_config_from_env_var json_loads env = Return None).
  { intros spec Hload Hlacks.
    unfold _get_session_config_from_env_var. rewrite Hload.
    destruct Hlacks as [|d Hd|d t Hd Ht|d t Hd Ht]; cbn.
    - reflexivity.
    - rewrite Hd. cbn. by destruct (Nat.eqb (size d) 0).
    - rewrite (size_lookup_Some _ _ _ Hd). cbn. rewrite Hd. cbn.
      rewrite Ht. cbn. reflexivity.
    - rewrite (size_lookup_Some _ _ _ Hd). cbn. rewrite Hd. cbn.
      rewrite Ht. cbn. by destruct (t !! "type"). }
  split; [exact Hgen |]. split.
  - intros Habsent Hempty. apply (Hgen (PyDict ∅)).
    + by rewrite Habsent.
    + constructor.
  - intros d task Hload Hd Hobj.
    rewrite (session_config_cases _ _ _ Hload). simpl.
    rewrite (size_lookup_Some _ _ _ Hd), Hd. simpl.
    destruct task; try reflexivity. by destruct (Hobj d0).
Qed.

Lemma incomplete_config_unrestricted_witness :
  (∅ : gmap string string) !! "TF_CONFIG" = None
  ∧ Json.loads "{}" = Return (PyDict ∅)
  ∧ _get_session_config_from_env_var Json.loads ∅ = Return None
  ∧ _get_session_config_from_env_var Json.loads
      (tf_config_env "{'task': {'type': 'worker'}}") = Return None
  ∧ _get_session_config_from_env_var Json.loads
      (tf_config_env "{'task': 5}") = Raise TypeError.
Proof.
  split; [reflexivity |]. split; [vm_compute; reflexivity |].
  split; [| split].
  - apply (proj1 (proj2 (incomplete_config_unrestricted Json.loads ∅))).
    + reflexivity.
    + vm_compute. reflexivity.
  - apply (proj1 (incomplete_config_unrestricted Json.loads
                    (tf_config_env "{'task': {'type': 'worker'}}"))
             (PyDict {[ "task" := PyDict {[ "type" := PyStr "worker" ]} ]})).
    + vm_compute. reflexivity.
    + apply (lacks_index _ {[ "type" := PyStr "worker" ]}); reflexivity.
  - apply (proj2 (proj2 (incomplete_config_unrestricted Json.loads
                           (tf_config_env "{'task': 5}")))
             {[ "task" := PyInt 5 ]} (PyInt 5)).
    + vm_compute. reflexivity.
    + reflexivity.
    + discriminate.
Defined.

(** C4 as stated fails: in the specification [{"task": null}] the task has
    neither a [type] nor an [index] field, and the derivation does not
    return "no restriction": the test ['type' in task] raises
    [TypeError]. *)
Lemma null_task_raises :
  Json.loads (dq "{'task': null}") = Return (PyDict {[ "task" := PyNone ]})
  ∧ _get_session_config_from_env_var Json.loads
      (tf_config_env "{'task': null}") = Raise TypeError
  ∧ _get_session_config_from_env_var Json.loads
      (tf_config_env "{'task': null}") ≠ Return None.
Proof.
  split; [vm_compute; reflexivity |]. split; [vm_compute; reflexivity |].
  intros H. vm_compute in H. discriminate H.
Qed.

(** C5: for every cluster specification whose [task] has a [type] and an
    [index], the type being any value other than ["master"] and ["worker"],
    the derivation returns no restriction. *)
Theorem other_role_unrestricted
    (json_loads : string -> result PyValue) (env : gmap string string)
    (spec ty index : PyValue) :
  json_loads (default "{}" (env !! "TF_CONFIG")) = Return spec ->
  has_task spec ty index ->
  ty ≠ PyStr "master" -> ty ≠ PyStr "worker" ->
  _get_session_config_from_env_var json_loads env = Return None.
Proof.
  intros Hload Htask Hm Hw.
  rewrite (session_config_of_task _ _ _ _ _ Hload Htask).
  by rewrite (py_eq_str_false _ _ Hm), (py_eq_str_false _ _ Hw).
Qed.

Lemma other_role_unrestricted_witness :
  _get_session_config_from_env_var Json.loads
    (tf_config_env "{'task': {'type': 'chief', 'index': 0}}") = Return None.
Proof.
  apply (other_role_unrestricted Json.loads _
           (PyDict {[ "task" :=
              PyDict {[ "type" := PyStr "chief"; "index" := PyInt 0 ]} ]})
           (PyStr "chief") (PyInt 0)).
  - vm_compute. reflexivity.
  - eexists _, _. repeat split; reflexivity.
  - discriminate.
  - discriminate.
Defined.

(** C9: if [TF_CONFIG] holds text the decoder rejects, the derivation raises
    the decoder's error and returns no policy. *)
Theorem malformed_config_raises
    (json_loads : string -> result PyValue) (env : gmap string string)
    (text : string) (e : PyExn) :
  env !! "TF_CONFIG" = Some text ->
  json_loads text = Raise e ->
  _get_session_config_from_env_var json_loads env = Raise e.
Proof.
  intros Henv Hload. unfold _get_session_config_from_env_var.
  rewrite Henv. simpl. rewrite Hload. reflexivity.
Qed.

Lemma malformed_config_raises_witness :
  _get_session_config_from_env_var Json.loads
    (tf_config_env "{'task': {'type': 'master', ") = Raise JSONDecodeError.
Proof.
  apply (malformed_config_raises Json.loads _
           (dq "{'task': {'type': 'master', ")).
  - reflexivity.
  - vm_compute. reflexivity.
Defined.

(** C10 (as amended): for a worker specification, an index that is a string,
    null, an array or an object makes the derivation raise [TypeError]; NaN
    makes it raise [ValueError] and an infinity [OverflowError]; a boolean or
    a finite float raises nothing and is formatted as the integer it
    converts to (truncated towards zero). *)
Theorem worker_index_formatting
    (json_loads : string -> result PyValue) (env : gmap string string)
    (spec index : PyValue) :
  json_loads (default "{}" (env !! "TF_CONFIG")) = Return spec ->
  has_task spec (PyStr "worker") index ->
  let worker s :=
    Return (Some {| device_filters := ["/job:ps"; "/job:worker/task:" +:+ s] |}) in
  _get_session_config_from_env_var json_loads env =
    match index with
    | PyStr _ | PyNone | PyList _ | PyDict _ => Raise TypeError
    | PyFloat S754_nan => Raise ValueError
    | PyFloat (S754_infinity _) => Raise OverflowError
    | PyFloat (S754_zero _) => worker "0"
    | PyFloat (S754_finite s m e) => worker (str_of_int (float_trunc s m e))
    | PyBool b => worker (if b then "1" else "0")
    | PyInt i => worker (str_of_int i)
    end.
Proof.
  intros Hload Htask.
  rewrite (session_config_of_task _ _ _ _ _ Hload Htask). cbn.
  destruct index as [| b | i | f | s | l | d]; try reflexivity.
  by destruct f.
Qed.

Lemma worker_index_formatting_witness :
  _get_session_config_from_env_var Json.loads
    (tf_config_env "{'task': {'type': 'worker', 'index': '3'}}") =
  Raise TypeError.
Proof.
  apply (worker_index_formatting Json.loads _
           (PyDict {[ "task" :=
              PyDict {[ "type" := PyStr "worker"; "index" := PyStr "3" ]} ]})
           (PyStr "3")).
  - vm_compute. reflexivity.
  - eexists _, _. repeat split; reflexivity.
Defined.

(** C10 as stated fails: with the index [3.5], which is not an integer, the
    derivation raises nothing and returns the filters of worker 3. *)
Lemma worker_float_index_accepted :
  Json.loads (dq "{'task': {'type': 'worker', 'index': 3.5}}") =
    Return (PyDict {[ "task" :=
      PyDict {[ "type" := PyStr "worker";
                "index" := PyFloat (S754_finite false 7881299347898368 (-51)) ]} ]})
  ∧ _get_session_config_from_env_var Json.loads
      (tf_config_env "{'task': {'type': 'worker', 'index': 3.5}}") =
    Return (Some {| device_filters := ["/job:ps"; "/job:worker/task:3"] |}).
Proof. split; vm_compute; reflexivity. Qed.

Example worker_bool_index_accepted :
  _get_session_config_from_env_var Json.loads
    (tf_config_env "{'task': {'type': 'worker', 'index': true}}") =
  Return (Some {| device_filters := ["/job:ps"; "/job:worker/task:1"] |}).
Proof. vm_compute. reflexivity. Qed.

(** ** Logging *)

Lemma same_handler_refl h : same_handler h h = true.
Proof. apply Nat.eqb_refl. Qed.

Lemma removeHandler_head h t lvl pr :
  removeHandler h {| level := lvl; handlers := h :: t; propagate := pr |} =
  {| level := lvl; handlers := t; propagate := pr |}.
Proof.
  unfold removeHandler. simpl. by rewrite same_handler_refl.
Qed.

(** The loop terminates with no handler left when it is given one iteration
    for each handler. *)
Lemma remove_handlers_loop_empties l :
  handlers (remove_handlers_loop (length (handlers l)) l) = [].
Proof.
  destruct l as [lvl hs pr]. simpl.
  induction hs as [|h t IH]; simpl; [reflexivity |].
  rewrite removeHandler_head. exact IH.
Qed.

Lemma remove_handlers_loop_keeps fuel l :
  level (remove_handlers_loop fuel l) = level l
  ∧ propagate (remove_handlers_loop fuel l) = propagate l.
Proof.
  revert l. induction fuel as [|n IH]; intros l; simpl; [done |].
  destruct (handlers l) as [|h t] eqn:E; [done |].
  destruct (IH (removeHandler h l)) as [-> ->].
  unfold removeHandler. by destruct (existsb _ _).
Qed.

Lemma addHandler_new h l :
  Forall (λ h', (handler_id h' < handler_id h)%nat) (handlers l) ->
  handlers (addHandler h l) = handlers l ++ [h].
Proof.
  intros Hall. unfold addHandler.
  replace (existsb (same_handler h) (handlers l)) with false; [done |].
  symmetry. apply not_true_is_false. intros Hex.
  apply existsb_exists in Hex as (h' & Hin & Hsame).
  rewrite Forall_forall in Hall. apply list_elem_of_In in Hin.
  specialize (Hall _ Hin). apply Nat.eqb_eq in Hsame. lia.
Qed.

(** One invocation: the framework logger loses its handlers, the root logger
    gets level INFO and one more handler, a new one on standard output. *)
Lemma setup_logging_effect p :
  handlers_allocated p ->
  handlers (tf_logger (_setup_logging p)) = []
  ∧ level (root_logger (_setup_logging p)) = INFO
  ∧ handlers (root_logger (_setup_logging p)) =
      handlers (root_logger p) ++
      [{| handler_id := next_id p; handler_stream := Stdout;
          handler_level := INFO |}]
  ∧ handlers_allocated (_setup_logging p).
Proof.
  intros Hp. unfold _setup_logging. simpl.
  split; [apply remove_handlers_loop_empties |].
  assert (Hadd :
    handlers (addHandler
      {| handler_id := next_id p; handler_stream := Stdout;
         handler_level := INFO |} (setLevel INFO (root_logger p))) =
    handlers (root_logger p) ++
      [{| handler_id := next_id p; handler_stream := Stdout;
          handler_level := INFO |}]).
  { rewrite addHandler_new; [done | exact Hp]. }
  split; [| split; [exact Hadd |]].
  - unfold addHandler. by destruct (existsb _ _).
  - unfold handlers_allocated. simpl. rewrite Hadd.
    apply Forall_app. split.
    + eapply Forall_impl; [exact Hp |]. simpl. intros; lia.
    + constructor; [simpl; lia | constructor].
Qed.

Lemma emitting_after_setup p :
  handlers_allocated p ->
  emitting_handlers (_setup_logging p) Root INFO =
    filter (λ h, handler_level h ≤ INFO) (handlers (root_logger p)) ++
    [{| handler_id := next_id p; handler_stream := Stdout;
        handler_level := INFO |}].
Proof.
  intros Hp. destruct (setup_logging_effect p Hp) as (_ & Hl & Hh & _).
  unfold emitting_handlers, getEffectiveLevel, reachable_handlers.
  rewrite Hl, Hh. simpl. rewrite filter_app. f_equal.
Qed.

(** A record that is offered to a handler is written by the handlers that
    emit it, and by no other. *)
Lemma log_handlers p who levelno msg :
  reachable_handlers p who ≠ [] ->
  log p who levelno msg =
    map (λ h, (handler_stream h, msg +:+ terminator))
        (emitting_handlers p who levelno).
Proof.
  intros Hne. unfold log, emitting_handlers.
  destruct (getEffectiveLevel p who <=? levelno); [| reflexivity].
  by destruct (reachable_handlers p who).
Qed.

Lemma setup_logging_root_reachable p :
  handlers_allocated p -> reachable_handlers (_setup_logging p) Root ≠ [].
Proof.
  intros Hp. destruct (setup_logging_effect p Hp) as (_ & _ & Hh & _).
  unfold reachable_handlers. rewrite Hh. by destruct (handlers (root_logger p)).
Qed.

(** C3 (as amended): one invocation of the logging setup removes every
    handler of the framework logger and attaches one new handler, on
    standard output, to the root logger; on a root logger without handlers
    it leaves exactly one active handler, and a subsequent INFO log call
    writes exactly one line.  The setup is not idempotent: a second
    invocation attaches one more handler, and the same log call then writes
    one more line. *)
Theorem setup_logging_attaches_one_handler (p : Process) :
  handlers_allocated p ->
  let p1 := _setup_logging p in
  let p2 := _setup_logging p1 in
  handlers (tf_logger p1) = []
  ∧ emitting_handlers p1 Root INFO =
      filter (λ h, handler_level h ≤ INFO) (handlers (root_logger p)) ++
      [{| handler_id := next_id p; handler_stream := Stdout;
          handler_level := INFO |}]
  ∧ (handlers (root_logger p) = [] ->
     ∀ msg, log p1 Root INFO msg = [(Stdout, msg +:+ terminator)])
  ∧ (∀ msg, log p2 Root INFO msg =
            log p1 Root INFO msg ++ [(Stdout, msg +:+ terminator)]).
Proof.
  intros Hp p1 p2. subst p1 p2.
  destruct (setup_logging_effect p Hp) as (Htf & Hl & Hh & Hp1).
  pose proof (emitting_after_setup p Hp) as He1.
  pose proof (emitting_after_setup _ Hp1) as He2.
  split; [exact Htf |]. split; [exact He1 |]. split.
  - intros Hnil msg. rewrite log_handlers by (by apply setup_logging_root_reachable).
    rewrite He1, Hnil. reflexivity.
  - intros msg.
    rewrite !log_handlers by (by repeat apply setup_logging_root_reachable).
    assert (Hf : filter (λ h, handler_level h ≤ INFO)
                   (handlers (root_logger (_setup_logging p))) =
                 emitting_handlers (_setup_logging p) Root INFO).
    { unfold emitting_handlers, getEffectiveLevel, reachable_handlers.
      by rewrite Hl. }
    rewrite He2, Hf, map_app. reflexivity.
Qed.

Lemma setup_logging_attaches_one_handler_witness :
  handlers (tf_logger (_setup_logging startup_process)) = []
  ∧ log (_setup_logging startup_process) Root INFO "step 1" =
      [(Stdout, "step 1" +:+ terminator)].
Proof.
  assert (Hp : handlers_allocated startup_process) by constructor.
  destruct (setup_logging_attaches_one_handler startup_process Hp)
    as (Htf & _ & Hone & _).
  split; [exact Htf | apply Hone; reflexivity].
Defined.

(** C3 as stated fails: after two invocations in succession the root logger
    has two active handlers, one INFO log call writes its line twice, and
    the handlers that emit are not those that emitted after the first
    invocation. *)
Lemma setup_logging_twice_duplicates :
  length (handlers (root_logger
            (_setup_logging (_setup_logging startup_process)))) = 2%nat
  ∧ log (_setup_logging (_setup_logging startup_process)) Root INFO "step 1" =
      [(Stdout, "step 1" +:+ terminator); (Stdout, "step 1" +:+ terminator)]
  ∧ emitting_handlers (_setup_logging (_setup_logging startup_process))
      Root INFO ≠
    emitting_handlers (_setup_logging startup_process) Root INFO.
Proof.
  split; [reflexivity |]. split; [reflexivity |]. discriminate.
Qed.

(** ** [train_and_evaluate] *)

(** C8 (as amended): for every hyperparameter record, once the
    device-filter derivation has returned and the framework has accepted
    what it is given, the training orchestration has built a run
    configuration that combines the derived policy with checkpoints and
    summaries saved every 100 steps into the job directory; a training
    specification that reads the training files with the training batch
    size, shuffled, up to the training step limit; an evaluation
    specification that reads the evaluation files with the evaluation batch
    size, not shuffled, for the evaluation step count, and carries the one
    final exporter; and an estimator with hidden layers of widths 10, 20 and
    10, 3 classes and the record's learning rate.  It has printed the model
    directory of the run configuration, and it ends as the training it
    delegates, on these three objects, ends. *)
Theorem train_and_evaluate_delegation
    (json_loads : string -> result PyValue) (F : Framework)
    (env : gmap string string) (hparams : HParams) (sc : option ConfigProto)
    (run_config : RunConfigObject F) (train_spec : TrainSpecObject F)
    (exporter : ExporterObject F) (eval_spec : EvalSpecObject F)
    (estimator : EstimatorObject F) :
  _get_session_config_from_env_var json_loads env = Return sc ->
  tf_estimator_RunConfig F (env !! "TF_CONFIG")
    {| session_config := sc; save_checkpoints_steps := 100;
       save_summary_steps := 100; model_dir := job_dir hparams |} =
    Return run_config ->
  tf_estimator_TrainSpec F
    {| train_input_fn := λ _,
         {| filename := train_files hparams;
            batch_size := train_batch_size hparams; shuffle := true |};
       max_steps := train_steps hparams |} = Return train_spec ->
  tf_estimator_FinalExporter F
    {| exporter_name := "exporter";
       serving_input_receiver_fn := model_serving_input_receiver_fn |} =
    Return exporter ->
  tf_estimator_EvalSpec F
    {| eval_input_fn := λ _,
         {| filename := eval_files hparams;
            batch_size := eval_batch_size hparams; shuffle := false |};
       steps := eval_steps hparams;
       exporters := [exporter];
       eval_name := "iris-eval" |} = Return eval_spec ->
  model_build_estimator F
    {| config := run_config;
       estimator_learning_rate := learning_rate hparams;
       hidden_units := [10; 20; 10];
       num_classes := 3 |} = Return estimator ->
  train_and_evaluate json_loads F env hparams =
    {| printed := ["Model dir: " +:+ RunConfig_model_dir F run_config];
       ended :=
         tf_estimator_train_and_evaluate F estimator train_spec eval_spec |}.
Proof.
  intros Hsc Hrc Hts Hex Hes Hest. unfold train_and_evaluate.
  rewrite Hsc. cbn [mbind result_bind]. rewrite Hrc. cbn [mbind result_bind].
  rewrite Hts. cbn [mbind result_bind]. rewrite Hex. cbn [mbind result_bind].
  rewrite Hes. cbn [mbind result_bind mret result_ret].
  by rewrite Hest.
Qed.

Lemma train_and_evaluate_delegation_witness :
  train_and_evaluate Json.loads Tf.framework
    (tf_config_env
       ("{'cluster': {'master': ['m:2222'], 'ps': ['p:2222'], " +:+
        "'worker': ['w0:2222', 'w1:2222']}, " +:+
        "'task': {'type': 'worker', 'index': 1}}"))
    sample_hparams =
    {| printed := ["Model dir: /tmp/out"]; ended := Return tt |}.
Proof.
  apply (train_and_evaluate_delegation Json.loads Tf.framework _
           sample_hparams
           (Some {| device_filters := ["/job:ps"; "/job:worker/task:1"] |})
           {| session_config :=
                Some {| device_filters := ["/job:ps"; "/job:worker/task:1"] |};
              save_checkpoints_steps := 100; save_summary_steps := 100;
              model_dir := "/tmp/out" |}
           {| train_input_fn := λ _,
                {| filename := ["a.csv"]; batch_size := 32; shuffle := true |};
              max_steps := 400 |}
           {| exporter_name := "exporter";
              serving_input_receiver_fn := model_serving_input_receiver_fn |}
           {| eval_input_fn := λ _,
                {| filename := ["b.csv"]; batch_size := 32; shuffle := false |};
              steps := 100;
              exporters :=
                [{| exporter_name := "exporter";
                    serving_input_receiver_fn :=
                      model_serving_input_receiver_fn |}];
              eval_name := "iris-eval" |}
           {| config :=
                {| session_config :=
                     Some {| device_filters :=
                               ["/job:ps"; "/job:worker/task:1"] |};
                   save_checkpoints_steps := 100; save_summary_steps := 100;
                   model_dir := "/tmp/out" |};
              estimator_learning_rate := float_0_01;
              hidden_units := [10; 20; 10];
              num_classes := 3 |}).
  - vm_compute. reflexivity.
  - vm_compute. reflexivity.
  - reflexivity.
  - reflexivity.
  - reflexivity.
  - reflexivity.
Defined.

(** C8 as stated fails: not for every record are the specifications and
    the estimator built.  When [TF_CONFIG] names worker 3 and no cluster,
    the derivation returns its policy, but the run configuration is refused:
    the orchestration ends with [ValueError], having printed nothing and
    built no specification; and a record whose training step limit is 0 is
    refused by the training specification on one machine. *)
Lemma train_and_evaluate_refused :
  _get_session_config_from_env_var Json.loads
    (tf_config_env "{'task': {'type': 'worker', 'index': 3}}") =
    Return (Some {| device_filters := ["/job:ps"; "/job:worker/task:3"] |})
  ∧ train_and_evaluate Json.loads Tf.framework
      (tf_config_env "{'task': {'type': 'worker', 'index': 3}}")
      sample_hparams =
      {| printed := []; ended := Raise ValueError |}
  ∧ train_and_evaluate Json.loads Tf.framework ∅
      {| train_files := ["a.csv"]; eval_files := ["b.csv"];
         job_dir := "/tmp/out"; train_steps := 0; eval_steps := 100;
         num_epochs := 200; learning_rate := float_0_01;
         train_batch_size := 32; eval_batch_size := 32 |} =
      {| printed := []; ended := Raise ValueError |}.
Proof. repeat split; vm_compute; reflexivity. Qed.

(** ** The command line *)

Section ArgparseFacts.

Import Argparse.

Variable py_int : string -> option Z.
Variable py_float : string -> option spec_float.

Lemma plain_not_dash s : plain s -> String.eqb s "--" = false.
Proof.
  unfold plain. intros H. apply String.eqb_neq. intros ->. discriminate H.
Qed.

Lemma parse_optional_plain p s : plain s -> parse_optional p s = Return TokA.
Proof.
  unfold plain. destruct s as [|c s]; [done |]. simpl.
  destruct (Ascii.ascii_dec "-" c) as [<- | Hc]; [by destruct s |].
  intros _.
  replace (Json.ord c =? 45) with false; [done |].
  symmetry. apply Z.eqb_neq. intros H. apply Hc.
  unfold Json.ord in H.
  assert (nat_of_ascii c = 45%nat) as Hn by lia.
  rewrite <- (ascii_nat_embedding c), Hn. reflexivity.
Qed.

(** The first pass reads an option string followed by plain values as the
    option and its arguments. *)
Lemma classify_groups p (G : list (Action * list string)) :
  Forall (λ g, parse_optional p (action_name g.1) = Return (TokO (Some g.1) None)
               ∧ String.eqb (action_name g.1) "--" = false
               ∧ Forall plain g.2) G ->
  classify p false (flat_map (λ g, action_name g.1 :: g.2) G) =
    Return (flat_map group_tokens G).
Proof.
  induction 1 as [|[a vs] G (Hopt & Hdash & Hvs) _ IH]; [done |].
  simpl in *. rewrite Hdash, Hopt. cbn.
  induction Hvs as [|v vs Hv _ IHvs]; simpl.
  - rewrite IH. reflexivity.
  - rewrite (plain_not_dash _ Hv), (parse_optional_plain _ _ Hv). cbn.
    cbn in IHvs.
    destruct (classify p false (vs ++ _)) as [r|e] eqn:E; cbn in *; [| done].
    injection IHvs as ->. reflexivity.
Qed.

Lemma span_group_tokens (f : string * Tok -> bool) G :
  (∀ s a e, f (s, TokO a e) = false) ->
  span f (flat_map group_tokens G) = ([], flat_map group_tokens G).
Proof.
  intros Hf. destruct G as [|[a vs] G]; [done |]. simpl. by rewrite Hf.
Qed.

Lemma span_values vs R :
  span is_arg R = ([], R) ->
  span is_arg (map (λ v : string, (v, TokA)) vs ++ R) =
    (map (λ v : string, (v, TokA)) vs, R).
Proof.
  intros HR. induction vs as [|v vs IH]; simpl; [done |]. by rewrite IH.
Qed.

Lemma fst_values (vs : list string) :
  (map (λ v : string, (v, TokA)) vs).*1 = vs.
Proof. induction vs as [|v vs IH]; [done |]. cbn. f_equal. exact IH. Qed.


Lemma match_argument_group a vs G :
  group_ok (a, vs) ->
  match_argument (nargs a)
    (map (λ v : string, (v, TokA)) vs ++ flat_map group_tokens G) =
  Some (vs, flat_map group_tokens G).
Proof.
  intros (_ & _ & _ & Hn). simpl in Hn.
  destruct Hn as [[Hn [v ->]] | [Hn Hvs]]; rewrite Hn.
  - reflexivity.
  - destruct vs as [|v vs]; [done |].
    unfold match_argument. simpl.
    rewrite span_values by (by apply span_group_tokens).
    by rewrite fst_values.
Qed.

Lemma remove_first_dash_plain vs : Forall plain vs -> remove_first_dash vs = vs.
Proof.
  induction 1 as [|v vs Hv _ IH]; simpl; [done |].
  by rewrite (plain_not_dash _ Hv), IH.
Qed.

Lemma get_value_list_str vs :
  get_value_list py_int py_float TypeStr vs = Return (map PyStr vs).
Proof. induction vs as [|v vs IH]; simpl; [done |]. by rewrite IH. Qed.

Lemma take_action_group a vs st :
  group_ok (a, vs) ->
  take_action py_int py_float a vs st = Return (store_group st (a, vs)).
Proof.
  intros (Hk & Ht & Hp & Hn). simpl in *.
  unfold take_action, get_values, store_group. simpl.
  rewrite Hk, Ht, (remove_first_dash_plain _ Hp).
  destruct Hn as [[-> [v ->]] | [-> Hvs]]; cbn.
  - reflexivity.
  - rewrite get_value_list_str. reflexivity.
Qed.

(** The second pass stores the groups one after the other. *)
Lemma consume_groups p G : ∀ fuel st,
  (length G ≤ fuel)%nat ->
  Forall group_ok G ->
  consume py_int py_float p fuel (flat_map group_tokens G) st =
    Return (foldl store_group st G).
Proof.
  induction G as [|[a vs] G IH]; intros fuel st Hfuel Hok.
  - by destruct fuel.
  - destruct fuel as [|fuel]; [simpl in Hfuel; lia |].
    inversion Hok as [|? ? Hg HG]; subst.
    simpl. rewrite (match_argument_group _ _ _ Hg).
    rewrite (take_action_group _ _ _ Hg). cbn.
    apply IH; [simpl in Hfuel; lia | exact HG].
Qed.

End ArgparseFacts.

Lemma length_group_tokens (G : list (Argparse.Action * list string)) :
  (length G ≤ length (flat_map group_tokens G))%nat.
Proof.
  induction G as [|g G IH]; simpl; [lia |]. rewrite length_app. lia.
Qed.

Lemma mapM_as_str (l : list string) : mapM as_str (map PyStr l) = Some l.
Proof. induction l as [|s l IH]; [done |]. cbn. by rewrite IH. Qed.

(** The orders in which three groups can be given. *)
Lemma three_groups_orders {A} (g1 g2 g3 : A) (l : list A) :
  l ≡ₚ [g1; g2; g3] ->
  l = [g1; g2; g3] ∨ l = [g1; g3; g2] ∨ l = [g2; g1; g3] ∨
  l = [g2; g3; g1] ∨ l = [g3; g1; g2] ∨ l = [g3; g2; g1].
Proof.
  intros H.
  assert (Hlen := Permutation_length H). simpl in Hlen.
  destruct l as [|a [|b [|c [|]]]]; try discriminate Hlen.
  assert (Ha : a ∈ [g1; g2; g3]) by (rewrite <- H; left).
  apply elem_of_cons in Ha as [-> | Ha];
    [| apply elem_of_cons in Ha as [-> | Ha];
       [| apply list_elem_of_singleton in Ha as ->]].
  - apply Permutation_cons_inv in H.
    assert (Hb : b ∈ [g2; g3]) by (rewrite <- H; left).
    apply elem_of_cons in Hb as [-> | Hb];
      [| apply list_elem_of_singleton in Hb as ->].
    + apply Permutation_cons_inv, Permutation_singleton_l in H.
      injection H as ->. auto 10.
    + apply (@Permutation_cons_app_inv _ _ [g2] [] _) in H. simpl in H.
      apply Permutation_singleton_l in H. injection H as ->. auto 10.
  - apply (@Permutation_cons_app_inv _ _ [g1] [g3] _) in H. simpl in H.
    assert (Hb : b ∈ [g1; g3]) by (rewrite <- H; left).
    apply elem_of_cons in Hb as [-> | Hb];
      [| apply list_elem_of_singleton in Hb as ->].
    + apply Permutation_cons_inv, Permutation_singleton_l in H.
      injection H as ->. auto 10.
    + apply (@Permutation_cons_app_inv _ _ [g1] [] _) in H. simpl in H.
      apply Permutation_singleton_l in H. injection H as ->. auto 10.
  - apply (@Permutation_cons_app_inv _ _ [g1; g2] [] _) in H. simpl in H.
    assert (Hb : b ∈ [g1; g2]) by (rewrite <- H; left).
    apply elem_of_cons in Hb as [-> | Hb];
      [| apply list_elem_of_singleton in Hb as ->].
    + apply Permutation_cons_inv, Permutation_singleton_l in H.
      injection H as ->. auto 10.
    + apply (@Permutation_cons_app_inv _ _ [g1] [] _) in H. simpl in H.
      apply Permutation_singleton_l in H. injection H as ->. auto 10.
Qed.


(** Closes a goal on the outcome of parsing once the groups are stored: no
    required option is missing, and the namespace is the expected one. *)
Ltac stored :=
  cbv zeta;
  match goal with
  | |- (if ?c then _ else _) = _ =>
      replace c with false by (vm_compute; reflexivity)
  end;
  reflexivity.

(** Proves a property of each group of a list from the hypotheses. *)
Ltac each_group := repeat (constructor; [assumption |]); constructor.

Section GetArgsFacts.

Import Argparse.

Variable py_int : string -> option Z.
Variable py_float : string -> option spec_float.

Lemma get_args_three_groups (a1 a2 a3 : Action) (v1 v2 v3 : list string) :
  let G := [(a1, v1); (a2, v2); (a3, v3)] in
  Forall (λ g, parse_optional parser (action_name g.1) =
                 Return (TokO (Some g.1) None)
               ∧ String.eqb (action_name g.1) "--" = false
               ∧ Forall plain g.2) G ->
  Forall group_ok G ->
  get_args py_int py_float (flat_map (λ g, action_name g.1 :: g.2) G) =
    let st := foldl store_group
                {| namespace := initial_namespace parser; seen := [];
                   extras := [] |} G in
    if missing_required parser (seen st) then Raise (SystemExit 2)
    else Return (namespace st).
Proof.
  intros G Hread Hok. unfold get_args, parse_args.
  rewrite (classify_groups _ _ Hread). cbn [mbind result_bind].
  rewrite consume_groups; [| apply length_group_tokens | exact Hok].
  reflexivity.
Qed.

(** Parsing the command line of the groups [G], given in this order. *)
Ltac in_order G :=
  change (command_line _) with
    (flat_map (λ g : Action * list string, action_name g.1 :: g.2) G);
  rewrite get_args_three_groups by each_group;
  stored.

(** C6: a command line that supplies only the three required flags, in any
    order, each with plain values (one or more training files, one or more
    evaluation files, one job directory), is parsed into the namespace that
    holds these values and, for every optional field, its default:
    train-steps 400, eval-steps 100, num-epochs 200, learning-rate 0.01,
    train-batch-size 32, eval-batch-size 32; these are the fields of the
    hyperparameter record built from it. *)
Theorem get_args_defaults (tf ef : list string) (jd : string)
    (groups : list (string * list string)) :
  tf ≠ [] -> ef ≠ [] ->
  Forall plain tf -> Forall plain ef -> plain jd ->
  groups ≡ₚ [("--train-files", tf); ("--eval-files", ef); ("--job-dir", [jd])] ->
  get_args py_int py_float (command_line groups) =
    Return (default_namespace tf ef jd)
  ∧ hparams_of_args (default_namespace tf ef jd) =
      Some {| train_files := tf; eval_files := ef; job_dir := jd;
              train_steps := 400; eval_steps := 100; num_epochs := 200;
              learning_rate := float_0_01; train_batch_size := 32;
              eval_batch_size := 32 |}.
Proof.
  intros Htf Hef Hptf Hpef Hpjd Hperm. split.
  - set (a1 := required_option "--train-files" "train_files" NargsPlus).
    set (a2 := required_option "--eval-files" "eval_files" NargsPlus).
    set (a3 := required_option "--job-dir" "job_dir" NargsOne).
    assert (Hr1 : parse_optional parser (action_name a1) =
                    Return (TokO (Some a1) None)
                  ∧ String.eqb (action_name a1) "--" = false
                  ∧ Forall plain (a1, tf).2)
      by (split; [vm_compute; reflexivity | split; [reflexivity | exact Hptf]]).
    assert (Hr2 : parse_optional parser (action_name a2) =
                    Return (TokO (Some a2) None)
                  ∧ String.eqb (action_name a2) "--" = false
                  ∧ Forall plain (a2, ef).2)
      by (split; [vm_compute; reflexivity | split; [reflexivity | exact Hpef]]).
    assert (Hr3 : parse_optional parser (action_name a3) =
                    Return (TokO (Some a3) None)
                  ∧ String.eqb (action_name a3) "--" = false
                  ∧ Forall plain (a3, [jd]).2)
      by (split; [vm_compute; reflexivity
                 | split; [reflexivity | by constructor]]).
    assert (Hg1 : group_ok (a1, tf))
      by (repeat split; [exact Hptf | right; by split]).
    assert (Hg2 : group_ok (a2, ef))
      by (repeat split; [exact Hpef | right; by split]).
    assert (Hg3 : group_ok (a3, [jd]))
      by (repeat split; [by constructor | left; split; [done | by eexists]]).
    destruct (three_groups_orders _ _ _ _ Hperm)
      as [-> | [-> | [-> | [-> | [-> | ->]]]]].
    + in_order [(a1, tf); (a2, ef); (a3, [jd])].
    + in_order [(a1, tf); (a3, [jd]); (a2, ef)].
    + in_order [(a2, ef); (a1, tf); (a3, [jd])].
    + in_order [(a2, ef); (a3, [jd]); (a1, tf)].
    + in_order [(a3, [jd]); (a1, tf); (a2, ef)].
    + in_order [(a3, [jd]); (a2, ef); (a1, tf)].
  - unfold hparams_of_args.
    replace (default_namespace tf ef jd !! "train_files")
      with (Some (PyList (map PyStr tf))) by reflexivity.
    replace (default_namespace tf ef jd !! "eval_files")
      with (Some (PyList (map PyStr ef))) by reflexivity.
    replace (default_namespace tf ef jd !! "job_dir")
      with (Some (PyStr jd)) by reflexivity.
    replace (default_namespace tf ef jd !! "train_steps")
      with (Some (PyInt 400)) by reflexivity.
    replace (default_namespace tf ef jd !! "eval_steps")
      with (Some (PyInt 100)) by reflexivity.
    replace (default_namespace tf ef jd !! "num_epochs")
      with (Some (PyInt 200)) by reflexivity.
    replace (default_namespace tf ef jd !! "learning_rate")
      with (Some (PyFloat float_0_01)) by reflexivity.
    replace (default_namespace tf ef jd !! "train_batch_size")
      with (Some (PyInt 32)) by reflexivity.
    replace (default_namespace tf ef jd !! "eval_batch_size")
      with (Some (PyInt 32)) by reflexivity.
    cbn. rewrite !mapM_as_str. reflexivity.
Qed.

End GetArgsFacts.

Section ParseFacts.

Import Argparse.

Variable py_int : string -> option Z.
Variable py_float : string -> option spec_float.

Lemma lookup_option_In p s a : lookup_option p s = Some a -> In a p.
Proof. intros H. by apply find_some in H as [H _]. Qed.

Lemma option_tuples_In p tok a e : In (a, e) (option_tuples p tok) -> In a p.
Proof.
  unfold option_tuples.
  destruct (String.prefix "--" tok).
  - destruct (match split_eq tok with Some (o, e0) => (o, Some e0)
              | None => (tok, None) end) as [pre expl].
    intros H. apply in_flat_map in H as (a' & Ha' & H).
    apply in_flat_map in H as (os & _ & H).
    destruct (String.prefix pre os); [| done].
    destruct H as [[= <- _] | []]. exact Ha'.
  - intros H. apply in_flat_map in H as (a' & Ha' & H).
    apply in_flat_map in H as (os & _ & H).
    destruct (String.eqb os _).
    + destruct H as [[= <- _] | []]. exact Ha'.
    + destruct (String.prefix tok os); [| done].
      destruct H as [[= <- _] | []]. exact Ha'.
Qed.

(** An action the first pass selects for a token is one of the parser's. *)
Lemma parse_optional_In p tok a e :
  parse_optional p tok = Return (TokO (Some a) e) -> In a p.
Proof.
  unfold parse_optional. destruct tok as [|c r]; [done |].
  destruct (negb _); [done |].
  destruct (lookup_option p (String c r)) as [a0|] eqn:Hl.
  { intros [= <- _]. by apply lookup_option_In in Hl. }
  destruct (String.eqb r ""); [done |].
  destruct (split_eq (String c r) ≫= _) as [[a0 e0]|] eqn:Hs.
  { intros [= <- _].
    destruct (split_eq (String c r)) as [[o e1]|]; [| done]. cbn in Hs.
    destruct (lookup_option p o) as [a1|] eqn:Ho; [| done].
    cbn in Hs. injection Hs as <- _. by apply lookup_option_In in Ho. }
  destruct (option_tuples p (String c r)) as [|[a0 e0] [|? ?]] eqn:Ht.
  - by repeat destruct (_ : bool).
  - intros [= <- _]. apply (option_tuples_In p (String c r) a0 e0).
    rewrite Ht. by left.
  - done.
Qed.

(** The first pass fails only with a usage error. *)
Lemma parse_optional_raise p tok e :
  parse_optional p tok = Raise e -> e = SystemExit 2.
Proof.
  unfold parse_optional. destruct tok as [|c r]; [done |].
  destruct (negb _); [done |].
  destruct (lookup_option p (String c r)); [done |].
  destruct (String.eqb r ""); [done |].
  destruct (split_eq (String c r) ≫= _) as [[a0 e0]|]; [done |].
  destruct (option_tuples p (String c r)) as [|[a0 e0] [|? ?]].
  - by repeat destruct (_ : bool).
  - done.
  - by intros [= <-].
Qed.


Lemma classify_read p : ∀ argv b toks,
  classify p b argv = Return toks ->
  Forall (λ t, t.1 ∈ argv ∧ read_by p t) toks.
Proof.
  induction argv as [|s argv IH]; intros b toks; simpl.
  - intros [= <-]. constructor.
  - assert (Hcons : ∀ (c : Tok) b' r,
        classify p b' argv = Return r -> read_by p (s, c) ->
        Forall (λ t, t.1 ∈ s :: argv ∧ read_by p t) ((s, c) :: r)).
    { intros c b' r Hr Hc. constructor.
      - split; [left | exact Hc].
      - eapply Forall_impl; [apply (IH _ _ Hr) |].
        intros t [Hin Ht]. split; [by right | exact Ht]. }
    destruct b.
    + destruct (classify p true argv) as [r|] eqn:Hr; [| done].
      intros [= <-]. by eapply Hcons.
    + destruct (String.eqb s "--").
      * destruct (classify p true argv) as [r|] eqn:Hr; [| done].
        intros [= <-]. by eapply Hcons.
      * destruct (parse_optional p s) as [c|] eqn:Hc; [| done]. cbn.
        destruct (classify p false argv) as [r|] eqn:Hr; [| done].
        intros [= <-]. eapply Hcons; [exact Hr |].
        unfold read_by. simpl. by destruct c as [| |[a|] e].
Qed.

Lemma classify_raise p : ∀ argv b e,
  classify p b argv = Raise e -> e = SystemExit 2.
Proof.
  induction argv as [|s argv IH]; intros b e; simpl; [done |].
  destruct b.
  - destruct (classify p true argv) eqn:Hr; [done |].
    intros [= <-]. by eapply IH.
  - destruct (String.eqb s "--").
    + destruct (classify p true argv) eqn:Hr; [done |].
      intros [= <-]. by eapply IH.
    + destruct (parse_optional p s) as [c|e'] eqn:Hc; cbn.
      * destruct (classify p false argv) eqn:Hr; [done |].
        intros [= <-]. by eapply IH.
      * intros [= <-]. by eapply parse_optional_raise.
Qed.

Lemma span_app {A} (f : A -> bool) l a b : span f l = (a, b) -> l = a ++ b.
Proof.
  revert a b. induction l as [|x l IH]; intros a b; simpl.
  - by intros [= <- <-].
  - destruct (f x).
    + destruct (span f l) as [a' b']. intros [= <- <-].
      simpl. f_equal. by apply IH.
    + by intros [= <- <-].
Qed.

(** The tokens an action leaves are the last of those it was offered. *)
Lemma match_argument_suffix n toks args rest :
  match_argument n toks = Some (args, rest) -> ∃ pre, toks = pre ++ rest.
Proof.
  unfold match_argument. destruct n.
  - destruct toks as [|[s [| |]] r]; try done.
    intros [= _ <-]. by exists [(s, TokA)].
  - destruct toks as [|[s [| |]] r]; try done.
    destruct (span is_arg r) as [m r'] eqn:H. apply span_app in H.
    intros [= _ <-]. exists ((s, TokA) :: m). by rewrite H.
  - intros [= _ <-]. by exists [].
Qed.

Lemma bundled_first p a e a' : bundled p a e = Return a' -> a' = a.
Proof.
  induction e as [|c r IH]; simpl.
  - by intros [= <-].
  - destruct (lookup_option p _) as [a0|]; [| done].
    by destruct (nargs a0).
Qed.

Lemma get_value_raise ty s e :
  get_value py_int py_float ty s = Raise e -> e = SystemExit 2.
Proof.
  destruct ty; simpl; [done | |].
  - destruct (py_int s); [done |]. by intros [= <-].
  - destruct (py_float s); [done |]. by intros [= <-].
Qed.

Lemma get_value_list_raise ty l e :
  get_value_list py_int py_float ty l = Raise e -> e = SystemExit 2.
Proof.
  induction l as [|s l IH]; simpl; [done |].
  destruct (get_value py_int py_float ty s) eqn:Hs; cbn.
  - destruct (get_value_list py_int py_float ty l); cbn; [done |].
    intros [= <-]. by apply IH.
  - intros [= <-]. by eapply get_value_raise.
Qed.

Lemma get_values_raise a args e :
  get_values py_int py_float a args = Raise e -> e = SystemExit 2.
Proof.
  unfold get_values.
  assert (Hl : ∀ l, (get_value_list py_int py_float (type a) l ≫=
                      λ vs, Return (PyList vs)) = Raise e -> e = SystemExit 2).
  { intros l.
    destruct (get_value_list py_int py_float (type a) l) eqn:Hv; cbn; [done |].
    intros [= <-]. by eapply get_value_list_raise. }
  destruct (nargs a); try apply Hl.
  destruct (remove_first_dash args) as [|s [|? ?]]; try apply Hl.
  apply get_value_raise.
Qed.

(** A store action fails only with a usage error. *)
Lemma take_action_raise a args st e :
  kind a = Store ->
  take_action py_int py_float a args st = Raise e -> e = SystemExit 2.
Proof.
  intros Hk. unfold take_action. rewrite Hk.
  destruct (get_values py_int py_float a args) eqn:Hv; cbn; [done |].
  intros [= <-]. by eapply get_values_raise.
Qed.

(** An action that returns is recorded as seen. *)
Lemma take_action_seen a args st st' :
  take_action py_int py_float a args st = Return st' ->
  seen st' = action_name a :: seen st.
Proof.
  unfold take_action. destruct (kind a); [| done].
  destruct (get_values py_int py_float a args); cbn; [| done].
  by intros [= <-].
Qed.

Lemma match_argument_length n toks args rest :
  match_argument n toks = Some (args, rest) ->
  (length rest ≤ length toks)%nat.
Proof.
  intros H. apply match_argument_suffix in H as [pre ->].
  rewrite length_app. lia.
Qed.

(** The second pass never runs out of fuel: with at least one unit for each
    token, more fuel changes nothing. *)
Lemma consume_fuel_enough p : ∀ fuel fuel' toks st,
  (length toks ≤ fuel)%nat -> (length toks ≤ fuel')%nat ->
  consume py_int py_float p fuel toks st =
  consume py_int py_float p fuel' toks st.
Proof.
  induction fuel as [|fuel IH]; intros fuel' toks st Hf Hf'.
  { destruct toks; [| simpl in Hf; lia]. by destruct fuel'. }
  destruct toks as [|[s c] rest]; [by destruct fuel' |].
  destruct fuel' as [|fuel']; [simpl in Hf'; lia |].
  simpl in Hf, Hf'. simpl.
  assert (Hrest : ∀ st1, consume py_int py_float p fuel rest st1 =
                         consume py_int py_float p fuel' rest st1)
    by (intros; apply IH; lia).
  destruct c as [| | [a|] [e|]]; try apply Hrest.
  - destruct (nargs a).
    + destruct (take_action py_int py_float a [e] st); cbn; [apply Hrest | done].
    + destruct (take_action py_int py_float a [e] st); cbn; [apply Hrest | done].
    + destruct (String.prefix "--" s); [done |].
      destruct (String.eqb e ""); [done |].
      destruct (bundled p a e); cbn; [| done].
      destruct (take_action py_int py_float _ [] st); cbn; [apply Hrest | done].
  - destruct (match_argument (nargs a) rest) as [[args rest']|] eqn:Hm; [| done].
    apply match_argument_length in Hm.
    destruct (take_action py_int py_float a args st); cbn; [| done].
    apply IH; lia.
Qed.
End ParseFacts.

Section RequiredFacts.

Import Argparse.

Variable py_int : string -> option Z.
Variable py_float : string -> option spec_float.



Lemma Forall_left_over (Q : string * Tok -> Prop) n toks args rest :
  match_argument n toks = Some (args, rest) ->
  Forall Q toks -> Forall Q rest.
Proof.
  intros H HQ. apply match_argument_suffix in H as [pre ->].
  by apply Forall_app in HQ as [_ HQ].
Qed.

(** An option no token was read as is not seen by the second pass. *)
Lemma consume_seen p name : ∀ fuel toks st st',
  Forall (not_option name) toks ->
  name ∉ seen st ->
  consume py_int py_float p fuel toks st = Return st' ->
  name ∉ seen st'.
Proof.
  induction fuel as [|fuel IH]; intros toks st st' Htoks Hst; simpl.
  { by intros [= <-]. }
  destruct toks as [|[s c] rest]; [by intros [= <-] |].
  apply Forall_cons in Htoks as [Hc Hrest].
  assert (Hstep : ∀ a args rest' st1,
            action_name a ≠ name -> Forall (not_option name) rest' ->
            take_action py_int py_float a args st = Return st1 ->
            consume py_int py_float p fuel rest' st1 = Return st' ->
            name ∉ seen st').
  { intros a args rest' st1 Ha Hr Ht. apply IH; [exact Hr |].
    rewrite (take_action_seen _ _ _ _ _ _ Ht).
    intros Hin. apply elem_of_cons in Hin as [-> | Hin]; done. }
  destruct c as [| | [a|] [e|]]; try (by apply IH).
  - unfold not_option in Hc. simpl in Hc.
    destruct (nargs a).
    + destruct (take_action py_int py_float a [e] st) as [st1|] eqn:Ht;
        cbn; [| done]. by eapply Hstep.
    + destruct (take_action py_int py_float a [e] st) as [st1|] eqn:Ht;
        cbn; [| done]. by eapply Hstep.
    + destruct (String.prefix "--" s); [done |].
      destruct (String.eqb e ""); [done |].
      destruct (bundled p a e) as [a'|] eqn:Hb; cbn; [| done].
      apply bundled_first in Hb as ->.
      destruct (take_action py_int py_float a [] st) as [st1|] eqn:Ht;
        cbn; [| done]. by eapply Hstep.
  - unfold not_option in Hc. simpl in Hc.
    destruct (match_argument (nargs a) rest) as [[args rest']|] eqn:Hm;
      [| done].
    destruct (take_action py_int py_float a args st) as [st1|] eqn:Ht;
      cbn; [| done].
    eapply Hstep; [exact Hc | | exact Ht].
    by eapply Forall_left_over.
Qed.

(** When every option read is a store action, the second pass fails only
    with a usage error. *)
Lemma consume_raise p : ∀ fuel toks st e,
  Forall stores toks ->
  consume py_int py_float p fuel toks st = Raise e ->
  e = SystemExit 2.
Proof.
  induction fuel as [|fuel IH]; intros toks st e Htoks; simpl; [done |].
  destruct toks as [|[s c] rest]; [done |].
  apply Forall_cons in Htoks as [Hc Hrest].
  assert (Hstep : ∀ a args rest',
            kind a = Store -> Forall stores rest' ->
            (take_action py_int py_float a args st ≫=
               λ st1, consume py_int py_float p fuel rest' st1) = Raise e ->
            e = SystemExit 2).
  { intros a args rest' Ha Hr.
    destruct (take_action py_int py_float a args st) as [st1|e1] eqn:Ht; cbn.
    - by apply IH.
    - intros [= <-]. by eapply take_action_raise. }
  destruct c as [| | [a|] [e0|]]; try (by apply IH).
  - destruct Hc as [Hk Hn]. simpl in *.
    destruct (nargs a); [by eapply Hstep | by eapply Hstep | done].
  - destruct Hc as [Hk Hn]. simpl in *.
    destruct (match_argument (nargs a) rest) as [[args rest']|] eqn:Hm.
    + eapply Hstep; [exact Hk |]. by eapply Forall_left_over.
    + by intros [= <-].
Qed.

Lemma missing_required_unseen a (seen : list string) :
  In a parser -> required a = true -> action_name a ∉ seen ->
  missing_required parser seen = true.
Proof.
  intros Hin Hreq Hseen. unfold missing_required.
  apply existsb_exists. exists a. split; [exact Hin |].
  by rewrite Hreq, bool_decide_eq_false_2.
Qed.

(** Each required flag names a required action of the parser. *)
Lemma required_flag_action flag :
  flag ∈ ["--train-files"; "--eval-files"; "--job-dir"] ->
  ∃ a, In a parser ∧ required a = true ∧ action_name a = flag.
Proof.
  intros H. repeat (apply elem_of_cons in H as [-> | H]).
  - exists (required_option "--train-files" "train_files" NargsPlus).
    split; [right; left; reflexivity | done].
  - exists (required_option "--eval-files" "eval_files" NargsPlus).
    split; [do 2 right; left; reflexivity | done].
  - exists (required_option "--job-dir" "job_dir" NargsOne).
    split; [do 3 right; left; reflexivity | done].
  - by apply elem_of_nil in H.
Qed.

(** Every action of the parser other than help stores its arguments. *)
Lemma parser_stores a :
  In a parser -> action_name a ≠ "-h" ->
  kind a = Store ∧ nargs a ≠ NargsZero.
Proof.
  intros H Hn. simpl in H.
  repeat (destruct H as [<- | H]);
    first [ by destruct Hn | by split | done ].
Qed.

(** The first pass reads every token when none is ambiguous. *)
Lemma classify_returns : ∀ argv b,
  (∀ tok, tok ∈ argv -> ambiguous tok = false) ->
  ∃ toks, classify parser b argv = Return toks.
Proof.
  induction argv as [|s argv IH]; intros b Hamb; simpl; [by eexists |].
  assert (Hrest : ∀ b', ∃ toks, classify parser b' argv = Return toks).
  { intros b'. apply IH. intros tok Hin. apply Hamb. by right. }
  destruct b.
  - destruct (Hrest true) as [r ->]. by eexists.
  - destruct (String.eqb s "--").
    + destruct (Hrest true) as [r ->]. by eexists.
    + specialize (Hamb s (list_elem_of_here _ _)). unfold ambiguous in Hamb.
      destruct (parse_optional parser s) as [c|]; [| done].
      destruct (Hrest false) as [r ->]. by eexists.
Qed.

(** C7 (as amended): a command line that omits a required flag
    ([--train-files], [--eval-files] or [--job-dir]: none of its tokens is
    read as that flag) yields no hyperparameter record.  Unless one of its
    tokens is read as the help option, parsing ends with a usage error and
    exit status 2.  When it begins with [-h] or [--help] and no later token
    is an ambiguous abbreviation, parsing ends with exit status 0, the help
    having been printed. *)
Theorem missing_required_flag (argv : list string) (flag : string) :
  flag ∈ ["--train-files"; "--eval-files"; "--job-dir"] ->
  (∀ tok, tok ∈ argv -> reads_as tok flag = false) ->
  (∀ ns, get_args py_int py_float argv ≠ Return ns)
  ∧ ((∀ tok, tok ∈ argv -> reads_as tok "-h" = false) ->
     get_args py_int py_float argv = Raise (SystemExit 2))
  ∧ (∀ h rest,
       argv = h :: rest -> h ∈ ["-h"; "--help"] ->
       (∀ tok, tok ∈ rest -> ambiguous tok = false) ->
       get_args py_int py_float argv = Raise (SystemExit 0)).
Proof.
  intros Hflag Homit.
  assert (Hfirst : ∀ h rest,
            argv = h :: rest -> h ∈ ["-h"; "--help"] ->
            (∀ tok, tok ∈ rest -> ambiguous tok = false) ->
            get_args py_int py_float argv = Raise (SystemExit 0)).
  { intros h rest -> Hh Hamb.
    destruct (classify_returns rest false Hamb) as [toks Htoks].
    assert (Hcl : classify parser false (h :: rest) =
                  Return ((h, TokO (Some help_action) None) :: toks)).
    { apply elem_of_cons in Hh as [-> | Hh];
        [| apply elem_of_cons in Hh as [-> | Hh];
           [| by apply elem_of_nil in Hh]];
        simpl; rewrite Htoks; reflexivity. }
    unfold get_args, parse_args. rewrite Hcl. cbn [mbind result_bind].
    reflexivity. }
  cut ((∀ ns, get_args py_int py_float argv ≠ Return ns)
       ∧ ((∀ tok, tok ∈ argv -> reads_as tok "-h" = false) ->
          get_args py_int py_float argv = Raise (SystemExit 2))).
  { intros [H1 H2]. by repeat split. }
  clear Hfirst.
  destruct (required_flag_action flag Hflag) as (af & Hin & Hreq & Hname).
  assert (Hnot : ∀ name toks,
            (∀ tok, tok ∈ argv -> reads_as tok name = false) ->
            Forall (λ t, t.1 ∈ argv ∧ read_by parser t) toks ->
            Forall (not_option name) toks).
  { intros name toks Hname' Hread. eapply Forall_impl; [exact Hread |].
    intros [s c] [Hs Hc]. unfold read_by, not_option in *. simpl in *.
    destruct c as [| | [a|] e]; try done.
    specialize (Hname' s Hs). unfold reads_as in Hname'. rewrite Hc in Hname'.
    by apply String.eqb_neq. }
  unfold get_args, parse_args.
  destruct (classify parser false argv) as [toks|e] eqn:Hcl;
    cbn [mbind result_bind].
  - pose proof (classify_read _ _ _ _ Hcl) as Hread.
    pose proof (Hnot _ _ Homit Hread) as Hflagless.
    match goal with
    | |- context [consume ?i ?f ?p ?n ?t ?s] =>
        destruct (consume i f p n t s) as [st|e] eqn:Hco;
          cbn [mbind result_bind]
    end.
    + assert (Hmiss : missing_required parser (seen st) = true).
      { apply (missing_required_unseen af); [done | done |].
        rewrite Hname.
        eapply consume_seen; [exact Hflagless | | exact Hco].
        simpl. apply not_elem_of_nil. }
      rewrite Hmiss. done.
    + split; [done |]. intros Hhelp. f_equal.
      eapply consume_raise; [| exact Hco].
      pose proof (Hnot _ _ Hhelp Hread) as Hhelpless.
      rewrite Forall_forall in Hread, Hhelpless. apply Forall_forall.
      intros [s c] Ht. specialize (Hread _ Ht) as [_ Hr].
      specialize (Hhelpless _ Ht).
      unfold read_by, not_option, stores in *. simpl in *.
      destruct c as [| | [a|] e0]; try done.
      apply parser_stores; [| done].
      by apply parse_optional_In in Hr.
  - split; [done |]. intros _. f_equal. by eapply classify_raise.
Qed.

End RequiredFacts.

Lemma get_args_defaults_witness :
  get_args Builtins.int Builtins.float
    ["--train-files"; "a.csv"; "--eval-files"; "b.csv"; "--job-dir"; "/tmp/out"] =
    Return (default_namespace ["a.csv"] ["b.csv"] "/tmp/out")
  ∧ hparams_of_args (default_namespace ["a.csv"] ["b.csv"] "/tmp/out") =
      Some sample_hparams.
Proof.
  apply (get_args_defaults Builtins.int Builtins.float
           ["a.csv"] ["b.csv"] "/tmp/out"
           [("--train-files", ["a.csv"]); ("--eval-files", ["b.csv"]);
            ("--job-dir", ["/tmp/out"])]).
  - discriminate.
  - discriminate.
  - repeat constructor.
  - repeat constructor.
  - reflexivity.
  - reflexivity.
Defined.

Example get_args_other_order :
  get_args Builtins.int Builtins.float
    ["--job-dir"; "/tmp/out"; "--eval-files"; "b.csv"; "c.csv";
     "--train-files"; "a.csv"] =
  Return (default_namespace ["a.csv"] ["b.csv"; "c.csv"] "/tmp/out").
Proof. reflexivity. Qed.

(** The default learning rate is the binary64 number nearest to 1/100: it
    is what the decimal text [0.01] converts to, its significand has 53
    bits, and it is within half a unit in the last place of 1/100. *)
Lemma float_0_01_nearest :
  Builtins.float "0.01" = Some float_0_01
  ∧ float_0_01 = S754_finite false 5764607523034235 (-59)
  ∧ 2 ^ 52 ≤ 5764607523034235 < 2 ^ 53
  ∧ Z.abs (100 * 5764607523034235 - 2 ^ 59) ≤ 50.
Proof.
  split; [vm_compute; reflexivity |]. split; [reflexivity |].
  split; [split; [by vm_compute | reflexivity] | by vm_compute].
Qed.

Lemma missing_required_flag_witness :
  (∀ ns, get_args Builtins.int Builtins.float
           ["--train-files"; "a.csv"; "--eval-files"; "b.csv"] ≠ Return ns)
  ∧ get_args Builtins.int Builtins.float
      ["--train-files"; "a.csv"; "--eval-files"; "b.csv"] =
    Raise (SystemExit 2)
  ∧ get_args Builtins.int Builtins.float
      ["-h"; "--train-files"; "a.csv"; "--eval-files"; "b.csv"] =
    Raise (SystemExit 0).
Proof.
  assert (Hflag : "--job-dir" ∈ ["--train-files"; "--eval-files"; "--job-dir"])
    by (apply list_elem_of_In; simpl; auto).
  assert (Hread : ∀ name, name = "--job-dir" ∨ name = "-h" ->
            ∀ tok, tok ∈ ["--train-files"; "a.csv"; "--eval-files"; "b.csv"] ->
                   reads_as tok name = false).
  { intros name Hname tok Htok. apply list_elem_of_In in Htok. simpl in Htok.
    destruct Hname as [-> | ->];
      repeat (destruct Htok as [<- | Htok]; [vm_compute; reflexivity |]);
      destruct Htok. }
  destruct (missing_required_flag Builtins.int Builtins.float
              ["--train-files"; "a.csv"; "--eval-files"; "b.csv"]
              "--job-dir" Hflag (Hread _ (or_introl eq_refl)))
    as (Hnone & Hexit & _).
  split; [exact Hnone |]. split; [apply Hexit, Hread; by right |].
  apply (proj2 (proj2 (missing_required_flag Builtins.int Builtins.float
                         ["-h"; "--train-files"; "a.csv"; "--eval-files";
                          "b.csv"] "--job-dir" Hflag
                         ltac:(intros tok Htok; apply list_elem_of_In in Htok;
                               simpl in Htok;
                               repeat (destruct Htok as [<- | Htok];
                                       [vm_compute; reflexivity |]);
                               destruct Htok)))
           "-h" ["--train-files"; "a.csv"; "--eval-files"; "b.csv"]).
  - reflexivity.
  - apply list_elem_of_In. simpl. auto.
  - intros tok Htok. apply list_elem_of_In in Htok. simpl in Htok.
    repeat (destruct Htok as [<- | Htok]; [vm_compute; reflexivity |]).
    destruct Htok.
Defined.

(** C7 as stated fails: the command line [--help] supplies none of the
    required flags, and parsing it ends with exit status 0, after printing
    the help, not with a usage error and a status other than zero. *)
Lemma help_exits_with_status_zero :
  reads_as "--help" "--train-files" = false
  ∧ reads_as "--help" "--eval-files" = false
  ∧ reads_as "--help" "--job-dir" = false
  ∧ get_args Builtins.int Builtins.float ["--help"] = Raise (SystemExit 0).
Proof. repeat split; vm_compute; reflexivity. Qed.

Example get_args_abbreviated :
  get_args Builtins.int Builtins.float
    ["--train-f"; "a.csv"; "--eval-files=b.csv"; "--job-d"; "/tmp/out";
     "--train-steps"; "-5"] =
  Return (<["train_steps" := PyInt (-5)]>
            (default_namespace ["a.csv"] ["b.csv"] "/tmp/out")).
Proof. reflexivity. Qed.

Example get_args_ambiguous :
  get_args Builtins.int Builtins.float
    ["--train-files"; "a.csv"; "--eval-files"; "b.csv"; "--job-dir"; "x";
     "--eval"; "3"] = Raise (SystemExit 2).
Proof. vm_compute. reflexivity. Qed.

Example get_args_bad_int :
  get_args Builtins.int Builtins.float
    ["--train-files"; "a.csv"; "--eval-files"; "b.csv"; "--job-dir"; "x";
     "--train-steps"; "many"] = Raise (SystemExit 2).
Proof. vm_compute. reflexivity. Qed.

(** ** More on the device-filter derivation *)

Lemma py_eq_str_true v s : py_eq_str v s = true -> v = PyStr s.
Proof.
  destruct v; simpl; try discriminate.
  intros H. apply String.eqb_eq in H. by subst.
Qed.

Lemma format_d_errors index e :
  format_d index = Raise e ->
  e = TypeError ∨ e = ValueError ∨ e = OverflowError.
Proof.
  destruct index as [| b | n | f | s | l | d]; simpl;
    try (intros [= <-]; auto); try discriminate.
  destruct f; try discriminate; intros [= <-]; auto.
Qed.

(** X2: a decoded specification that Python takes for true and that is not
    an object never yields a policy.  A number or [true] raises [TypeError]
    at the test ['task' in tf_config]; an array or a string passes that test
    only if it contains ["task"], and then the subscript [tf_config['task']]
    raises [TypeError]; otherwise the result is no restriction. *)
Theorem non_object_config
    (json_loads : string -> result PyValue) (env : gmap string string)
    (spec : PyValue) :
  json_loads (default "{}" (env !! "TF_CONFIG")) = Return spec ->
  truthy spec = true ->
  (∀ d, spec ≠ PyDict d) ->
  _get_session_config_from_env_var json_loads env =
    match spec with
    | PyList l =>
        if existsb (λ v, py_eq_str v "task") l
        then Raise TypeError else Return None
    | PyStr s => if str_contains "task" s then Raise TypeError else Return None
    | _ => Raise TypeError
    end.
Proof.
  intros Hload Htruthy Hobj.
  rewrite (session_config_cases _ _ _ Hload), Htruthy. simpl.
  destruct spec; try reflexivity. by destruct (Hobj d).
Qed.

Lemma non_object_config_witness :
  _get_session_config_from_env_var Json.loads (tf_config_env "['task']") =
    Raise TypeError.
Proof.
  apply (non_object_config Json.loads _ (PyList [PyStr "task"])).
  - vm_compute. reflexivity.
  - reflexivity.
  - discriminate.
Defined.

(** X3: when the [task] of the specification is not an object, no policy is
    derived.  Null, a boolean or a number raises [TypeError] at the test
    ['type' in task]; an array or a string that contains both ["type"] and
    ["index"] raises [TypeError] at the subscript [task['type']]; any other
    array or string gives no restriction. *)
Theorem non_object_task
    (json_loads : string -> result PyValue) (env : gmap string string)
    (d : gmap string PyValue) (task : PyValue) :
  json_loads (default "{}" (env !! "TF_CONFIG")) = Return (PyDict d) ->
  d !! "task" = Some task ->
  (∀ t, task ≠ PyDict t) ->
  _get_session_config_from_env_var json_loads env =
    match task with
    | PyList l =>
        if existsb (λ v, py_eq_str v "type") l
           && existsb (λ v, py_eq_str v "index") l
        then Raise TypeError else Return None
    | PyStr s =>
        if str_contains "type" s && str_contains "index" s
        then Raise TypeError else Return None
    | _ => Raise TypeError
    end.
Proof.
  intros Hload Hd Hobj.
  rewrite (session_config_cases _ _ _ Hload). simpl.
  rewrite (size_lookup_Some _ _ _ Hd), Hd. simpl.
  destruct task; try reflexivity. by destruct (Hobj d0).
Qed.

Lemma non_object_task_witness :
  _get_session_config_from_env_var Json.loads
    (tf_config_env "{'task': 'type and index'}") = Raise TypeError
  ∧ _get_session_config_from_env_var Json.loads
      (tf_config_env "{'task': null}") = Raise TypeError.
Proof.
  split.
  - apply (non_object_task Json.loads _
             {[ "task" := PyStr "type and index" ]} (PyStr "type and index")).
    + vm_compute. reflexivity.
    + reflexivity.
    + discriminate.
  - apply (non_object_task Json.loads _ {[ "task" := PyNone ]} PyNone).
    + vm_compute. reflexivity.
    + reflexivity.
    + discriminate.
Defined.

(** X4: a policy is derived only for a master or a worker: whenever the
    derivation returns a policy, the specification is an object whose [task]
    is an object with a [type] and an [index], the type is the string
    ["master"] or ["worker"], and the policy has exactly two filters, the
    first of them ["/job:ps"]. *)
Theorem policy_only_for_master_or_worker
    (json_loads : string -> result PyValue) (env : gmap string string)
    (spec : PyValue) (cfg : ConfigProto) :
  json_loads (default "{}" (env !! "TF_CONFIG")) = Return spec ->
  _get_session_config_from_env_var json_loads env = Return (Some cfg) ->
  ∃ index,
    (has_task spec (PyStr "master") index
     ∧ device_filters cfg = ["/job:ps"; "/job:master"])
    ∨ (has_task spec (PyStr "worker") index
       ∧ ∃ s, format_d index = Return s
              ∧ device_filters cfg = ["/job:ps"; "/job:worker/task:" +:+ s]).
Proof.
  intros Hload. rewrite (session_config_cases _ _ _ Hload).
  destruct (truthy spec); simpl; [| discriminate].
  destruct spec as [| b | n | f | s | l | d]; try discriminate.
  - by destruct (str_contains "task" s).
  - by destruct (existsb _ l).
  - destruct (d !! "task") as [task|] eqn:Hd; [| discriminate].
    destruct task as [| b | n | f | s | l | t]; try discriminate.
    + by destruct (str_contains "type" s && str_contains "index" s).
    + by destruct (existsb _ l && existsb _ l).
    + destruct (t !! "type") as [ty|] eqn:Hty; [| discriminate].
      destruct (t !! "index") as [index|] eqn:Hix; [| discriminate].
      unfold role_policy. intros H. exists index.
      destruct (py_eq_str ty "master") eqn:Hm.
      * apply py_eq_str_true in Hm as ->. injection H as <-.
        left. split; [by exists d, t | reflexivity].
      * destruct (py_eq_str ty "worker") eqn:Hw; [| discriminate].
        apply py_eq_str_true in Hw as ->.
        destruct (format_d index) as [s|] eqn:Hs; [| discriminate].
        cbn in H. injection H as <-.
        right. split; [by exists d, t | by exists s].
Qed.

Lemma policy_only_for_master_or_worker_witness :
  ∃ index,
    (has_task (PyDict {[ "task" :=
        PyDict {[ "type" := PyStr "worker"; "index" := PyInt 2 ]} ]})
       (PyStr "master") index
     ∧ ["/job:ps"; "/job:worker/task:2"] = ["/job:ps"; "/job:master"])
    ∨ (has_task (PyDict {[ "task" :=
          PyDict {[ "type" := PyStr "worker"; "index" := PyInt 2 ]} ]})
         (PyStr "worker") index
       ∧ ∃ s, format_d index = Return s
              ∧ ["/job:ps"; "/job:worker/task:2"] =
                ["/job:ps"; "/job:worker/task:" +:+ s]).
Proof.
  apply (policy_only_for_master_or_worker Json.loads
           (tf_config_env "{'task': {'type': 'worker', 'index': 2}}")
           _ {| device_filters := ["/job:ps"; "/job:worker/task:2"] |}).
  - vm_compute. reflexivity.
  - vm_compute. reflexivity.
Defined.

(** X5: once the text of [TF_CONFIG] is decoded, the derivation raises
    nothing but [TypeError], [ValueError] or [OverflowError]; in particular
    no subscript raises [KeyError], each being guarded by a membership
    test. *)
Theorem errors_after_decoding
    (json_loads : string -> result PyValue) (env : gmap string string)
    (spec : PyValue) (e : PyExn) :
  json_loads (default "{}" (env !! "TF_CONFIG")) = Return spec ->
  _get_session_config_from_env_var json_loads env = Raise e ->
  e = TypeError ∨ e = ValueError ∨ e = OverflowError.
Proof.
  intros Hload. rewrite (session_config_cases _ _ _ Hload).
  assert (Hif : ∀ b : bool,
            (if b then Raise TypeError else Return None) =
              (Raise e : result (option ConfigProto)) ->
            e = TypeError ∨ e = ValueError ∨ e = OverflowError).
  { intros [|]; [intros [= <-]; auto | discriminate]. }
  destruct (truthy spec); simpl; [| discriminate].
  destruct spec as [| b | n | f | s | l | d];
    try (intros [= <-]; auto); try apply Hif.
  destruct (d !! "task") as [task|]; [| discriminate].
  destruct task as [| b | n | f | s | l | t];
    try (intros [= <-]; auto); try apply Hif.
  destruct (t !! "type") as [ty|]; [| discriminate].
  destruct (t !! "index") as [index|]; [| discriminate].
  unfold role_policy.
  destruct (py_eq_str ty "master"); [discriminate |].
  destruct (py_eq_str ty "worker"); [| discriminate].
  destruct (format_d index) as [s|e'] eqn:Hs; [discriminate |].
  cbn. intros [= <-]. by eapply format_d_errors.
Qed.

Lemma errors_after_decoding_witness :
  _get_session_config_from_env_var Json.loads
    (tf_config_env "{'task': {'type': 'worker', 'index': NaN}}") =
    Raise ValueError
  ∧ (ValueError = TypeError ∨ ValueError = ValueError
     ∨ ValueError = OverflowError).
Proof.
  split; [vm_compute; reflexivity |].
  apply (errors_after_decoding Json.loads
           (tf_config_env "{'task': {'type': 'worker', 'index': NaN}}")
           (PyDict {[ "task" :=
              PyDict {[ "type" := PyStr "worker";
                        "index" := PyFloat S754_nan ]} ]})).
  - vm_compute. reflexivity.
  - vm_compute. reflexivity.
Defined.

(** ** More on the logging setup *)

(** X6: the logging setup sets [TF_CPP_MIN_LOG_LEVEL] to ["3"], whatever it
    held, and leaves every other environment variable as it was. *)
Theorem setup_logging_environment (p : Process) :
  environ (_setup_logging p) !! "TF_CPP_MIN_LOG_LEVEL" = Some "3"
  ∧ ∀ name, name ≠ "TF_CPP_MIN_LOG_LEVEL" ->
            environ (_setup_logging p) !! name = environ p !! name.
Proof.
  unfold _setup_logging. simpl. split.
  - apply lookup_insert_eq.
  - intros name Hname. by apply lookup_insert_ne.
Qed.

Lemma setup_logging_keeps_TF_CONFIG p :
  environ (_setup_logging p) !! "TF_CONFIG" = environ p !! "TF_CONFIG".
Proof. unfold _setup_logging. simpl. by apply lookup_insert_ne. Qed.

(** X7: the logging setup does not change what the device-filter
    derivation returns: the derivation reads [TF_CONFIG] only, which the
    setup leaves alone. *)
Theorem setup_logging_keeps_session_config
    (json_loads : string -> result PyValue) (p : Process) :
  _get_session_config_from_env_var json_loads (environ (_setup_logging p)) =
  _get_session_config_from_env_var json_loads (environ p).
Proof.
  unfold _get_session_config_from_env_var.
  by rewrite setup_logging_keeps_TF_CONFIG.
Qed.

Lemma setup_logging_empties_framework_logger_aux (p : Process) :
  tf_logger (_setup_logging p) =
    {| level := level (tf_logger p); handlers := [];
       propagate := propagate (tf_logger p) |}.
Proof.
  unfold _setup_logging. simpl.
  pose proof (remove_handlers_loop_empties (tf_logger p)) as Hh.
  destruct (remove_handlers_loop_keeps
              (length (handlers (tf_logger p))) (tf_logger p)) as [Hl Hp].
  destruct (remove_handlers_loop _ _) as [lvl hs pr]. simpl in *.
  by subst.
Qed.

(** X8: of the framework logger, the setup changes the handlers only: the
    loop ends with none left, however many there were, and the logger's
    level and its propagate flag are as before. *)
Theorem setup_logging_empties_framework_logger (p : Process) :
  handlers (tf_logger (_setup_logging p)) = []
  ∧ level (tf_logger (_setup_logging p)) = level (tf_logger p)
  ∧ propagate (tf_logger (_setup_logging p)) = propagate (tf_logger p)
  ∧ propagate (root_logger (_setup_logging p)) = propagate (root_logger p).
Proof.
  rewrite setup_logging_empties_framework_logger_aux. simpl.
  repeat split. unfold _setup_logging, addHandler. simpl.
  by destruct (existsb _ _).
Qed.

Lemma setup_logging_root_level p : level (root_logger (_setup_logging p)) = INFO.
Proof.
  unfold _setup_logging, addHandler. simpl. by destruct (existsb _ _).
Qed.

(** X9: after the setup, on a root logger that had no handler, a record the
    framework logs at INFO or above through its own logger is written
    exactly once, on standard output, provided that logger propagates and
    lets the record pass (its level is not set, or not above the record's):
    the handlers the framework had attached no longer write it a second
    time. *)
Theorem framework_record_written_once (p : Process) (lvl : Z) (msg : string) :
  handlers_allocated p ->
  handlers (root_logger p) = [] ->
  propagate (tf_logger p) = true ->
  INFO ≤ lvl ->
  level (tf_logger p) = NOTSET ∨ level (tf_logger p) ≤ lvl ->
  log (_setup_logging p) Tensorflow lvl msg = [(Stdout, msg +:+ terminator)].
Proof.
  intros Halloc Hroot Hprop Hlvl Htf.
  destruct (setup_logging_effect p Halloc) as (_ & _ & Hh & _).
  pose proof (setup_logging_empties_framework_logger_aux p) as Hfw.
  pose proof (setup_logging_root_level p) as Hl.
  rewrite Hroot in Hh.
  unfold log, emitting_handlers, getEffectiveLevel, reachable_handlers.
  rewrite Hfw, Hh, Hl. cbn [level handlers propagate]. rewrite Hprop.
  assert (Hpass : ((if level (tf_logger p) =? NOTSET then INFO
                    else level (tf_logger p)) <=? lvl) = true).
  { apply Z.leb_le. destruct (Z.eqb_spec (level (tf_logger p)) NOTSET).
    - exact Hlvl.
    - by destruct Htf. }
  rewrite Hpass. cbn [app].
  rewrite filter_cons_True by (simpl; exact Hlvl).
  reflexivity.
Qed.

Lemma framework_record_written_once_witness :
  log (_setup_logging startup_process) Tensorflow WARNING "step 1" =
    [(Stdout, "step 1" +:+ terminator)].
Proof.
  apply (framework_record_written_once startup_process WARNING "step 1").
  - constructor.
  - reflexivity.
  - reflexivity.
  - by vm_compute.
  - left. reflexivity.
Defined.

(** X10: if the framework logger does not propagate, the setup leaves its
    records without any handler: its own handlers are removed and those of
    the root logger are not offered the record. *)
Theorem framework_logger_cut_off (p : Process) :
  propagate (tf_logger p) = false ->
  reachable_handlers (_setup_logging p) Tensorflow = [].
Proof.
  intros Hprop. unfold reachable_handlers.
  rewrite setup_logging_empties_framework_logger_aux.
  cbn [handlers propagate]. by rewrite Hprop.
Qed.

Lemma framework_logger_cut_off_witness :
  reachable_handlers
    (_setup_logging
       {| environ := ∅;
          root_logger :=
            {| level := WARNING; handlers := []; propagate := true |};
          tf_logger :=
            {| level := INFO;
               handlers := [{| handler_id := 0; handler_stream := Stderr;
                               handler_level := NOTSET |}];
               propagate := false |};
          next_id := 1 |}) Tensorflow = [].
Proof. apply framework_logger_cut_off. reflexivity. Defined.

(** X27: if the framework logger does not propagate, a record logged
    through it after the setup is left to the handler of last resort: it is
    written once on standard error when its level is WARNING or above and
    the logger lets it pass, and nowhere when its level is below WARNING. *)
Theorem framework_logger_last_resort (p : Process) (lvl : Z) (msg : string) :
  propagate (tf_logger p) = false ->
  (WARNING ≤ lvl -> level (tf_logger p) ≤ lvl ->
   log (_setup_logging p) Tensorflow lvl msg = [(Stderr, msg +:+ terminator)])
  ∧ (lvl < WARNING -> log (_setup_logging p) Tensorflow lvl msg = []).
Proof.
  intros Hprop.
  pose proof (setup_logging_empties_framework_logger_aux p) as Hfw.
  pose proof (setup_logging_root_level p) as Hl.
  unfold log, getEffectiveLevel, reachable_handlers.
  rewrite Hfw, Hl. cbn [level handlers propagate]. rewrite Hprop.
  cbn [app]. split.
  - intros Hw Hlvl.
    assert (Hpass : ((if level (tf_logger p) =? NOTSET then INFO
                      else level (tf_logger p)) <=? lvl) = true).
    { apply Z.leb_le. destruct (level (tf_logger p) =? NOTSET); [| exact Hlvl].
      unfold INFO, WARNING in *. lia. }
    rewrite Hpass. by rewrite (proj2 (Z.leb_le _ _) Hw).
  - intros Hw.
    rewrite (proj2 (Z.leb_gt _ _) Hw). by destruct (_ <=? _).
Qed.

Lemma framework_logger_last_resort_witness :
  log
    (_setup_logging
       {| environ := ∅;
          root_logger :=
            {| level := WARNING; handlers := []; propagate := true |};
          tf_logger :=
            {| level := INFO;
               handlers := [{| handler_id := 0; handler_stream := Stderr;
                               handler_level := NOTSET |}];
               propagate := false |};
          next_id := 1 |}) Tensorflow WARNING "disk full" =
    [(Stderr, "disk full" +:+ terminator)]
  ∧ log
      (_setup_logging
         {| environ := ∅;
            root_logger :=
              {| level := WARNING; handlers := []; propagate := true |};
            tf_logger :=
              {| level := INFO;
                 handlers := [{| handler_id := 0; handler_stream := Stderr;
                                 handler_level := NOTSET |}];
                 propagate := false |};
            next_id := 1 |}) Tensorflow INFO "step 1" = [].
Proof.
  split.
  - apply framework_logger_last_resort; [reflexivity | | by vm_compute].
    by vm_compute.
  - apply framework_logger_last_resort; [reflexivity | reflexivity].
Defined.

(** X11: the setup puts the root logger at level INFO, so a record below
    INFO logged through the root logger is written by no handler, whatever
    the handlers accept; so is one logged through the framework logger when
    that logger's own level is not set. *)
Theorem records_below_info_dropped (p : Process) (lvl : Z) (msg : string) :
  lvl < INFO ->
  log (_setup_logging p) Root lvl msg = []
  ∧ (level (tf_logger p) = NOTSET ->
     log (_setup_logging p) Tensorflow lvl msg = []).
Proof.
  intros Hlvl.
  pose proof (setup_logging_root_level p) as Hl.
  pose proof (setup_logging_empties_framework_logger_aux p) as Hfw.
  assert (Hno : (INFO <=? lvl) = false) by (apply Z.leb_gt; exact Hlvl).
  split.
  - unfold log, emitting_handlers, getEffectiveLevel. by rewrite Hl, Hno.
  - intros Htf. unfold log, emitting_handlers, getEffectiveLevel.
    rewrite Hfw, Hl. cbn [level]. rewrite Htf. simpl.
    by rewrite Hno.
Qed.

Lemma records_below_info_dropped_witness :
  log (_setup_logging startup_process) Root 10 "verbose" = []
  ∧ log (_setup_logging startup_process) Tensorflow 10 "verbose" = [].
Proof.
  destruct (records_below_info_dropped startup_process 10 "verbose")
    as [Hroot Htf]; [by vm_compute |].
  split; [exact Hroot | apply Htf; reflexivity].
Defined.

(** The handlers [n] invocations leave on a root logger that had none. *)
Lemma setup_logging_times_handlers (p : Process) :
  handlers_allocated p ->
  handlers (root_logger p) = [] ->
  ∀ n,
    handlers_allocated (setup_logging_times n p)
    ∧ length (handlers (root_logger (setup_logging_times n p))) = n
    ∧ Forall (λ h, handler_stream h = Stdout ∧ handler_level h = INFO)
        (handlers (root_logger (setup_logging_times n p)))
    ∧ (n ≠ 0%nat -> level (root_logger (setup_logging_times n p)) = INFO).
Proof.
  intros Halloc Hroot. induction n as [|n (IHa & IHn & IHs & _)].
  - simpl. rewrite Hroot. repeat split; [exact Halloc | constructor | done].
  - unfold setup_logging_times in *. rewrite !Nat.iter_succ.
    destruct (setup_logging_effect _ IHa) as (_ & Hl & Hh & Ha).
    split; [exact Ha |]. rewrite Hh. split; [| split].
    + rewrite length_app, IHn. simpl. lia.
    + apply Forall_app. split; [exact IHs |]. by repeat constructor.
    + intros _. exact Hl.
Qed.

(** X12: each invocation of the setup adds one handler: after [n]
    invocations on a root logger that had none, the logger has [n] handlers
    and one INFO record is written [n] times on standard output. *)
Theorem setup_logging_times_lines (p : Process) (n : nat) (msg : string) :
  handlers_allocated p ->
  handlers (root_logger p) = [] ->
  length (handlers (root_logger (setup_logging_times n p))) = n
  ∧ log (setup_logging_times n p) Root INFO msg =
      replicate n (Stdout, msg +:+ terminator).
Proof.
  intros Halloc Hroot.
  destruct (setup_logging_times_handlers p Halloc Hroot n)
    as (_ & Hn & Hs & Hl).
  split; [exact Hn |].
  destruct n as [|n].
  - unfold log, reachable_handlers.
    destruct (handlers _); [| discriminate Hn].
    by destruct (_ <=? _).
  - rewrite log_handlers
      by (unfold reachable_handlers; intros Hnil; by rewrite Hnil in Hn).
    unfold emitting_handlers, getEffectiveLevel, reachable_handlers.
    rewrite Hl by done. change (INFO <=? INFO) with true. cbv iota.
    set (hs := handlers (root_logger (setup_logging_times (S n) p))) in *.
    rewrite <- Hn. clearbody hs. clear Hn Hl.
    induction Hs as [|h hs [Hst Hlv] _ IH]; [reflexivity |].
    rewrite filter_cons_True by (simpl; rewrite Hlv; done).
    simpl. rewrite Hst, IH. reflexivity.
Qed.

Lemma setup_logging_times_lines_witness :
  length (handlers (root_logger (setup_logging_times 3 startup_process))) =
    3%nat
  ∧ log (setup_logging_times 3 startup_process) Root INFO "step 1" =
      replicate 3 (Stdout, "step 1" +:+ terminator).
Proof.
  apply (setup_logging_times_lines startup_process 3 "step 1").
  - constructor.
  - reflexivity.
Defined.

(** ** More on [train_and_evaluate] *)

(** X13: the epoch limit is parsed but never used: the training
    orchestration makes the same calls and prints the same line whatever
    [num_epochs] holds. *)
Theorem num_epochs_unused
    (json_loads : string -> result PyValue) (F : Framework)
    (env : gmap string string) (hparams : HParams) (epochs : Z) :
  train_and_evaluate json_loads F env
    {| train_files := train_files hparams; eval_files := eval_files hparams;
       job_dir := job_dir hparams; train_steps := train_steps hparams;
       eval_steps := eval_steps hparams; num_epochs := epochs;
       learning_rate := learning_rate hparams;
       train_batch_size := train_batch_size hparams;
       eval_batch_size := eval_batch_size hparams |} =
  train_and_evaluate json_loads F env hparams.
Proof. reflexivity. Qed.

(** The orchestration up to the print, when the derivation has returned
    and the framework has accepted the configuration and the two
    specifications. *)
Lemma train_and_evaluate_accepted
    (json_loads : string -> result PyValue) (F : Framework)
    (env : gmap string string) (hparams : HParams) (sc : option ConfigProto)
    (run_config : RunConfigObject F) (train_spec : TrainSpecObject F)
    (exporter : ExporterObject F) (eval_spec : EvalSpecObject F) :
  _get_session_config_from_env_var json_loads env = Return sc ->
  tf_estimator_RunConfig F (env !! "TF_CONFIG")
    {| session_config := sc; save_checkpoints_steps := 100;
       save_summary_steps := 100; model_dir := job_dir hparams |} =
    Return run_config ->
  tf_estimator_TrainSpec F
    {| train_input_fn := λ _,
         {| filename := train_files hparams;
            batch_size := train_batch_size hparams; shuffle := true |};
       max_steps := train_steps hparams |} = Return train_spec ->
  tf_estimator_FinalExporter F
    {| exporter_name := "exporter";
       serving_input_receiver_fn := model_serving_input_receiver_fn |} =
    Return exporter ->
  tf_estimator_EvalSpec F
    {| eval_input_fn := λ _,
         {| filename := eval_files hparams;
            batch_size := eval_batch_size hparams; shuffle := false |};
       steps := eval_steps hparams;
       exporters := [exporter];
       eval_name := "iris-eval" |} = Return eval_spec ->
  train_and_evaluate json_loads F env hparams =
    {| printed := ["Model dir: " +:+ RunConfig_model_dir F run_config];
       ended :=
         estimator ← model_build_estimator F
           {| config := run_config;
              estimator_learning_rate := learning_rate hparams;
              hidden_units := [10; 20; 10];
              num_classes := 3 |};
         tf_estimator_train_and_evaluate F estimator train_spec eval_spec |}.
Proof.
  intros Hsc Hrc Hts Hex Hes. unfold train_and_evaluate.
  rewrite Hsc. cbn [mbind result_bind]. rewrite Hrc. cbn [mbind result_bind].
  rewrite Hts. cbn [mbind result_bind]. rewrite Hex. cbn [mbind result_bind].
  rewrite Hes. reflexivity.
Qed.

(** X14: without [TF_CONFIG], the case of a run on one machine, the run
    configuration is asked for without a device-filter policy, and the
    framework is told of no [TF_CONFIG].  When the framework accepts it and
    the two specifications, the orchestration prints the model directory
    and goes on to build the estimator and to train. *)
Theorem local_run_unrestricted
    (json_loads : string -> result PyValue) (F : Framework)
    (env : gmap string string) (hparams : HParams)
    (run_config : RunConfigObject F) (train_spec : TrainSpecObject F)
    (exporter : ExporterObject F) (eval_spec : EvalSpecObject F) :
  env !! "TF_CONFIG" = None ->
  json_loads "{}" = Return (PyDict ∅) ->
  tf_estimator_RunConfig F None
    {| session_config := None; save_checkpoints_steps := 100;
       save_summary_steps := 100; model_dir := job_dir hparams |} =
    Return run_config ->
  tf_estimator_TrainSpec F
    {| train_input_fn := λ _,
         {| filename := train_files hparams;
            batch_size := train_batch_size hparams; shuffle := true |};
       max_steps := train_steps hparams |} = Return train_spec ->
  tf_estimator_FinalExporter F
    {| exporter_name := "exporter";
       serving_input_receiver_fn := model_serving_input_receiver_fn |} =
    Return exporter ->
  tf_estimator_EvalSpec F
    {| eval_input_fn := λ _,
         {| filename := eval_files hparams;
            batch_size := eval_batch_size hparams; shuffle := false |};
       steps := eval_steps hparams;
       exporters := [exporter];
       eval_name := "iris-eval" |} = Return eval_spec ->
  train_and_evaluate json_loads F env hparams =
    {| printed := ["Model dir: " +:+ RunConfig_model_dir F run_config];
       ended :=
         estimator ← model_build_estimator F
           {| config := run_config;
              estimator_learning_rate := learning_rate hparams;
              hidden_units := [10; 20; 10];
              num_classes := 3 |};
         tf_estimator_train_and_evaluate F estimator train_spec eval_spec |}.
Proof.
  intros Henv Hload Hrc Hts Hex Hes.
  apply (train_and_evaluate_accepted json_loads F env hparams None
           run_config train_spec exporter eval_spec); try done.
  - rewrite (session_config_cases json_loads env (PyDict ∅)); [done |].
    by rewrite Henv.
  - by rewrite Henv.
Qed.

Lemma local_run_unrestricted_witness :
  train_and_evaluate Json.loads Tf.framework ∅ sample_hparams =
    {| printed := ["Model dir: /tmp/out"]; ended := Return tt |}.
Proof.
  apply (local_run_unrestricted Json.loads Tf.framework ∅ sample_hparams
           {| session_config := None; save_checkpoints_steps := 100;
              save_summary_steps := 100; model_dir := "/tmp/out" |}
           {| train_input_fn := λ _,
                {| filename := ["a.csv"]; batch_size := 32; shuffle := true |};
              max_steps := 400 |}
           {| exporter_name := "exporter";
              serving_input_receiver_fn := model_serving_input_receiver_fn |}
           {| eval_input_fn := λ _,
                {| filename := ["b.csv"]; batch_size := 32; shuffle := false |};
              steps := 100;
              exporters :=
                [{| exporter_name := "exporter";
                    serving_input_receiver_fn :=
                      model_serving_input_receiver_fn |}];
              eval_name := "iris-eval" |}).
  - reflexivity.
  - vm_compute. reflexivity.
  - vm_compute. reflexivity.
  - reflexivity.
  - reflexivity.
  - reflexivity.
Defined.

(** X26: the orchestration prints nothing exactly when it is stopped
    before its [print].  When the derivation raises, or the framework
    refuses the run configuration, a specification or the exporter, the
    orchestration ends with that error, having printed nothing; and a run
    that printed nothing was stopped in this way, by the error it ended
    with. *)
Theorem silent_run_failed
    (json_loads : string -> result PyValue) (F : Framework)
    (env : gmap string string) (hparams : HParams) :
  (∀ e, stopped_early json_loads F env hparams e ->
        train_and_evaluate json_loads F env hparams =
          {| printed := []; ended := Raise e |})
  ∧ (printed (train_and_evaluate json_loads F env hparams) = [] ->
     ∃ e, stopped_early json_loads F env hparams e
          ∧ ended (train_and_evaluate json_loads F env hparams) = Raise e).
Proof.
  split.
  - intros e [Hsc | sc Hsc Hrc | sc rc Hsc Hrc Hts | sc rc ts Hsc Hrc Hts Hex
             | sc rc ts ex Hsc Hrc Hts Hex Hes];
      unfold train_and_evaluate; rewrite Hsc; cbn [mbind result_bind];
      try reflexivity; rewrite Hrc; cbn [mbind result_bind];
      try reflexivity; rewrite Hts; cbn [mbind result_bind];
      try reflexivity; rewrite Hex; cbn [mbind result_bind];
      try reflexivity; rewrite Hes; reflexivity.
  - unfold train_and_evaluate.
    destruct (_get_session_config_from_env_var json_loads env)
      as [sc|e] eqn:Hsc; cbn [mbind result_bind];
      [| intros _; exists e; split; [by apply stopped_by_derivation | done]].
    destruct (tf_estimator_RunConfig F _ _) as [rc|e] eqn:Hrc;
      cbn [mbind result_bind];
      [| intros _; exists e; split; [by eapply stopped_by_RunConfig | done]].
    destruct (tf_estimator_TrainSpec F _) as [ts|e] eqn:Hts;
      cbn [mbind result_bind];
      [| intros _; exists e; split; [by eapply stopped_by_TrainSpec | done]].
    destruct (tf_estimator_FinalExporter F _) as [ex|e] eqn:Hex;
      cbn [mbind result_bind];
      [| intros _; exists e; split;
         [by eapply stopped_by_FinalExporter | done]].
    destruct (tf_estimator_EvalSpec F _) as [es|e] eqn:Hes;
      cbn [mbind result_bind mret result_ret]; [discriminate |].
    intros _. exists e. split; [by eapply stopped_by_EvalSpec | done].
Qed.

Lemma silent_run_failed_witness :
  ∃ e, stopped_early Json.loads Tf.framework
         (tf_config_env "{'task': {'type': 'worker', 'index': 3}}")
         sample_hparams e
       ∧ ended (train_and_evaluate Json.loads Tf.framework
                  (tf_config_env "{'task': {'type': 'worker', 'index': 3}}")
                  sample_hparams) = Raise e.
Proof.
  apply (proj2 (silent_run_failed Json.loads Tf.framework
                  (tf_config_env "{'task': {'type': 'worker', 'index': 3}}")
                  sample_hparams)).
  vm_compute. reflexivity.
Defined.

(** ** More on [get_args] *)

Section ExactCommandLines.

Import Argparse.

Variable py_int : string -> option Z.
Variable py_float : string -> option spec_float.

(** A store action of the parser is selected by its option string written
    in full. *)
Lemma store_action_read a :
  In a parser -> kind a = Store ->
  parse_optional parser (action_name a) = Return (TokO (Some a) None)
  ∧ String.eqb (action_name a) "--" = false.
Proof.
  intros H Hk. simpl in H.
  repeat (destruct H as [<- | H]); try discriminate Hk;
    first [ split; [vm_compute; reflexivity | reflexivity] | destruct H ].
Qed.

Lemma value_token_not_dash v : value_token v -> String.eqb v "--" = false.
Proof. intros [Hv _]. by apply String.eqb_neq. Qed.

(** The first pass reads an option string written in full and followed by
    values as the option and its arguments. *)
Lemma classify_exact (G : list (Action * list string)) :
  Forall exact_group G ->
  classify parser false (flat_map group_strings G) =
    Return (flat_map group_tokens G).
Proof.
  induction 1 as [|[a vs] G (Hin & Hk & Hvs & _) _ IH]; [done |].
  destruct (store_action_read a Hin Hk) as [Hopt Hdash].
  simpl in *. rewrite Hdash, Hopt. cbn [mbind result_bind].
  induction Hvs as [|v vs Hv _ IHvs]; simpl.
  - rewrite IH. reflexivity.
  - rewrite (value_token_not_dash _ Hv). destruct Hv as [_ ->].
    cbn [mbind result_bind].
    destruct (classify parser false (vs ++ _)) as [r|e] eqn:E; [| done].
    cbn [mbind result_bind] in *. injection IHvs as ->. reflexivity.
Qed.

Lemma match_argument_exact a vs G :
  exact_group (a, vs) ->
  match_argument (nargs a)
    (map (λ v : string, (v, TokA)) vs ++ flat_map group_tokens G) =
  Some (vs, flat_map group_tokens G).
Proof.
  intros (_ & _ & _ & Hn). simpl in Hn.
  destruct Hn as [[Hn [v ->]] | [Hn Hvs]]; rewrite Hn.
  - reflexivity.
  - destruct vs as [|v vs]; [done |].
    unfold match_argument. simpl.
    rewrite span_values by (by apply span_group_tokens).
    by rewrite fst_values.
Qed.

(** The second pass takes the actions of the groups one after the other. *)
Lemma consume_exact (G : list (Action * list string)) : ∀ fuel st,
  (length G ≤ fuel)%nat ->
  Forall exact_group G ->
  consume py_int py_float parser fuel (flat_map group_tokens G) st =
    take_groups py_int py_float G st.
Proof.
  induction G as [|[a vs] G IH]; intros fuel st Hfuel Hok.
  - by destruct fuel.
  - destruct fuel as [|fuel]; [simpl in Hfuel; lia |].
    inversion Hok as [|? ? Hg HG]; subst.
    simpl. rewrite (match_argument_exact _ _ _ Hg).
    destruct (take_action py_int py_float a vs st) as [st'|e];
      cbn [mbind result_bind]; [| reflexivity].
    apply IH; [simpl in Hfuel; lia | exact HG].
Qed.

Lemma take_groups_extras (G : list (Action * list string)) : ∀ st st',
  take_groups py_int py_float G st = Return st' -> extras st' = extras st.
Proof.
  induction G as [|[a vs] G IH]; intros st st'; simpl.
  - by intros [= <-].
  - destruct (take_action py_int py_float a vs st) as [st1|e] eqn:Ht;
      cbn [mbind result_bind]; [| done].
    intros H. rewrite (IH _ _ H).
    unfold take_action in Ht. destruct (kind a); [| done].
    destruct (get_values py_int py_float a vs);
      cbn [mbind result_bind] in Ht; [| done].
    by injection Ht as <-.
Qed.

(** Parsing a command line made of option strings written in full, each
    followed by the values it takes: the actions are taken in order, then
    the required options are checked. *)
Lemma get_args_exact (G : list (Action * list string)) :
  Forall exact_group G ->
  get_args py_int py_float (flat_map group_strings G) =
    st ← take_groups py_int py_float G initial_state;
    if missing_required parser (seen st) then Raise (SystemExit 2)
    else Return (namespace st).
Proof.
  intros HG. unfold get_args, parse_args.
  rewrite (classify_exact _ HG). cbn [mbind result_bind].
  rewrite consume_exact; [| apply length_group_tokens | exact HG].
  fold initial_state.
  destruct (take_groups py_int py_float G initial_state) as [st|e] eqn:Ht;
    cbn [mbind result_bind]; [| reflexivity].
  apply take_groups_extras in Ht. simpl in Ht. by rewrite Ht.
Qed.

Lemma remove_first_dash_values vs :
  Forall value_token vs -> remove_first_dash vs = vs.
Proof.
  induction 1 as [|v vs Hv _ IH]; simpl; [done |].
  by rewrite (value_token_not_dash _ Hv), IH.
Qed.

(** A string option stores the values it is given, as they are. *)
Lemma take_action_strings a vs st :
  kind a = Store -> type a = TypeStr -> Forall value_token vs ->
  take_action py_int py_float a vs st = Return (store_group st (a, vs)).
Proof.
  intros Hk Ht Hvs.
  unfold take_action, get_values, store_group. simpl.
  rewrite Hk, Ht, (remove_first_dash_values _ Hvs).
  destruct (nargs a), vs as [|v [|v' vs]]; cbn [mbind result_bind];
    rewrite ?get_value_list_str; try reflexivity.
Qed.

(** An option that takes one value stores what its type makes of it. *)
Lemma take_action_one a v st :
  kind a = Store -> nargs a = NargsOne -> value_token v ->
  take_action py_int py_float a [v] st =
    x ← get_value py_int py_float (type a) v;
    Return {| namespace :=
                match dest a with
                | Some d => <[d := x]> (namespace st)
                | None => namespace st
                end;
              seen := action_name a :: seen st;
              extras := extras st |}.
Proof.
  intros Hk Hn Hv. unfold take_action, get_values. simpl.
  by rewrite Hk, Hn, (value_token_not_dash _ Hv).
Qed.

End ExactCommandLines.

Ltac in_parser := simpl; repeat (first [left; reflexivity | right]).

Section OptionalFlags.

Import Argparse.

Variable py_int : string -> option Z.
Variable py_float : string -> option spec_float.

(** The three required groups, in the order train, eval, job directory,
    leave the namespace of the defaults. *)
Lemma take_required_groups tf ef jd :
  tf ≠ [] -> ef ≠ [] ->
  Forall value_token tf -> Forall value_token ef -> value_token jd ->
  let G := [(required_option "--train-files" "train_files" NargsPlus, tf);
            (required_option "--eval-files" "eval_files" NargsPlus, ef);
            (required_option "--job-dir" "job_dir" NargsOne, [jd])] in
  Forall exact_group G
  ∧ ∃ st, take_groups py_int py_float G initial_state = Return st
          ∧ namespace st = default_namespace tf ef jd
          ∧ seen st = ["--job-dir"; "--eval-files"; "--train-files"]
          ∧ extras st = [].
Proof.
  intros Htf Hef Hvtf Hvef Hvjd G. subst G. split.
  - apply Forall_cons; split;
      [| apply Forall_cons; split;
         [| apply Forall_cons; split; [| constructor]]].
    + split; [in_parser |]. repeat split; [exact Hvtf | right; by split].
    + split; [in_parser |]. repeat split; [exact Hvef | right; by split].
    + split; [in_parser |].
      repeat split; [by constructor | left; split; [done | by eexists]].
  - simpl. rewrite take_action_strings by done. cbn [mbind result_bind].
    rewrite take_action_strings by done. cbn [mbind result_bind].
    rewrite take_action_strings by (try done; by constructor).
    cbn [mbind result_bind]. eexists. split; [reflexivity |].
    repeat split.
Qed.

Lemma take_groups_app (G G' : list (Action * list string)) : ∀ st,
  take_groups py_int py_float (G ++ G') st =
    st' ← take_groups py_int py_float G st; take_groups py_int py_float G' st'.
Proof.
  induction G as [|g G IH]; intros st; simpl; [done |].
  destruct (take_action py_int py_float g.1 g.2 st);
    cbn [mbind result_bind]; [apply IH | done].
Qed.

(** Nothing is missing once the three required flags have been seen. *)
Lemma missing_required_seen (seen : list string) :
  "--train-files" ∈ seen -> "--eval-files" ∈ seen -> "--job-dir" ∈ seen ->
  missing_required parser seen = false.
Proof.
  intros Htf Hef Hjd. apply not_true_is_false. intros Hmiss.
  unfold missing_required in Hmiss.
  apply existsb_exists in Hmiss as (r & Hr & Hreq).
  simpl in Hr.
  repeat (destruct Hr as [<- | Hr];
          [first [ discriminate Hreq
                 | cbn [required required_option andb] in Hreq;
                   rewrite bool_decide_eq_true_2 in Hreq
                     by (first [exact Htf | exact Hef | exact Hjd]);
                   discriminate Hreq ] |]).
  destruct Hr.
Qed.

(** The three required flags, each written in full and followed by its
    values. *)
Lemma get_args_required_only tf ef jd :
  tf ≠ [] -> ef ≠ [] ->
  Forall value_token tf -> Forall value_token ef -> value_token jd ->
  get_args py_int py_float
    ("--train-files" :: tf ++ "--eval-files" :: ef ++ ["--job-dir"; jd]) =
    Return (default_namespace tf ef jd).
Proof.
  intros Htf Hef Hvtf Hvef Hvjd.
  destruct (take_required_groups tf ef jd Htf Hef Hvtf Hvef Hvjd)
    as (HG & st & Hst & Hns & Hseen & _).
  change ("--train-files" :: tf ++ "--eval-files" :: ef ++ ["--job-dir"; jd])
    with (flat_map group_strings
            [(required_option "--train-files" "train_files" NargsPlus, tf);
             (required_option "--eval-files" "eval_files" NargsPlus, ef);
             (required_option "--job-dir" "job_dir" NargsOne, [jd])]).
  rewrite get_args_exact by exact HG.
  rewrite Hst. cbn [mbind result_bind]. rewrite Hseen, Hns.
  rewrite missing_required_seen; [reflexivity | | |];
    apply list_elem_of_In; simpl; auto.
Qed.

(** The required groups followed by one more option with one value. *)
Lemma get_args_one_more tf ef jd (a : Action) (v : string) :
  tf ≠ [] -> ef ≠ [] ->
  Forall value_token tf -> Forall value_token ef -> value_token jd ->
  value_token v ->
  In a parser -> kind a = Store -> nargs a = NargsOne ->
  get_args py_int py_float
    ("--train-files" :: tf ++ "--eval-files" :: ef ++
     ["--job-dir"; jd; action_name a; v]) =
    x ← get_value py_int py_float (type a) v;
    Return (match dest a with
            | Some d => <[d := x]> (default_namespace tf ef jd)
            | None => default_namespace tf ef jd
            end).
Proof.
  intros Htf Hef Hvtf Hvef Hvjd Hv Hin Hk Hn.
  destruct (take_required_groups tf ef jd Htf Hef Hvtf Hvef Hvjd)
    as (HG & st & Hst & Hns & Hseen & _).
  change ("--train-files" :: tf ++ "--eval-files" :: ef ++
          ["--job-dir"; jd; action_name a; v])
    with (flat_map group_strings
            ([(required_option "--train-files" "train_files" NargsPlus, tf);
              (required_option "--eval-files" "eval_files" NargsPlus, ef);
              (required_option "--job-dir" "job_dir" NargsOne, [jd])]
             ++ [(a, [v])])).
  rewrite get_args_exact.
  2:{ apply Forall_app. split; [exact HG |].
      constructor; [| constructor].
      repeat split; try done; [by constructor | left; split; [done | by eexists]]. }
  rewrite take_groups_app, Hst. cbn [mbind result_bind take_groups fst snd].
  rewrite take_action_one by done.
  destruct (get_value py_int py_float (type a) v) as [x|e];
    cbn [mbind result_bind]; [| reflexivity].
  cbn [seen namespace]. rewrite Hseen, Hns.
  rewrite missing_required_seen; [reflexivity | | |];
    apply list_elem_of_In; simpl; auto.
Qed.

(** X15: after the three required groups, an optional flag with one value
    stores what the flag's type makes of the value ([int] for the step
    counts, the epoch limit and the batch sizes, [float] for the learning
    rate) in place of the default, every other field being as without the
    flag; a value the type rejects ends the parsing with a usage error. *)
Theorem optional_flag_value tf ef jd flag dest ty v :
  tf ≠ [] -> ef ≠ [] ->
  Forall value_token tf -> Forall value_token ef -> value_token jd ->
  value_token v ->
  (flag, dest, ty) ∈ optional_flags ->
  get_args py_int py_float
    ("--train-files" :: tf ++ "--eval-files" :: ef ++
     ["--job-dir"; jd; flag; v]) =
    x ← get_value py_int py_float ty v;
    Return (<[dest := x]> (default_namespace tf ef jd)).
Proof.
  intros Htf Hef Hvtf Hvef Hvjd Hv Hflag.
  assert (Hone : ∀ dflt,
            In (optional_option flag dest ty dflt) parser ->
            get_args py_int py_float
              ("--train-files" :: tf ++ "--eval-files" :: ef ++
               ["--job-dir"; jd; flag; v]) =
              x ← get_value py_int py_float ty v;
              Return (<[dest := x]> (default_namespace tf ef jd))).
  { intros dflt Hin.
    by apply (get_args_one_more tf ef jd (optional_option flag dest ty dflt)). }
  apply list_elem_of_In in Hflag. simpl in Hflag.
  destruct Hflag as [[= <- <- <-] | [[= <- <- <-] | [[= <- <- <-] |
    [[= <- <- <-] | [[= <- <- <-] | [[= <- <- <-] | []]]]]]].
  - apply (Hone (PyInt 400)). in_parser.
  - apply (Hone (PyInt 100)). in_parser.
  - apply (Hone (PyInt 200)). in_parser.
  - apply (Hone (PyFloat float_0_01)). in_parser.
  - apply (Hone (PyInt 32)). in_parser.
  - apply (Hone (PyInt 32)). in_parser.
Qed.

(** X16: an option given twice keeps its last value: after the three
    required groups, a second [--job-dir] replaces the job directory and
    changes nothing else. *)
Theorem job_dir_given_twice tf ef jd jd' :
  tf ≠ [] -> ef ≠ [] ->
  Forall value_token tf -> Forall value_token ef -> value_token jd ->
  value_token jd' ->
  get_args py_int py_float
    ("--train-files" :: tf ++ "--eval-files" :: ef ++
     ["--job-dir"; jd; "--job-dir"; jd']) =
    Return (default_namespace tf ef jd').
Proof.
  intros Htf Hef Hvtf Hvef Hvjd Hvjd'.
  etrans.
  { apply (get_args_one_more tf ef jd
             (required_option "--job-dir" "job_dir" NargsOne) jd');
      try done. in_parser. }
  reflexivity.
Qed.

End OptionalFlags.

(** ** [get_args] on any command line *)

Section AnyCommandLine.

Import Argparse.

Variable py_int : string -> option Z.
Variable py_float : string -> option spec_float.

Lemma take_action_extras a args st st' :
  take_action py_int py_float a args st = Return st' ->
  extras st' = extras st.
Proof.
  unfold take_action. destruct (kind a); [| done].
  destruct (get_values py_int py_float a args); cbn; [| done].
  by intros [= <-].
Qed.

(** A property of the namespace that every action of the parser maintains
    holds after the second pass. *)
Lemma consume_namespace p (Q : gmap string PyValue -> Prop) :
  (∀ a args st st', In a p -> Q (namespace st) ->
     take_action py_int py_float a args st = Return st' ->
     Q (namespace st')) ->
  ∀ fuel toks st st',
    Forall (read_by p) toks -> Q (namespace st) ->
    consume py_int py_float p fuel toks st = Return st' ->
    Q (namespace st').
Proof.
  intros Hact.
  induction fuel as [|fuel IH]; intros toks st st' Htoks Hst; simpl.
  { by intros [= <-]. }
  destruct toks as [|[s c] rest]; [by intros [= <-] |].
  apply Forall_cons in Htoks as [Hc Hrest].
  destruct c as [| | [a|] [e|]]; try (by apply IH).
  - unfold read_by in Hc. simpl in Hc. apply parse_optional_In in Hc.
    destruct (nargs a).
    + destruct (take_action py_int py_float a [e] st) as [st1|] eqn:Ht;
        cbn; [| done]. apply IH; [done |]. by eapply Hact.
    + destruct (take_action py_int py_float a [e] st) as [st1|] eqn:Ht;
        cbn; [| done]. apply IH; [done |]. by eapply Hact.
    + destruct (String.prefix "--" s); [done |].
      destruct (String.eqb e ""); [done |].
      destruct (bundled p a e) as [a'|] eqn:Hb; cbn; [| done].
      apply bundled_first in Hb as ->.
      destruct (take_action py_int py_float a [] st) as [st1|] eqn:Ht;
        cbn; [| done]. apply IH; [done |]. by eapply Hact.
  - unfold read_by in Hc. simpl in Hc. apply parse_optional_In in Hc.
    destruct (match_argument (nargs a) rest) as [[args rest']|] eqn:Hm;
      [| done].
    destruct (take_action py_int py_float a args st) as [st1|] eqn:Ht;
      cbn; [| done].
    apply IH; [by eapply Forall_left_over | by eapply Hact].
Qed.

(** The destination of every action of the parser that has one is among
    the nine destinations. *)
Lemma parser_destinations a d :
  In a parser -> dest a = Some d -> d ∈ destinations.
Proof.
  intros H Hd. simpl in H.
  repeat (destruct H as [<- | H];
          [first [ discriminate Hd
                 | injection Hd as <-; apply list_elem_of_In; simpl; tauto ] |]).
  destruct H.
Qed.

Lemma initial_namespace_fields k :
  is_Some (initial_namespace parser !! k) ↔ k ∈ destinations.
Proof.
  change (initial_namespace parser) with
    (<["eval_batch_size" := PyInt 32]>
       (<["train_batch_size" := PyInt 32]>
          (<["learning_rate" := PyFloat float_0_01]>
             (<["num_epochs" := PyInt 200]>
                (<["eval_steps" := PyInt 100]>
                   (<["train_steps" := PyInt 400]>
                      (<["job_dir" := PyNone]>
                         (<["eval_files" := PyNone]>
                            (<["train_files" := PyNone]>
                               (∅ : gmap string PyValue)))))))))).
  rewrite !lookup_insert_is_Some', lookup_empty, is_Some_alt.
  unfold destinations. rewrite !elem_of_cons, elem_of_nil.
  split; intros H.
  - repeat (destruct H as [<- | H]; [auto 12 |]). destruct H.
  - repeat (destruct H as [-> | H]; [auto 12 |]). destruct H.
Qed.

(** X17: whatever the command line, a namespace that [get_args] returns has
    exactly the nine fields [train_files], [eval_files], [job_dir],
    [train_steps], [eval_steps], [num_epochs], [learning_rate],
    [train_batch_size] and [eval_batch_size]. *)
Theorem get_args_namespace_fields argv ns :
  get_args py_int py_float argv = Return ns ->
  ∀ k, is_Some (ns !! k) ↔ k ∈ destinations.
Proof.
  unfold get_args, parse_args.
  destruct (classify parser false argv) as [toks|] eqn:Hcl;
    cbn [mbind result_bind]; [| done].
  match goal with
  | |- context [consume ?i ?f ?p ?n ?t ?s] =>
      destruct (consume i f p n t s) as [st|] eqn:Hco;
        cbn [mbind result_bind]; [| done]
  end.
  destruct (missing_required parser (seen st)); [done |].
  destruct (extras st); [| done].
  intros [= <-].
  eapply (consume_namespace parser
            (λ m, ∀ k, is_Some (m !! k) ↔ k ∈ destinations)); [| | | exact Hco].
  - intros a args st0 st1 Hin HQ Ht k.
    unfold take_action in Ht. destruct (kind a); [| done].
    destruct (get_values py_int py_float a args) as [v|]; [| done].
    cbn in Ht. injection Ht as <-. cbn [namespace].
    destruct (dest a) as [d|] eqn:Hd; [| apply HQ].
    rewrite lookup_insert_is_Some', HQ.
    split; [intros [<- | H]; [by eapply parser_destinations | done] | by right].
  - eapply Forall_impl; [apply (classify_read _ _ _ _ Hcl) |].
    by intros t [_ Ht].
  - apply initial_namespace_fields.
Qed.

(** When no token reads as the help option, every option read is a store
    action that takes arguments. *)
Lemma helpless_tokens_store argv toks :
  (∀ tok, tok ∈ argv -> reads_as tok "-h" = false) ->
  classify parser false argv = Return toks ->
  Forall stores toks.
Proof.
  intros Hhelp Hcl.
  eapply Forall_impl; [apply (classify_read _ _ _ _ Hcl) |].
  intros [s c] [Hs Hc]. unfold read_by, stores in *. simpl in *.
  destruct c as [| | [a|] e]; try done.
  specialize (Hhelp s Hs). unfold reads_as in Hhelp. rewrite Hc in Hhelp.
  apply parser_stores; [by apply parse_optional_In in Hc |].
  by apply String.eqb_neq.
Qed.

(** Without a token that reads as the help option, [get_args] fails only
    with a usage error. *)
Lemma usage_error_without_help argv e :
  (∀ tok, tok ∈ argv -> reads_as tok "-h" = false) ->
  get_args py_int py_float argv = Raise e -> e = SystemExit 2.
Proof.
  intros Hhelp. unfold get_args, parse_args.
  destruct (classify parser false argv) as [toks|e0] eqn:Hcl;
    cbn [mbind result_bind].
  - match goal with
    | |- context [consume ?i ?f ?p ?n ?t ?s] =>
        destruct (consume i f p n t s) as [st|e1] eqn:Hco;
          cbn [mbind result_bind]
    end.
    + destruct (missing_required parser (seen st)); [by intros [= <-] |].
      destruct (extras st); [done | by intros [= <-]].
    + intros [= <-]. eapply consume_raise; [| exact Hco].
      by eapply helpless_tokens_store.
  - intros [= <-]. by eapply classify_raise.
Qed.

(** X18: [get_args] ends the program with exit status 0 only when a token
    of the command line reads as the help option. *)
Theorem exit_zero_needs_help argv :
  get_args py_int py_float argv = Raise (SystemExit 0) ->
  ∃ tok, tok ∈ argv ∧ reads_as tok "-h" = true.
Proof.
  intros Hexit.
  destruct (decide (Exists (λ tok, reads_as tok "-h" = true) argv))
    as [Hex | Hno].
  - apply Exists_exists in Hex as (tok & Hin & Hr). by exists tok.
  - apply not_Exists_Forall in Hno; [| intros tok; apply _].
    assert (Hhelp : ∀ tok, tok ∈ argv -> reads_as tok "-h" = false).
    { intros tok Hin. rewrite Forall_forall in Hno.
      specialize (Hno tok Hin). simpl in Hno. by apply not_true_is_false. }
    by apply (usage_error_without_help argv _ Hhelp) in Hexit.
Qed.

(** The first pass stops at a token it cannot read. *)
Lemma classify_ambiguous pre tok post :
  "--" ∉ pre -> tok ≠ "--" -> ambiguous tok = true ->
  classify parser false (pre ++ tok :: post) = Raise (SystemExit 2).
Proof.
  intros Hpre Htok Hamb.
  induction pre as [|s pre IH]; simpl.
  - apply String.eqb_neq in Htok. rewrite Htok.
    unfold ambiguous in Hamb.
    destruct (parse_optional parser tok) as [c|e] eqn:Hp; [done |].
    apply parse_optional_raise in Hp as ->. reflexivity.
  - apply not_elem_of_cons in Hpre as [Hs Hpre].
    assert (Hs' : String.eqb s "--" = false) by (apply String.eqb_neq; congruence).
    rewrite Hs'.
    destruct (parse_optional parser s) as [c|e] eqn:Hp; cbn [mbind result_bind].
    + by rewrite (IH Hpre).
    + by apply parse_optional_raise in Hp as ->.
Qed.

(** X19: an abbreviation that fits several options, written before any
    [--], makes [get_args] fail: no namespace is returned, and the program
    ends with a usage error and exit status 2 when no token reads as the
    help option. *)
Theorem ambiguous_abbreviation_rejected pre tok post :
  "--" ∉ pre -> tok ≠ "--" -> ambiguous tok = true ->
  (∀ ns, get_args py_int py_float (pre ++ tok :: post) ≠ Return ns)
  ∧ ((∀ t, t ∈ pre ++ tok :: post -> reads_as t "-h" = false) ->
     get_args py_int py_float (pre ++ tok :: post) = Raise (SystemExit 2)).
Proof.
  intros Hpre Htok Hamb.
  assert (H : get_args py_int py_float (pre ++ tok :: post) =
              Raise (SystemExit 2)).
  { unfold get_args, parse_args. by rewrite classify_ambiguous. }
  rewrite H. by split.
Qed.

(** X20: when the first token is [-h] or [--help] and no later token is an
    ambiguous abbreviation, [get_args] ends the program with exit status 0,
    whatever else the command line holds or lacks. *)
Theorem help_first_exits_zero h rest :
  h ∈ ["-h"; "--help"] ->
  (∀ tok, tok ∈ rest -> ambiguous tok = false) ->
  get_args py_int py_float (h :: rest) = Raise (SystemExit 0).
Proof.
  intros Hh Hamb.
  destruct (classify_returns rest false Hamb) as [toks Htoks].
  assert (Hcl : classify parser false (h :: rest) =
                Return ((h, TokO (Some help_action) None) :: toks)).
  { apply elem_of_cons in Hh as [-> | Hh];
      [| apply elem_of_cons in Hh as [-> | Hh];
         [| by apply elem_of_nil in Hh]];
      simpl; rewrite Htoks; reflexivity. }
  unfold get_args, parse_args. rewrite Hcl. cbn [mbind result_bind].
  reflexivity.
Qed.

Lemma span_Forall {A} (f : A -> bool) : ∀ l a b,
  span f l = (a, b) -> Forall (λ x, f x = true) a.
Proof.
  induction l as [|x l IH]; intros a b; simpl.
  - intros [= <- _]. constructor.
  - destruct (f x) eqn:Hx.
    + destruct (span f l) as [a' b'] eqn:Hs. intros [= <- _].
      constructor; [exact Hx | by eapply IH].
    + intros [= <- _]. constructor.
Qed.

(** An action takes no token that was read as an option. *)
Lemma match_argument_keeps_options n toks args rest t :
  match_argument n toks = Some (args, rest) ->
  t ∈ toks -> is_arg t = false -> t ∈ rest.
Proof.
  unfold match_argument. intros Hm Hin Ht.
  assert (Hpre : ∀ pre, Forall (λ x, is_arg x = true) pre ->
                 t ∈ pre ++ rest -> t ∈ rest).
  { intros pre Hpre Hin'. apply elem_of_app in Hin' as [Hin' | Hin']; [| done].
    rewrite Forall_forall in Hpre. specialize (Hpre t Hin'). congruence. }
  destruct n.
  - destruct toks as [|[s [| |]] r]; try done.
    injection Hm as _ <-. apply (Hpre [(s, TokA)]); [by constructor | done].
  - destruct toks as [|[s [| |]] r]; try done.
    destruct (span is_arg r) as [m r'] eqn:H.
    pose proof (span_Forall _ _ _ _ H) as Hm'.
    apply span_app in H. subst r. injection Hm as _ <-.
    apply (Hpre ((s, TokA) :: m)); [by constructor | done].
  - by injection Hm as _ <-.
Qed.

(** A token read as an unknown option is left over by the second pass, and
    what is left over stays. *)
Lemma consume_extras p : ∀ fuel toks st st',
  (length toks ≤ fuel)%nat ->
  extras st ≠ [] ∨ (∃ t, t ∈ toks ∧ ∃ e, t.2 = TokO None e) ->
  consume py_int py_float p fuel toks st = Return st' ->
  extras st' ≠ [].
Proof.
  induction fuel as [|fuel IH]; intros toks st st' Hlen Hex; simpl.
  { destruct toks; [| simpl in Hlen; lia].
    destruct Hex as [Hex | (t & Hin & _)]; [| by apply elem_of_nil in Hin].
    by intros [= <-]. }
  destruct toks as [|[s c] rest].
  { destruct Hex as [Hex | (t & Hin & _)]; [| by apply elem_of_nil in Hin].
    by intros [= <-]. }
  simpl in Hlen.
  assert (Hleft : ∀ st1, extras st1 = extras st ++ [s] ->
            consume py_int py_float p fuel rest st1 = Return st' ->
            extras st' ≠ []).
  { intros st1 Hst1. apply IH; [lia |]. left. rewrite Hst1.
    by destruct (extras st). }
  assert (Hstep : ∀ a args rest' st1,
            (length rest' ≤ fuel)%nat ->
            (∀ t, t ∈ rest -> is_arg t = false -> t ∈ rest') ->
            (∃ e, c = TokO (Some a) e) ->
            take_action py_int py_float a args st = Return st1 ->
            consume py_int py_float p fuel rest' st1 = Return st' ->
            extras st' ≠ []).
  { intros a args rest' st1 Hl Hkeep [e0 ->] Ht. apply IH; [exact Hl |].
    rewrite (take_action_extras _ _ _ _ Ht).
    destruct Hex as [Hex | (t & Hin & e1 & Ht1)]; [by left | right].
    apply elem_of_cons in Hin as [-> | Hin]; [done |].
    exists t. split; [| by exists e1].
    apply Hkeep; [exact Hin |]. unfold is_arg. by rewrite Ht1. }
  destruct c as [| | [a|] [e|]]; try (by apply Hleft).
  - destruct (nargs a).
    + destruct (take_action py_int py_float a [e] st) as [st1|] eqn:Ht;
        cbn; [| done]. eapply Hstep; [| | by eexists | exact Ht]; [lia | done].
    + destruct (take_action py_int py_float a [e] st) as [st1|] eqn:Ht;
        cbn; [| done]. eapply Hstep; [| | by eexists | exact Ht]; [lia | done].
    + destruct (String.prefix "--" s); [done |].
      destruct (String.eqb e ""); [done |].
      destruct (bundled p a e) as [a'|] eqn:Hb; cbn; [| done].
      apply bundled_first in Hb as ->.
      destruct (take_action py_int py_float a [] st) as [st1|] eqn:Ht;
        cbn; [| done]. eapply Hstep; [| | by eexists | exact Ht]; [lia | done].
  - destruct (match_argument (nargs a) rest) as [[args rest']|] eqn:Hm;
      [| done].
    destruct (take_action py_int py_float a args st) as [st1|] eqn:Ht;
      cbn; [| done].
    eapply Hstep; [| | by eexists | exact Ht].
    + apply match_argument_length in Hm. lia.
    + intros t Hin Harg. by eapply match_argument_keeps_options.
Qed.

(** Without [--], the first pass reads every token by itself. *)
Lemma classify_no_dash : ∀ argv toks tok,
  "--" ∉ argv ->
  classify parser false argv = Return toks ->
  tok ∈ argv ->
  ∃ c, parse_optional parser tok = Return c ∧ (tok, c) ∈ toks.
Proof.
  induction argv as [|s argv IH]; intros toks tok Hdash; simpl.
  { intros _ Hin. by apply elem_of_nil in Hin. }
  apply not_elem_of_cons in Hdash as [Hs Hdash].
  assert (Hs' : String.eqb s "--" = false) by (apply String.eqb_neq; congruence).
  rewrite Hs'.
  destruct (parse_optional parser s) as [c|] eqn:Hp; cbn [mbind result_bind];
    [| done].
  destruct (classify parser false argv) as [r|] eqn:Hr; cbn [mbind result_bind];
    [| done].
  intros [= <-] Hin. apply elem_of_cons in Hin as [-> | Hin].
  - exists c. split; [exact Hp | left].
  - destruct (IH r tok Hdash eq_refl Hin) as (c' & Hc' & Hin').
    exists c'. split; [exact Hc' | by right].
Qed.

(** No namespace is returned when the second pass starts with something
    left over or meets a token read as an unknown option. *)
Lemma left_over_rejected argv toks :
  classify parser false argv = Return toks ->
  (∃ t, t ∈ toks ∧ ∃ e, t.2 = TokO None e) ->
  ∀ ns, get_args py_int py_float argv ≠ Return ns.
Proof.
  intros Hcl Hex ns. unfold get_args, parse_args. rewrite Hcl.
  cbn [mbind result_bind].
  match goal with
  | |- context [consume ?i ?f ?p ?n ?t ?s] =>
      destruct (consume i f p n t s) as [st'|] eqn:Hco;
        cbn [mbind result_bind]; [| done]
  end.
  apply consume_extras in Hco; [| lia | by right].
  destruct (missing_required parser (seen st')); [done |].
  by destruct (extras st').
Qed.

(** X21: on a command line without [--], a token that the parser reads as
    an option it does not know makes [get_args] fail: no namespace is
    returned, and the program ends with a usage error and exit status 2
    when no token reads as the help option. *)
Theorem unknown_option_rejected argv tok :
  tok ∈ argv -> "--" ∉ argv -> unknown_option tok = true ->
  (∀ ns, get_args py_int py_float argv ≠ Return ns)
  ∧ ((∀ t, t ∈ argv -> reads_as t "-h" = false) ->
     get_args py_int py_float argv = Raise (SystemExit 2)).
Proof.
  intros Hin Hdash Hunk.
  assert (Hnone : ∀ ns, get_args py_int py_float argv ≠ Return ns).
  { destruct (classify parser false argv) as [toks|e] eqn:Hcl.
    - eapply (left_over_rejected argv toks Hcl).
      destruct (classify_no_dash argv toks tok Hdash Hcl Hin) as (c & Hc & Ht).
      exists (tok, c). split; [exact Ht |].
      unfold unknown_option in Hunk. rewrite Hc in Hunk.
      destruct c as [| | [a|] e]; try done. by exists e.
    - intros ns. unfold get_args, parse_args. by rewrite Hcl. }
  split; [exact Hnone |].
  intros Hhelp.
  destruct (get_args py_int py_float argv) as [ns|e] eqn:Hg.
  - by destruct (Hnone ns).
  - f_equal. by eapply usage_error_without_help.
Qed.

(** X22: the parser has no positional argument: a command line whose first
    token is read as a value, not as an option, makes [get_args] fail: no
    namespace is returned, and the program ends with a usage error and exit
    status 2 when no token reads as the help option. *)
Theorem leading_value_rejected v rest :
  value_token v ->
  (∀ ns, get_args py_int py_float (v :: rest) ≠ Return ns)
  ∧ ((∀ t, t ∈ v :: rest -> reads_as t "-h" = false) ->
     get_args py_int py_float (v :: rest) = Raise (SystemExit 2)).
Proof.
  intros Hv.
  assert (Hnone : ∀ ns, get_args py_int py_float (v :: rest) ≠ Return ns).
  { intros ns. unfold get_args, parse_args. simpl classify.
    rewrite (value_token_not_dash v Hv). destruct Hv as [_ ->].
    cbn [mbind result_bind].
    destruct (classify parser false rest) as [toks|]; cbn [mbind result_bind];
      [| done].
    cbn [length consume].
    match goal with
    | |- context [consume ?i ?f ?p ?n ?t ?s] =>
        destruct (consume i f p n t s) as [st'|] eqn:Hco;
          cbn [mbind result_bind]; [| done]
    end.
    apply consume_extras in Hco; [| lia | by left].
    destruct (missing_required parser (seen st')); [done |].
    by destruct (extras st'). }
  split; [exact Hnone |].
  intros Hhelp.
  destruct (get_args py_int py_float (v :: rest)) as [ns|e] eqn:Hg.
  - by destruct (Hnone ns).
  - f_equal. by eapply usage_error_without_help.
Qed.

End AnyCommandLine.

(** ** The program *)

Section MainFacts.

Variable py_int : string -> option Z.
Variable py_float : string -> option spec_float.
Variable json_loads : string -> result PyValue.
Variable new_HParams : gmap string PyValue -> result HParams.
Variable F : Framework.

(** Training reads the environment for [TF_CONFIG] only, which the logging
    setup leaves alone. *)
Lemma train_and_evaluate_after_setup (p : Process) (hparams : HParams) :
  train_and_evaluate json_loads F (environ (_setup_logging p)) hparams =
  train_and_evaluate json_loads F (environ p) hparams.
Proof.
  unfold train_and_evaluate, _get_session_config_from_env_var.
  by rewrite setup_logging_keeps_TF_CONFIG.
Qed.


(** X24: a malformed [TF_CONFIG] stops the program only after the command
    line has been parsed and the logging re-routed: the decoder's error is
    the outcome, nothing is printed or asked of the framework, and the
    process is left with the logging setup done. *)
Theorem main_malformed_config argv args hparams (p : Process) text e :
  get_args py_int py_float argv = Return args ->
  new_HParams args = Return hparams ->
  environ p !! "TF_CONFIG" = Some text ->
  json_loads text = Raise e ->
  main py_int py_float json_loads new_HParams F argv p =
    (_setup_logging p, {| printed := []; ended := Raise e |}).
Proof.
  intros Hargs Hhp Henv Hload. unfold main. rewrite Hargs, Hhp.
  rewrite train_and_evaluate_after_setup.
  unfold train_and_evaluate, _get_session_config_from_env_var.
  rewrite Henv. simpl. rewrite Hload. reflexivity.
Qed.

(** X25: the program run with the three required flags only, in a process
    without [TF_CONFIG]: the logging is re-routed; the framework is asked
    for a run configuration without a device-filter policy in the job
    directory of the command line, for a training specification of 400
    steps and an evaluation specification of 100 steps, both with batches of
    32; and when it accepts them, the model directory is printed and
    training is delegated with an estimator of learning rate 0.01. *)
Theorem main_default_run tf ef jd (p : Process)
    (run_config : RunConfigObject F) (train_spec : TrainSpecObject F)
    (exporter : ExporterObject F) (eval_spec : EvalSpecObject F)
    (estimator : EstimatorObject F) :
  tf ≠ [] -> ef ≠ [] ->
  Forall value_token tf -> Forall value_token ef -> value_token jd ->
  (∀ args, new_HParams args = hparams_or_error args) ->
  environ p !! "TF_CONFIG" = None ->
  json_loads "{}" = Return (PyDict ∅) ->
  tf_estimator_RunConfig F None
    {| session_config := None; save_checkpoints_steps := 100;
       save_summary_steps := 100; model_dir := jd |} = Return run_config ->
  tf_estimator_TrainSpec F
    {| train_input_fn := λ _,
         {| filename := tf; batch_size := 32; shuffle := true |};
       max_steps := 400 |} = Return train_spec ->
  tf_estimator_FinalExporter F
    {| exporter_name := "exporter";
       serving_input_receiver_fn := model_serving_input_receiver_fn |} =
    Return exporter ->
  tf_estimator_EvalSpec F
    {| eval_input_fn := λ _,
         {| filename := ef; batch_size := 32; shuffle := false |};
       steps := 100;
       exporters := [exporter];
       eval_name := "iris-eval" |} = Return eval_spec ->
  model_build_estimator F
    {| config := run_config;
       estimator_learning_rate := float_0_01;
       hidden_units := [10; 20; 10];
       num_classes := 3 |} = Return estimator ->
  main py_int py_float json_loads new_HParams F
    ("--train-files" :: tf ++ "--eval-files" :: ef ++ ["--job-dir"; jd]) p =
    (_setup_logging p,
     {| printed := ["Model dir: " +:+ RunConfig_model_dir F run_config];
        ended :=
          tf_estimator_train_and_evaluate F estimator train_spec eval_spec |}).
Proof.
  intros Htf Hef Hvtf Hvef Hvjd Hnew Henv Hload Hrc Hts Hex Hes Hest.
  assert (Hstr : ∀ l, mapM as_str (map PyStr l) = Some l).
  { induction l as [|x l IH]; [done |]. simpl. rewrite IH. reflexivity. }
  assert (Hhp : new_HParams (default_namespace tf ef jd) =
                Return {| train_files := tf; eval_files := ef; job_dir := jd;
                          train_steps := 400; eval_steps := 100;
                          num_epochs := 200; learning_rate := float_0_01;
                          train_batch_size := 32; eval_batch_size := 32 |}).
  { rewrite Hnew. unfold hparams_or_error, hparams_of_args.
    change (default_namespace tf ef jd !! "train_files")
      with (Some (PyList (map PyStr tf))).
    change (default_namespace tf ef jd !! "eval_files")
      with (Some (PyList (map PyStr ef))).
    cbn [mbind option_bind as_str_list]. rewrite !Hstr.
    reflexivity. }
  unfold main.
  rewrite (get_args_required_only py_int py_float tf ef jd) by done.
  rewrite Hhp, train_and_evaluate_after_setup.
  rewrite (train_and_evaluate_accepted json_loads F (environ p) _ None
             run_config train_spec exporter eval_spec); cbn [job_dir
             train_files eval_files train_steps eval_steps train_batch_size
             eval_batch_size learning_rate]; try done.
  - by rewrite Hest.
  - rewrite (session_config_cases json_loads (environ p) (PyDict ∅));
      [done |]. by rewrite Henv.
  - by rewrite Henv.
Qed.

End MainFacts.

Lemma falsy_config_unrestricted_witness :
  Json.loads "null" = Return PyNone
  ∧ _get_session_config_from_env_var Json.loads (tf_config_env "null") =
      Return None.
Proof.
  split; [reflexivity |].
  apply (falsy_config_unrestricted Json.loads (tf_config_env "null") PyNone);
    reflexivity.
Defined.

(** Discharges that a concrete token is read as a value. *)
Ltac is_value := split; [discriminate | reflexivity].

Lemma optional_flag_value_witness :
  get_args Builtins.int Builtins.float
    ["--train-files"; "a.csv"; "--eval-files"; "b.csv"; "--job-dir"; "/tmp/out";
     "--learning-rate"; "0.5"] =
  Return (<["learning_rate" := PyFloat (S754_finite false 4503599627370496 (-53))]>
            (default_namespace ["a.csv"] ["b.csv"] "/tmp/out")).
Proof.
  etrans.
  - apply (optional_flag_value Builtins.int Builtins.float
             ["a.csv"] ["b.csv"] "/tmp/out"
             "--learning-rate" "learning_rate" Argparse.TypeFloat "0.5").
    + discriminate.
    + discriminate.
    + constructor; [is_value | constructor].
    + constructor; [is_value | constructor].
    + is_value.
    + is_value.
    + apply list_elem_of_In. simpl. auto 10.
  - reflexivity.
Defined.

Lemma job_dir_given_twice_witness :
  get_args Builtins.int Builtins.float
    ["--train-files"; "a.csv"; "--eval-files"; "b.csv"; "--job-dir"; "/tmp/out";
     "--job-dir"; "/tmp/other"] =
  Return (default_namespace ["a.csv"] ["b.csv"] "/tmp/other").
Proof.
  apply (job_dir_given_twice Builtins.int Builtins.float
           ["a.csv"] ["b.csv"] "/tmp/out" "/tmp/other").
  - discriminate.
  - discriminate.
  - constructor; [is_value | constructor].
  - constructor; [is_value | constructor].
  - is_value.
  - is_value.
Defined.

Lemma get_args_namespace_fields_witness :
  get_args Builtins.int Builtins.float
    ["--job-dir=/tmp/out"; "--eval-f"; "b.csv"; "--train-files"; "a.csv";
     "--num-epochs"; "7"] =
    Return (<["num_epochs" := PyInt 7]>
              (default_namespace ["a.csv"] ["b.csv"] "/tmp/out"))
  ∧ ∀ k, is_Some (<["num_epochs" := PyInt 7]>
                    (default_namespace ["a.csv"] ["b.csv"] "/tmp/out") !! k)
         ↔ k ∈ destinations.
Proof.
  split; [reflexivity |].
  apply (get_args_namespace_fields Builtins.int Builtins.float
           ["--job-dir=/tmp/out"; "--eval-f"; "b.csv"; "--train-files"; "a.csv";
            "--num-epochs"; "7"]).
  reflexivity.
Defined.

Lemma exit_zero_needs_help_witness :
  get_args Builtins.int Builtins.float ["--train-files"; "a.csv"; "--he"] =
    Raise (SystemExit 0)
  ∧ ∃ tok, tok ∈ ["--train-files"; "a.csv"; "--he"] ∧ reads_as tok "-h" = true.
Proof.
  split; [reflexivity |].
  apply (exit_zero_needs_help Builtins.int Builtins.float
           ["--train-files"; "a.csv"; "--he"]).
  reflexivity.
Defined.

Lemma ambiguous_abbreviation_rejected_witness :
  (∀ ns, get_args Builtins.int Builtins.float
           ["--job-dir"; "/tmp/out"; "--train"; "a.csv"] ≠ Return ns)
  ∧ get_args Builtins.int Builtins.float
      ["--job-dir"; "/tmp/out"; "--train"; "a.csv"] = Raise (SystemExit 2).
Proof.
  destruct (ambiguous_abbreviation_rejected Builtins.int Builtins.float
              ["--job-dir"; "/tmp/out"] "--train" ["a.csv"])
    as [Hnone Hexit].
  - intros H. not_among H.
  - discriminate.
  - reflexivity.
  - split; [exact Hnone | apply Hexit].
    intros t Ht. apply list_elem_of_In in Ht. simpl in Ht.
    repeat (destruct Ht as [<- | Ht]; [vm_compute; reflexivity |]).
    destruct Ht.
Defined.

Lemma help_first_exits_zero_witness :
  get_args Builtins.int Builtins.float ["-h"; "--bogus"; "--train-steps"; "x"] =
    Raise (SystemExit 0).
Proof.
  apply (help_first_exits_zero Builtins.int Builtins.float
           "-h" ["--bogus"; "--train-steps"; "x"]).
  - apply list_elem_of_In. simpl. auto.
  - intros tok Ht. apply list_elem_of_In in Ht. simpl in Ht.
    repeat (destruct Ht as [<- | Ht]; [vm_compute; reflexivity |]).
    destruct Ht.
Defined.

Lemma unknown_option_rejected_witness :
  (∀ ns, get_args Builtins.int Builtins.float
           ["--train-files"; "a.csv"; "--eval-files"; "b.csv";
            "--job-dir"; "/tmp/out"; "--verbosity"; "DEBUG"] ≠ Return ns)
  ∧ get_args Builtins.int Builtins.float
      ["--train-files"; "a.csv"; "--eval-files"; "b.csv";
       "--job-dir"; "/tmp/out"; "--verbosity"; "DEBUG"] = Raise (SystemExit 2).
Proof.
  destruct (unknown_option_rejected Builtins.int Builtins.float
              ["--train-files"; "a.csv"; "--eval-files"; "b.csv";
               "--job-dir"; "/tmp/out"; "--verbosity"; "DEBUG"] "--verbosity")
    as [Hnone Hexit].
  - apply list_elem_of_In. simpl. auto 10.
  - intros H. not_among H.
  - reflexivity.
  - split; [exact Hnone | apply Hexit].
    intros t Ht. apply list_elem_of_In in Ht. simpl in Ht.
    repeat (destruct Ht as [<- | Ht]; [vm_compute; reflexivity |]).
    destruct Ht.
Defined.

Lemma leading_value_rejected_witness :
  (∀ ns, get_args Builtins.int Builtins.float
           ["train.csv"; "--train-files"; "a.csv"; "--eval-files"; "b.csv";
            "--job-dir"; "/tmp/out"] ≠ Return ns)
  ∧ get_args Builtins.int Builtins.float
      ["train.csv"; "--train-files"; "a.csv"; "--eval-files"; "b.csv";
       "--job-dir"; "/tmp/out"] = Raise (SystemExit 2).
Proof.
  destruct (leading_value_rejected Builtins.int Builtins.float "train.csv"
              ["--train-files"; "a.csv"; "--eval-files"; "b.csv";
               "--job-dir"; "/tmp/out"])
    as [Hnone Hexit].
  - is_value.
  - split; [exact Hnone | apply Hexit].
    intros t Ht. apply list_elem_of_In in Ht. simpl in Ht.
    repeat (destruct Ht as [<- | Ht]; [vm_compute; reflexivity |]).
    destruct Ht.
Defined.


Lemma main_malformed_config_witness :
  main Builtins.int Builtins.float Json.loads hparams_or_error Tf.framework
    ["--train-files"; "a.csv"; "--eval-files"; "b.csv"; "--job-dir"; "/tmp/out"]
    {| environ := {[ "TF_CONFIG" := "{" ]};
       root_logger := root_logger startup_process;
       tf_logger := tf_logger startup_process;
       next_id := next_id startup_process |} =
  (_setup_logging
     {| environ := {[ "TF_CONFIG" := "{" ]};
        root_logger := root_logger startup_process;
        tf_logger := tf_logger startup_process;
        next_id := next_id startup_process |},
   {| printed := []; ended := Raise JSONDecodeError |}).
Proof.
  apply (main_malformed_config Builtins.int Builtins.float Json.loads
           hparams_or_error Tf.framework
           ["--train-files"; "a.csv"; "--eval-files"; "b.csv";
            "--job-dir"; "/tmp/out"]
           (default_namespace ["a.csv"] ["b.csv"] "/tmp/out")
           sample_hparams _ "{").
  - reflexivity.
  - reflexivity.
  - reflexivity.
  - reflexivity.
Defined.

Lemma main_default_run_witness :
  main Builtins.int Builtins.float Json.loads hparams_or_error Tf.framework
    ["--train-files"; "a.csv"; "--eval-files"; "b.csv"; "--job-dir"; "/tmp/out"]
    startup_process =
  (_setup_logging startup_process,
   {| printed := ["Model dir: /tmp/out"]; ended := Return tt |}).
Proof.
  apply (main_default_run Builtins.int Builtins.float Json.loads
           hparams_or_error Tf.framework ["a.csv"] ["b.csv"] "/tmp/out"
           startup_process
           {| session_config := None; save_checkpoints_steps := 100;
              save_summary_steps := 100; model_dir := "/tmp/out" |}
           {| train_input_fn := λ _,
                {| filename := ["a.csv"]; batch_size := 32; shuffle := true |};
              max_steps := 400 |}
           {| exporter_name := "exporter";
              serving_input_receiver_fn := model_serving_input_receiver_fn |}
           {| eval_input_fn := λ _,
                {| filename := ["b.csv"]; batch_size := 32; shuffle := false |};
              steps := 100;
              exporters :=
                [{| exporter_name := "exporter";
                    serving_input_receiver_fn :=
                      model_serving_input_receiver_fn |}];
              eval_name := "iris-eval" |}
           {| config :=
                {| session_config := None; save_checkpoints_steps := 100;
                   save_summary_steps := 100; model_dir := "/tmp/out" |};
              estimator_learning_rate := float_0_01;
              hidden_units := [10; 20; 10];
              num_classes := 3 |}).
  - discriminate.
  - discriminate.
  - constructor; [is_value | constructor].
  - constructor; [is_value | constructor].
  - is_value.
  - reflexivity.
  - reflexivity.
  - reflexivity.
  - vm_compute. reflexivity.
  - reflexivity.
  - reflexivity.
  - reflexivity.
  - reflexivity.
Defined.
